(** * imucal: calibration records and the Ferraris estimation

    A shallow embedding of [imucal/calibration_info.py] and
    [imucal/ferraris_calibration.py].

    - Python exceptions are values of [exn]; a call that may raise returns a
      [result].
    - numpy's float64 arithmetic is abstracted by the class [Scalar], and
      [numpy.linalg.inv] by the class [Linalg]; the code is written once
      over any such arithmetic and is run on two instances: the IEEE-754
      binary64 numbers of [PrimFloat] (executable, with NaN and infinities)
      and the real numbers (the idealisation in which the formulas of the
      calibration procedure are stated).
    - values of a JSON document that no calibration record holds (a number
      or a list as a unit or comment, an array of another shape than a
      parameter has) are outside the model; the functions that meet one
      answer [Unmodelled], which is no exception of the program.
    - dictionaries (keyword arguments, JSON objects, HDF5 files, instance
      attributes) are finite maps keyed by strings.
    - the class [FerrarisCalibrationInfo] and its two transforms, whose
      module is not among the sources, are modelled from the spec. *)

From Stdlib Require Import Floats Reals Lra Ascii String.
From stdpp Require Import base option list gmap strings.

Set Default Proof Using "Type".
Set Warnings "-register-all".
Open Scope string_scope.
Open Scope list_scope.

(** ** Exceptions and fallible computations *)

Inductive exn : Type :=
| LinAlgError        (* numpy.linalg.inv: "Singular matrix" *)
| AxisError          (* numpy reduction over axis 0 of a 0-d object *)
| TypeError
| ValueError (msg : string)
| ZeroDivisionError
| StopIteration
| AttributeError
| KeyError
| OSError
| Unmodelled.        (* no exception: the input is outside the model *)

Inductive result (T : Type) : Type :=
| Ok (x : T)
| Err (e : exn).
Arguments Ok {T} x.
Arguments Err {T} e.

Definition bind {T U : Type} (m : result T) (f : T → result U) : result U :=
  match m with
  | Ok x => f x
  | Err e => Err e
  end.

Notation "x <- m ;; k" := (bind m (λ x, k))
  (at level 100, m at next level, right associativity).

Definition is_Ok {T} (m : result T) : bool :=
  match m with Ok _ => true | Err _ => false end.

Definition raises {T} (m : result T) : Prop := ∃ e, m = Err e.

(** Two errors of numpy. *)
Definition ambiguous_truth : exn :=
  ValueError "The truth value of an array with more than one element is ambiguous".
Definition shape_mismatch : exn :=
  ValueError "operands could not be broadcast together".

(** ** Numbers *)

(** The operations the two modules perform on Python floats and on the
    elements of float64 arrays. [feqb] is [==]; [of_Z] injects the integer
    literals and the sample counts. *)
Class Scalar (A : Type) : Type := {
  of_Z : Z → A;
  fadd : A → A → A;
  fsub : A → A → A;
  fmul : A → A → A;
  fdiv : A → A → A;
  fsqrt : A → A;
  feqb : A → A → bool;
}.

Declare Scope scalar_scope.
Delimit Scope scalar_scope with S.
Infix "+" := fadd : scalar_scope.
Infix "-" := fsub : scalar_scope.
Infix "*" := fmul : scalar_scope.
Infix "/" := fdiv : scalar_scope.
Infix "==" := feqb (at level 70, no associativity) : scalar_scope.

(** IEEE-754 binary64: what numpy's float64 and Python's float are. *)
#[global] Instance float_scalar : Scalar float := {|
  of_Z z :=
    match z with
    | Z0 => PrimFloat.zero
    | Zpos _ => PrimFloat.of_uint63 (Uint63.of_Z z)
    | Zneg p => PrimFloat.opp (PrimFloat.of_uint63 (Uint63.of_Z (Zpos p)))
    end;
  fadd := PrimFloat.add;
  fsub := PrimFloat.sub;
  fmul := PrimFloat.mul;
  fdiv := PrimFloat.div;
  fsqrt := PrimFloat.sqrt;
  feqb := PrimFloat.eqb;
|}.

(** The real numbers: arithmetic without rounding. *)
#[global] Instance real_scalar : Scalar R := {|
  of_Z := IZR;
  fadd := Rplus;
  fsub := Rminus;
  fmul := Rmult;
  fdiv := Rdiv;
  fsqrt := sqrt;
  feqb x y := if Req_dec_T x y then true else false;
|}.

(** ** Arrays

    A sample is a row of three numbers; a segment, an [(n, 3)] array, is a
    list of samples; the calibration parameters are vectors of length 3 and
    3x3 matrices (stored by rows). *)

Record vec3 (A : Type) : Type := V3 { vx : A; vy : A; vz : A }.
Arguments V3 {A} vx vy vz.
Arguments vx {A} v.
Arguments vy {A} v.
Arguments vz {A} v.

Record mat3 (A : Type) : Type := M3 { row0 : vec3 A; row1 : vec3 A; row2 : vec3 A }.
Arguments M3 {A} row0 row1 row2.
Arguments row0 {A} m.
Arguments row1 {A} m.
Arguments row2 {A} m.

Section Linalg.
Context {A : Type} `{Scalar A}.
Local Open Scope scalar_scope.

Definition vmap (f : A → A) (v : vec3 A) : vec3 A :=
  V3 (f (vx v)) (f (vy v)) (f (vz v)).
Definition vzip (f : A → A → A) (u v : vec3 A) : vec3 A :=
  V3 (f (vx u) (vx v)) (f (vy u) (vy v)) (f (vz u) (vz v)).
Definition mmap (f : A → A) (m : mat3 A) : mat3 A :=
  M3 (vmap f (row0 m)) (vmap f (row1 m)) (vmap f (row2 m)).
Definition mzip (f : A → A → A) (a b : mat3 A) : mat3 A :=
  M3 (vzip f (row0 a) (row0 b)) (vzip f (row1 a) (row1 b))
     (vzip f (row2 a) (row2 b)).

(* element-wise array arithmetic and broadcasting against a scalar *)
Definition vadd : vec3 A → vec3 A → vec3 A := vzip fadd.
Definition vsub : vec3 A → vec3 A → vec3 A := vzip fsub.
Definition vdivs (v : vec3 A) (c : A) : vec3 A := vmap (λ x, x / c) v.
Definition smulv (c : A) (v : vec3 A) : vec3 A := vmap (λ x, c * x) v.
Definition madd : mat3 A → mat3 A → mat3 A := mzip fadd.
Definition msub : mat3 A → mat3 A → mat3 A := mzip fsub.
Definition mdivs (m : mat3 A) (c : A) : mat3 A := mmap (λ x, x / c) m.
Definition smulm (c : A) (m : mat3 A) : mat3 A := mmap (λ x, c * x) m.

Definition np_sqrt (v : vec3 A) : vec3 A := vmap fsqrt v.

Definition col0 (m : mat3 A) : vec3 A := V3 (vx (row0 m)) (vx (row1 m)) (vx (row2 m)).
Definition col1 (m : mat3 A) : vec3 A := V3 (vy (row0 m)) (vy (row1 m)) (vy (row2 m)).
Definition col2 (m : mat3 A) : vec3 A := V3 (vz (row0 m)) (vz (row1 m)) (vz (row2 m)).

(* np.vstack of three vectors, and [.T] *)
Definition np_vstack3 (a b c : vec3 A) : mat3 A := M3 a b c.
Definition transpose (m : mat3 A) : mat3 A := M3 (col0 m) (col1 m) (col2 m).

(* np.diag: the diagonal of a matrix, and the diagonal matrix of a vector *)
Definition np_diag (m : mat3 A) : vec3 A :=
  V3 (vx (row0 m)) (vy (row1 m)) (vz (row2 m)).
Definition np_diag_matrix (v : vec3 A) : mat3 A :=
  M3 (V3 (vx v) (of_Z 0) (of_Z 0))
     (V3 (of_Z 0) (vy v) (of_Z 0))
     (V3 (of_Z 0) (of_Z 0) (vz v)).
Definition np_identity : mat3 A := np_diag_matrix (V3 (of_Z 1) (of_Z 1) (of_Z 1)).
Definition np_zeros : mat3 A :=
  let z := V3 (of_Z 0) (of_Z 0) (of_Z 0) in M3 z z z.

(* W[:, j] = v *)
Definition set_col0 (m : mat3 A) (v : vec3 A) : mat3 A :=
  M3 (V3 (vx v) (vy (row0 m)) (vz (row0 m)))
     (V3 (vy v) (vy (row1 m)) (vz (row1 m)))
     (V3 (vz v) (vy (row2 m)) (vz (row2 m))).
Definition set_col1 (m : mat3 A) (v : vec3 A) : mat3 A :=
  M3 (V3 (vx (row0 m)) (vx v) (vz (row0 m)))
     (V3 (vx (row1 m)) (vy v) (vz (row1 m)))
     (V3 (vx (row2 m)) (vz v) (vz (row2 m))).
Definition set_col2 (m : mat3 A) (v : vec3 A) : mat3 A :=
  M3 (V3 (vx (row0 m)) (vy (row0 m)) (vx v))
     (V3 (vx (row1 m)) (vy (row1 m)) (vy v))
     (V3 (vx (row2 m)) (vy (row2 m)) (vz v)).

(* the [@] operator *)
Definition dot (u v : vec3 A) : A :=
  vx u * vx v + vy u * vy v + vz u * vz v.
Definition matvec (m : mat3 A) (v : vec3 A) : vec3 A :=
  V3 (dot (row0 m) v) (dot (row1 m) v) (dot (row2 m) v).
Definition matmul (a b : mat3 A) : mat3 A :=
  let r (u : vec3 A) := V3 (dot u (col0 b)) (dot u (col1 b)) (dot u (col2 b)) in
  M3 (r (row0 a)) (r (row1 a)) (r (row2 a)).

Definition det (m : mat3 A) : A :=
  let '(M3 (V3 a b c) (V3 d e f) (V3 g h i)) := m in
  a * (e * i - f * h) - b * (d * i - f * g) + c * (d * h - e * g).

Definition adjugate (m : mat3 A) : mat3 A :=
  let '(M3 (V3 a b c) (V3 d e f) (V3 g h i)) := m in
  M3 (V3 (e * i - f * h) (c * h - b * i) (b * f - c * e))
     (V3 (f * g - d * i) (a * i - c * g) (c * d - a * f))
     (V3 (d * h - e * g) (b * g - a * h) (a * e - b * d)).

(** The inverse by the adjugate and the determinant, [LinAlgError] when
    the determinant is zero. A NaN determinant is not equal to zero, so a
    matrix holding NaN is inverted to NaNs without an exception. *)
Definition adjugate_inv (m : mat3 A) : result (mat3 A) :=
  let d := det m in
  if d == of_Z 0 then Err LinAlgError else Ok (mdivs (adjugate m) d).

(** Reductions over axis 0 of an [(n, 3)] array, adding the rows in their
    order. The sum of no rows is the zero row; the mean of no rows divides
    it by zero. *)
Definition np_sum (seg : list (vec3 A)) : vec3 A :=
  foldl vadd (V3 (of_Z 0) (of_Z 0) (of_Z 0)) seg.
Definition np_mean_rows (seg : list (vec3 A)) : vec3 A :=
  vdivs (np_sum seg) (of_Z (Z.of_nat (length seg))).

(** Python's [/] on floats raises on a zero divisor; numpy's does not. *)
Definition py_div (x y : A) : result A :=
  if y == of_Z 0 then Err ZeroDivisionError else Ok (x / y).

(** [x or default] for an optional float: [None] and zero are falsy. *)
Definition float_or (x : option A) (default : A) : A :=
  match x with
  | Some v => if v == of_Z 0 then default else v
  | None => default
  end.
End Linalg.

(** [numpy.linalg.inv], a primitive of the arithmetic like the square
    root. Over the reals it raises [LinAlgError] exactly on a singular
    matrix and returns the inverse otherwise, which is what [adjugate_inv]
    does. On binary64 numpy calls LAPACK, whose result can differ from
    that of [adjugate_inv] in the last bits, in the sign of a zero, and for
    a determinant that underflows; the instance on floats serves to run the
    code at inputs where the two agree. What is proved for every arithmetic
    holds whatever [inv] computes. *)
Class Linalg (A : Type) : Type := {
  inv : mat3 A → result (mat3 A);
}.

#[global] Instance float_linalg : Linalg float := {| inv := adjugate_inv |}.
#[global] Instance real_linalg : Linalg R := {| inv := adjugate_inv |}.

(** ** calibration_info.py: classes, instances and values *)

(** A dataclass field. [dataclasses.Field] objects have no [__eq__]: two
    fields are equal when they are the same object, that is the same name
    declared by the same class (a subclass shares the inherited ones). *)
Record field : Type := Field { field_owner : string; field_name : string }.

#[global] Instance field_eq_dec : EqDecision field.
Proof. solve_decision. Defined.

(** A class of the [CalibrationInfo] hierarchy: its name, the [CAL_TYPE] and
    [_cal_paras] class attributes as attribute lookup resolves them ([None]
    when only annotated), [dataclasses.fields] and [__subclasses__()]. *)
Inductive pyclass : Type := PyClass {
  cls_name : string;
  cls_CAL_TYPE : option string;
  cls_fields : list field;
  cls_cal_paras : option (list string);
  cls_subclasses : list pyclass;
}.

(** JSON values. A JSON document, and likewise the content of an HDF5
    file, is a finite map from names to such values: [json.loads] after
    [json.dumps] is the identity on documents, so the text is left out. *)
Inductive json (A : Type) : Type :=
| JNull
| JStr (s : string)
| JNum (x : A)
| JList (l : list (json A)).
Arguments JNull {A}.
Arguments JStr {A} s.
Arguments JNum {A} x.
Arguments JList {A} l.

(** numpy arrays as the calibration parameters have them: a vector of
    length 3, a 3x3 matrix, and [np.array(None)], the 0-d object array an
    unset parameter is read back as. *)
Inductive ndarray (A : Type) : Type :=
| Nd0None
| Nd1 (v : vec3 A)
| Nd2 (m : mat3 A).
Arguments Nd0None {A}.
Arguments Nd1 {A} v.
Arguments Nd2 {A} m.

(** Attribute values of a calibration record. *)
Inductive pyval (A : Type) : Type :=
| PNone
| PStr (s : string)
| PArr (a : ndarray A).
Arguments PNone {A}.
Arguments PStr {A} s.
Arguments PArr {A} a.

Record obj (A : Type) : Type := Obj {
  obj_class : pyclass;
  obj_attrs : gmap string (pyval A);
}.
Arguments Obj {A} obj_class obj_attrs.
Arguments obj_class {A} o.
Arguments obj_attrs {A} o.

(** [CalibrationInfo._get_subclasses]: the descendants of a class, each
    class after its own descendants. *)
Fixpoint _get_subclasses (cls : pyclass) : list pyclass :=
  flat_map (λ subclass, _get_subclasses subclass ++ [subclass]) (cls_subclasses cls).

(** The dataclass fields of [CalibrationInfo], all optional strings. *)
Definition base_fields : list field :=
  Field "CalibrationInfo" <$>
    ["acc_unit"; "gyr_unit"; "from_acc_unit"; "from_gyr_unit"; "comment"].

(** The base class, over the subclasses defined so far in the process. *)
Definition CalibrationInfo (subclasses : list pyclass) : pyclass :=
  {| cls_name := "CalibrationInfo";
     cls_CAL_TYPE := None;
     cls_fields := base_fields;
     cls_cal_paras := None;
     cls_subclasses := subclasses |}.

Section Records.
Context {A : Type} `{Scalar A}.
Local Open Scope scalar_scope.

Definition veqb (u v : vec3 A) : bool :=
  (vx u == vx v) && (vy u == vy v) && (vz u == vz v).
Definition meqb (a b : mat3 A) : bool :=
  veqb (row0 a) (row0 b) && veqb (row1 a) (row1 b) && veqb (row2 a) (row2 b).

(** [ndarray.tolist] *)
Definition vec_tolist (v : vec3 A) : json A :=
  JList [JNum (vx v); JNum (vy v); JNum (vz v)].
Definition tolist (a : ndarray A) : json A :=
  match a with
  | Nd0None => JNull
  | Nd1 v => vec_tolist v
  | Nd2 m => JList [vec_tolist (row0 m); vec_tolist (row1 m); vec_tolist (row2 m)]
  end.

(** [np.array] on a JSON value. It accepts any payload; the model covers
    the three shapes of [ndarray], and a payload of another shape is
    answered with [Unmodelled]. *)
Definition vec_of_json (j : json A) : option (vec3 A) :=
  match j with
  | JList [JNum x; JNum y; JNum z] => Some (V3 x y z)
  | _ => None
  end.
Definition np_array (j : json A) : result (ndarray A) :=
  match j with
  | JNull => Ok Nd0None
  | JList [a; b; c] =>
      match vec_of_json j with
      | Some v => Ok (Nd1 v)
      | None =>
          match vec_of_json a, vec_of_json b, vec_of_json c with
          | Some r0, Some r1, Some r2 => Ok (Nd2 (M3 r0 r1 r2))
          | _, _, _ => Err Unmodelled
          end
      end
  | _ => Err Unmodelled
  end.

(** [NumpyEncoder]: arrays are written as nested lists. *)
Definition NumpyEncoder (v : pyval A) : json A :=
  match v with
  | PNone => JNull
  | PStr s => JStr s
  | PArr a => tolist a
  end.

(** A JSON value passed through unchanged as an attribute. The program
    passes any value; the fields are optional strings, and a number or a
    list, which [pyval] cannot hold, is answered with [Unmodelled]. *)
Definition passthrough (j : json A) : result (pyval A) :=
  match j with
  | JNull => Ok PNone
  | JStr s => Ok (PStr s)
  | _ => Err Unmodelled
  end.

(** [np.array_equal a1 a2] for an array [a1]: equal shapes and [==] on
    every element. *)
Definition array_equal (a1 : ndarray A) (a2 : pyval A) : bool :=
  match a1, a2 with
  | Nd0None, (PNone | PArr Nd0None) => true
  | Nd1 u, PArr (Nd1 v) => veqb u v
  | Nd2 a, PArr (Nd2 b) => meqb a b
  | _, _ => false
  end.

(** [a1 == a2] followed by [not equal], for [a1] not an array. Against
    an array of several elements [==] is element-wise and its truth value
    is ambiguous. *)
Definition py_eq (a1 a2 : pyval A) : result bool :=
  match a1, a2 with
  | _, PArr (Nd1 _ | Nd2 _) => Err ambiguous_truth
  | PNone, (PNone | PArr Nd0None) => Ok true
  | PStr s, PStr t => Ok (String.eqb s t)
  | _, _ => Ok false
  end.

(** Truthiness of a value tested with [if value:]. *)
Definition truthy (v : pyval A) : result bool :=
  match v with
  | PNone => Ok false
  | PStr s => Ok (negb (String.eqb s EmptyString))
  | PArr Nd0None => Ok false
  | PArr _ => Err ambiguous_truth
  end.

Definition getattr (o : obj A) (name : string) : result (pyval A) :=
  match obj_attrs o !! name with
  | Some v => Ok v
  | None => Err AttributeError
  end.

Definition setattr (o : obj A) (name : string) (v : pyval A) : obj A :=
  Obj (obj_class o) (<[name := v]> (obj_attrs o)).

Definition fields (o : obj A) : list field := cls_fields (obj_class o).

Definition CAL_TYPE (o : obj A) : result string :=
  match cls_CAL_TYPE (obj_class o) with
  | Some t => Ok t
  | None => Err AttributeError
  end.

(** The generated [__init__]: every field defaults to [None]; a keyword
    that is no field is a [TypeError]. *)
Definition construct (cls : pyclass) (kwargs : gmap string (pyval A)) : result (obj A) :=
  if bool_decide (map_Forall (λ k _, k ∈ field_name <$> cls_fields cls) kwargs)
  then Ok (Obj cls (list_to_map
         ((λ f, (field_name f, default PNone (kwargs !! field_name f)))
            <$> cls_fields cls)))
  else Err TypeError.

Definition isinstance (o : obj A) (cls : pyclass) : bool :=
  bool_decide (cls_name (obj_class o) ∈ cls_name <$> (cls :: _get_subclasses cls)).

(** The loop of [__eq__] over the fields. *)
Fixpoint eq_values (self other : obj A) (fs : list field) : result bool :=
  match fs with
  | [] => Ok true
  | f :: fs' =>
      a1 <- getattr self (field_name f) ;;
      a2 <- getattr other (field_name f) ;;
      equal <- match a1 with
               | PArr arr => Ok (array_equal arr a2)
               | _ => py_eq a1 a2
               end ;;
      if negb equal then Ok false else eq_values self other fs'
  end.

Definition __eq__ (self other : obj A) : result bool :=
  if negb (isinstance other (obj_class self)) then
    Err (ValueError ("Comparison is only defined between two "
                       +:+ cls_name (obj_class self) +:+ " object!"))
  else if negb (bool_decide (fields self = fields other)) then Ok false
  else
    t1 <- CAL_TYPE self ;;
    t2 <- CAL_TYPE other ;;
    if negb (String.eqb t1 t2) then Ok false
    else eq_values self other (fields self).

(** [self == other]. The interpreter gives the first call to the [__eq__]
    of the right operand when its class is a proper subclass of the class
    of the left operand, and to that of the left operand otherwise; the
    [__eq__] above never returns [NotImplemented], so the first call
    decides. *)
Definition operator_eq (self other : obj A) : result bool :=
  if negb (String.eqb (cls_name (obj_class other)) (cls_name (obj_class self)))
     && isinstance other (obj_class self)
  then __eq__ other self
  else __eq__ self other.
End Records.

Section Serialisation.
Context {A : Type} `{Scalar A}.

(** The subclasses of [CalibrationInfo] defined in the process, in
    definition order: [CalibrationInfo.__subclasses__()]. *)
Variable registry : list pyclass.

(** [next(x for x in ... if x.CAL_TYPE == cal_type)] *)
Fixpoint next_match (xs : list pyclass) (cal_type : json A) : result pyclass :=
  match xs with
  | [] => Err StopIteration
  | x :: xs' =>
      match cls_CAL_TYPE x with
      | None => Err AttributeError
      | Some t =>
          if match cal_type with JStr s => String.eqb t s | _ => false end
          then Ok x
          else next_match xs' cal_type
      end
  end.

Definition find_subclass_from_cal_type (cal_type : json A) : result pyclass :=
  next_match (_get_subclasses (CalibrationInfo registry)) cal_type.

Definition cal_paras (cls : pyclass) : result (list string) :=
  match cls_cal_paras cls with
  | Some ps => Ok ps
  | None => Err AttributeError
  end.

(** [dataclasses.asdict] *)
Fixpoint asdict_from (self : obj A) (fs : list field) (d : gmap string (pyval A))
  : result (gmap string (pyval A)) :=
  match fs with
  | [] => Ok d
  | f :: fs' =>
      v <- getattr self (field_name f) ;;
      asdict_from self fs' (<[field_name f := v]> d)
  end.
Definition asdict (self : obj A) : result (gmap string (pyval A)) :=
  asdict_from self (fields self) ∅.

Definition _to_list_dict (self : obj A) : result (gmap string (pyval A)) :=
  d <- asdict self ;;
  t <- CAL_TYPE self ;;
  Ok (<["cal_type" := PStr t]> d).

Definition to_json (self : obj A) : result (gmap string (json A)) :=
  data_dict <- _to_list_dict self ;;
  Ok (fmap (M := gmap string) NumpyEncoder data_dict).

(** The loop of [_from_list_dict]: every calibration parameter of the
    document is turned into an array. *)
Fixpoint array_items (paras : list string) (list_dict : gmap string (json A))
    (acc : gmap string (pyval A)) : result (gmap string (pyval A)) :=
  match paras with
  | [] => Ok acc
  | k :: paras' =>
      match list_dict !! k with
      | None => Err KeyError
      | Some j =>
          a <- np_array j ;;
          array_items paras' list_dict (<[k := PArr a]> acc)
      end
  end.

(** A dictionary of results is a dictionary when no entry is an error. *)
Definition dict_sequence {V : Type} (m : gmap string (result V)) : result (gmap string V) :=
  match omap (λ kv, match kv.2 with Err e => Some e | Ok _ => None end) (map_to_list m) with
  | e :: _ => Err e
  | [] => Ok (omap (λ r, match r with Ok v => Some v | Err _ => None end) m)
  end.

(** [_from_list_dict]: the keyword arguments are the arrays of the loop
    and every other entry of the document as it is. *)
Definition _from_list_dict (cls : pyclass) (list_dict : gmap string (json A))
  : result (obj A) :=
  paras <- cal_paras cls ;;
  arrays <- array_items paras list_dict ∅ ;;
  others <- dict_sequence (passthrough <$> filter (λ kv, kv.1 ∉ paras) list_dict) ;;
  construct cls (arrays ∪ others).

Definition from_json (json_str : gmap string (json A)) : result (obj A) :=
  match json_str !! "cal_type" with
  | None => Err KeyError
  | Some cal_type =>
      let raw_json := delete "cal_type" json_str in
      subclass <- find_subclass_from_cal_type cal_type ;;
      _from_list_dict subclass raw_json
  end.

(** Writing a name of an HDF5 file; a name that exists cannot be written
    again. *)
Definition hdf_set (hdf : gmap string (json A)) (name : string) (v : json A)
  : result (gmap string (json A)) :=
  match hdf !! name with
  | Some _ => Err (ValueError "Unable to create dataset (name already exists)")
  | None => Ok (<[name := v]> hdf)
  end.

(** The loop of [to_hdf5] over the fields. *)
Fixpoint to_hdf5_fields (self : obj A) (fs : list field) (hdf : gmap string (json A))
  : result (gmap string (json A)) :=
  match fs with
  | [] => Ok hdf
  | k :: fs' =>
      value <- getattr self (field_name k) ;;
      paras <- cal_paras (obj_class self) ;;
      hdf' <- (if bool_decide (field_name k ∈ paras) then
                match value with
                | PArr Nd0None => Err TypeError
                | PArr a => hdf_set hdf (field_name k) (tolist a)
                | _ => Err AttributeError
                end
              else
                t <- truthy value ;;
                if t then hdf_set hdf (field_name k) (NumpyEncoder value) else Ok hdf) ;;
      to_hdf5_fields self fs' hdf'
  end.

(** What [to_hdf5] writes into the file it has opened. *)
Definition to_hdf5_content (self : obj A) : result (gmap string (json A)) :=
  hdf <- to_hdf5_fields self (fields self) ∅ ;;
  t <- CAL_TYPE self ;;
  hdf_set hdf "cal_type" (JStr t).

(** [tmp.value] of a dataset that exists. *)
Definition dataset_value (tmp : json A) : result (pyval A) :=
  match tmp with
  | JStr s => Ok (PStr s)
  | JNull => Err TypeError
  | _ => a <- np_array tmp ;; Ok (PArr a)
  end.

(** The loop of [from_hdf5] over the fields of the subclass. *)
Fixpoint from_hdf5_fields (subcls : pyclass) (hdf : gmap string (json A))
    (fs : list field) (values : gmap string (pyval A)) : result (gmap string (pyval A)) :=
  match fs with
  | [] => Ok values
  | k :: fs' =>
      let tmp := hdf !! field_name k in
      paras <- cal_paras subcls ;;
      v <- (if bool_decide (field_name k ∈ paras) then
             a <- np_array (default JNull tmp) ;; Ok (PArr a)
           else
             match tmp with
             | Some d => dataset_value d
             | None => Ok PNone
             end) ;;
      from_hdf5_fields subcls hdf fs' (<[field_name k := v]> values)
  end.

(** What [from_hdf5] makes of the file it has opened. *)
Definition from_hdf5_content (hdf : gmap string (json A)) : result (obj A) :=
  match hdf !! "cal_type" with
  | None => Err KeyError
  | Some cal_type =>
      subcls <- find_subclass_from_cal_type cal_type ;;
      values <- from_hdf5_fields subcls hdf (cls_fields subcls) ∅ ;;
      construct subcls values
  end.
End Serialisation.

(** ** The Ferraris calibration record *)

(** Modelled from the spec: [imucal/ferraris_calibration_info.py], the
    module of [FerrarisCalibrationInfo], is not among the sources. The class
    is the subclass of [CalibrationInfo] whose calibration parameters are the
    seven arrays of the spec's table ([b_a], [K_a], [R_a], [b_g], [K_g],
    [R_g], [K_ga]), every one a dataclass field that defaults to [None] (the
    estimation builds the record without arguments), and whose tag is
    ["Ferraris"], as the docstring of [CalibrationInfo] shows. *)
Definition ferraris_paras : list string :=
  ["b_a"; "K_a"; "R_a"; "b_g"; "K_g"; "R_g"; "K_ga"].

Definition FerrarisCalibrationInfo : pyclass :=
  {| cls_name := "FerrarisCalibrationInfo";
     cls_CAL_TYPE := Some "Ferraris";
     cls_fields := base_fields ++ (Field "FerrarisCalibrationInfo" <$> ferraris_paras);
     cls_cal_paras := Some ferraris_paras;
     cls_subclasses := [] |}.

(** ** Files and the loader *)

(** [pathlib]: the name of a path is its last component (empty and ["."]
    components are dropped), and the suffix of a name is what starts at
    its last dot, unless that dot is the first or the last character. *)
Fixpoint components (path : string) (cur : string) : list string :=
  match path with
  | EmptyString => [cur]
  | String c rest =>
      if Ascii.eqb c "/"%char then cur :: components rest EmptyString
      else components rest (cur +:+ String c EmptyString)
  end.

Definition path_name (path : string) : string :=
  List.last
    (List.filter (λ p, negb (String.eqb p EmptyString || String.eqb p ".")%bool)
                 (components path EmptyString))
    EmptyString.

(* str.rfind, [None] for -1 *)
Fixpoint rfind (c : ascii) (s : string) : option nat :=
  match s with
  | EmptyString => None
  | String a s' =>
      match rfind c s' with
      | Some i => Some (S i)
      | None => if Ascii.eqb a c then Some 0 else None
      end
  end.

Definition name_suffix (name : string) : string :=
  match rfind "."%char name with
  | Some i =>
      if ((0 <? i) && (i <? String.length name - 1))%nat
      then substring i (String.length name - i) name
      else EmptyString
  | None => EmptyString
  end.

Definition path_suffix (path : string) : string := name_suffix (path_name path).

(** A file holds a JSON document or an HDF5 container. *)
Inductive file (A : Type) : Type :=
| JsonFile (doc : gmap string (json A))
| Hdf5File (hdf : gmap string (json A)).
Arguments JsonFile {A} doc.
Arguments Hdf5File {A} hdf.

Section Files.
Context {A : Type} `{Scalar A}.
Variable registry : list pyclass.

Definition to_json_file (self : obj A) (path : string) (fs : gmap string (file A))
  : result (gmap string (file A)) :=
  data_dict <- _to_list_dict self ;;
  Ok (<[path := JsonFile (fmap (M := gmap string) NumpyEncoder data_dict)]> fs).

Definition from_json_file (fs : gmap string (file A)) (path : string) : result (obj A) :=
  match fs !! path with
  | None => Err OSError
  | Some (Hdf5File _) => Err (ValueError "not a JSON document")
  | Some (JsonFile raw_json) => from_json registry raw_json
  end.

Definition to_hdf5 (self : obj A) (path : string) (fs : gmap string (file A))
  : result (gmap string (file A)) :=
  hdf <- to_hdf5_content self ;;
  Ok (<[path := Hdf5File hdf]> fs).

Definition from_hdf5 (fs : gmap string (file A)) (path : string) : result (obj A) :=
  match fs !! path with
  | None => Err OSError
  | Some (JsonFile _) => Err OSError
  | Some (Hdf5File hdf) => from_hdf5_content registry hdf
  end.

Definition format_options : list (string * string) :=
  [("json", "from_json_file"); ("hdf", "from_hdf5")].

Definition undetermined_format : exn :=
  ValueError ("The loader format could not be determined from the file suffix."
              +:+ "Please specify `format` explicitly.").
Definition unknown_format : exn :=
  ValueError "`format` must be one of ['json', 'hdf']".

(** [load_calibration_info]. The two loaders are class methods that search
    the subclasses of [CalibrationInfo] whatever [base_class] is, so that
    argument is left out. *)
Definition load_calibration_info (fs : gmap string (file A)) (path : string)
    (format : option string) : result (obj A) :=
  format <- match format with
            | None =>
                let suffix := path_suffix path in
                if String.eqb suffix "json" then Ok "json"
                else if bool_decide (suffix ∈ ["hdf"; "h5"]) then Ok "hdf"
                else Err undetermined_format
            | Some format => Ok format
            end ;;
  match (list_to_map format_options : gmap string string) !! format with
  | None => Err unknown_format
  | Some method =>
      if String.eqb method "from_json_file" then from_json_file fs path
      else from_hdf5 fs path
  end.
End Files.

(** ** ferraris_calibration.py *)

Definition FERRARIS_SECTIONS : list string :=
  ["x_p"; "x_a"; "y_p"; "y_a"; "z_p"; "z_a"; "x_rot"; "y_rot"; "z_rot"].

(* product(('acc', 'gyr'), FERRARIS_SECTIONS), formatted as '{}_{}' *)
Definition _fields : list string :=
  x ← ["acc"; "gyr"]; y ← FERRARIS_SECTIONS; [x +:+ "_" +:+ y].

(** The estimator: an attribute per entry of [_fields], each an [(n, 3)]
    array or [None], and the three physical constants. *)
Record FerrarisCalibration (A : Type) : Type := {
  acc_x_p : option (list (vec3 A));
  acc_x_a : option (list (vec3 A));
  acc_y_p : option (list (vec3 A));
  acc_y_a : option (list (vec3 A));
  acc_z_p : option (list (vec3 A));
  acc_z_a : option (list (vec3 A));
  gyr_x_p : option (list (vec3 A));
  gyr_x_a : option (list (vec3 A));
  gyr_y_p : option (list (vec3 A));
  gyr_y_a : option (list (vec3 A));
  gyr_z_p : option (list (vec3 A));
  gyr_z_a : option (list (vec3 A));
  acc_x_rot : option (list (vec3 A));
  acc_y_rot : option (list (vec3 A));
  acc_z_rot : option (list (vec3 A));
  gyr_x_rot : option (list (vec3 A));
  gyr_y_rot : option (list (vec3 A));
  gyr_z_rot : option (list (vec3 A));
  sampling_rate : A;
  grav : A;
  expected_angle : A;
}.
Arguments acc_x_p {A} f.
Arguments acc_x_a {A} f.
Arguments acc_y_p {A} f.
Arguments acc_y_a {A} f.
Arguments acc_z_p {A} f.
Arguments acc_z_a {A} f.
Arguments gyr_x_p {A} f.
Arguments gyr_x_a {A} f.
Arguments gyr_y_p {A} f.
Arguments gyr_y_a {A} f.
Arguments gyr_z_p {A} f.
Arguments gyr_z_a {A} f.
Arguments acc_x_rot {A} f.
Arguments acc_y_rot {A} f.
Arguments acc_z_rot {A} f.
Arguments gyr_x_rot {A} f.
Arguments gyr_y_rot {A} f.
Arguments gyr_z_rot {A} f.
Arguments sampling_rate {A} f.
Arguments grav {A} f.
Arguments expected_angle {A} f.

Section Ferraris.
Context {A : Type} `{Scalar A} `{Linalg A}.
Local Open Scope scalar_scope.

Definition EXPECTED_ANGLE : A := of_Z 360.
Definition DEFAULT_GRAV : A := of_Z 981 / of_Z 100.

(** [__init__]: every entry of [_fields] is taken from the keyword
    arguments, [None] when it is not given. *)
Definition __init__ (sampling_rate : A) (grav expected_angle : option A)
    (kwargs : gmap string (list (vec3 A))) : FerrarisCalibration A :=
  {| acc_x_p := kwargs !! "acc_x_p";
     acc_x_a := kwargs !! "acc_x_a";
     acc_y_p := kwargs !! "acc_y_p";
     acc_y_a := kwargs !! "acc_y_a";
     acc_z_p := kwargs !! "acc_z_p";
     acc_z_a := kwargs !! "acc_z_a";
     gyr_x_p := kwargs !! "gyr_x_p";
     gyr_x_a := kwargs !! "gyr_x_a";
     gyr_y_p := kwargs !! "gyr_y_p";
     gyr_y_a := kwargs !! "gyr_y_a";
     gyr_z_p := kwargs !! "gyr_z_p";
     gyr_z_a := kwargs !! "gyr_z_a";
     acc_x_rot := kwargs !! "acc_x_rot";
     acc_y_rot := kwargs !! "acc_y_rot";
     acc_z_rot := kwargs !! "acc_z_rot";
     gyr_x_rot := kwargs !! "gyr_x_rot";
     gyr_y_rot := kwargs !! "gyr_y_rot";
     gyr_z_rot := kwargs !! "gyr_z_rot";
     sampling_rate := sampling_rate;
     grav := float_or grav DEFAULT_GRAV;
     expected_angle := float_or expected_angle EXPECTED_ANGLE |}.

(** [np.mean(a, axis=0)]; on [None], a 0-d object, axis 0 is out of
    bounds. *)
Definition np_mean (a : option (list (vec3 A))) : result (vec3 A) :=
  match a with
  | Some seg => Ok (np_mean_rows seg)
  | None => Err AxisError
  end.

(** [np.vstack] of arrays of three columns. [None] counts as one row of
    one column: among arrays the shapes do not match, and a stack of
    [None] alone cannot be averaged. *)
Definition np_vstack (arrays : list (option (list (vec3 A)))) : result (list (vec3 A)) :=
  if forallb (λ a, bool_decide (is_Some a)) arrays then Ok (concat (default [] <$> arrays))
  else if forallb (λ a, bool_decide (a = None)) arrays then Err TypeError
  else Err shape_mismatch.

(** *** The forward transform of the record *)

Definition as_vector (v : pyval A) : result (vec3 A) :=
  match v with
  | PArr (Nd1 u) => Ok u
  | _ => Err TypeError
  end.
Definition as_matrix (v : pyval A) : result (mat3 A) :=
  match v with
  | PArr (Nd2 m) => Ok m
  | _ => Err TypeError
  end.

(** Modelled from the spec: [FerrarisCalibrationInfo.calibrate_acc] is
    not among the sources. Per sample,
    [true_acc = R_a^-1 . K_a^-1 . (acc_raw - b_a)]. *)
Definition calibrate_acc (self : obj A) (acc : option (list (vec3 A)))
  : result (list (vec3 A)) :=
  v <- getattr self "R_a" ;; R_a <- as_matrix v ;;
  v <- getattr self "K_a" ;; K_a <- as_matrix v ;;
  v <- getattr self "b_a" ;; b_a <- as_vector v ;;
  R_a_inv <- inv R_a ;;
  K_a_inv <- inv K_a ;;
  let acc_mat := matmul R_a_inv K_a_inv in
  match acc with
  | None => Err TypeError
  | Some acc => Ok ((λ s, matvec acc_mat (vsub s b_a)) <$> acc)
  end.

(** Modelled from the spec: [FerrarisCalibrationInfo._calibrate_gyro_offsets]
    is not among the sources. Sample by sample,
    [gyro_offset_free = gyro_raw - b_g - K_ga . acc_calibrated], for the
    calibrated acceleration of the same time window. *)
Definition _calibrate_gyro_offsets (self : obj A) (gyro : option (list (vec3 A)))
    (calibrated_acc : list (vec3 A)) : result (list (vec3 A)) :=
  v <- getattr self "b_g" ;; b_g <- as_vector v ;;
  v <- getattr self "K_ga" ;; K_ga <- as_matrix v ;;
  match gyro with
  | None => Err TypeError
  | Some gyro =>
      if bool_decide (length gyro = length calibrated_acc)
      then Ok (zip_with (λ g a, vsub (vsub g b_g) (matvec K_ga a)) gyro calibrated_acc)
      else Err shape_mismatch
  end.

(** *** The estimation *)

(** [compute_calibration_matrix], statement by statement. [cal_mat] is the
    record under construction; [self.grav ** 2] is the product of the
    gravity with itself, and the Python division [1 / (4 * self.grav ** 2)]
    is the one operation on scalars that can raise. *)
Definition compute_calibration_matrix (self : FerrarisCalibration A) : result (obj A) :=
  cal_mat <- construct FerrarisCalibrationInfo ∅ ;;
  (* Compute Acceleration Matrix *)
  m_x <- np_mean (acc_x_p self) ;;
  m_y <- np_mean (acc_y_p self) ;;
  m_z <- np_mean (acc_z_p self) ;;
  let U_a_p := transpose (np_vstack3 m_x m_y m_z) in
  m_x <- np_mean (acc_x_a self) ;;
  m_y <- np_mean (acc_y_a self) ;;
  m_z <- np_mean (acc_z_a self) ;;
  let U_a_n := transpose (np_vstack3 m_x m_y m_z) in
  (* Eq. 19, 20 *)
  let U_a_s := madd U_a_p U_a_n in
  let B_a := mdivs U_a_s (of_Z 2) in
  let b_a := np_diag B_a in
  let cal_mat := setattr cal_mat "b_a" (PArr (Nd1 b_a)) in
  (* Eq. 21 *)
  let U_a_d := msub U_a_p U_a_n in
  (* Eq. 23 *)
  c <- py_div (of_Z 1) (of_Z 4 * (grav self * grav self)) ;;
  let k_a_sq := smulv c (np_diag (matmul U_a_d (transpose U_a_d))) in
  let K_a := np_diag_matrix (np_sqrt k_a_sq) in
  let cal_mat := setattr cal_mat "K_a" (PArr (Nd2 K_a)) in
  (* Eq. 22 *)
  K_a_inv <- inv K_a ;;
  let R_a := mdivs (matmul K_a_inv U_a_d) (of_Z 2 * grav self) in
  let cal_mat := setattr cal_mat "R_a" (PArr (Nd2 R_a)) in
  (* Calculate Gyroscope Matrix *)
  stacked <- np_vstack [gyr_x_p self; gyr_x_a self; gyr_y_p self;
                        gyr_y_a self; gyr_z_p self; gyr_z_a self] ;;
  let b_g := np_mean_rows stacked in
  let cal_mat := setattr cal_mat "b_g" (PArr (Nd1 b_g)) in
  m_x <- np_mean (gyr_x_p self) ;;
  m_y <- np_mean (gyr_y_p self) ;;
  m_z <- np_mean (gyr_z_p self) ;;
  let U_g_p := transpose (np_vstack3 m_x m_y m_z) in
  m_x <- np_mean (gyr_x_a self) ;;
  m_y <- np_mean (gyr_y_a self) ;;
  m_z <- np_mean (gyr_z_a self) ;;
  let U_g_a := transpose (np_vstack3 m_x m_y m_z) in
  (* Eq. 9 *)
  let K_ga := mdivs (msub U_g_p U_g_a) (of_Z 2 * grav self) in
  let cal_mat := setattr cal_mat "K_ga" (PArr (Nd2 K_ga)) in
  (* First apply partial calibration to remove offset and acc influence *)
  acc_x_rot_cor <- calibrate_acc cal_mat (acc_x_rot self) ;;
  acc_y_rot_cor <- calibrate_acc cal_mat (acc_y_rot self) ;;
  acc_z_rot_cor <- calibrate_acc cal_mat (acc_z_rot self) ;;
  gyr_x_rot_cor <- _calibrate_gyro_offsets cal_mat (gyr_x_rot self) acc_x_rot_cor ;;
  gyr_y_rot_cor <- _calibrate_gyro_offsets cal_mat (gyr_y_rot self) acc_y_rot_cor ;;
  gyr_z_rot_cor <- _calibrate_gyro_offsets cal_mat (gyr_z_rot self) acc_z_rot_cor ;;
  (* Integrate gyro readings, Eq. 13/14 *)
  let W_s := np_zeros in
  let W_s := set_col0 W_s (vdivs (np_sum gyr_x_rot_cor) (sampling_rate self)) in
  let W_s := set_col1 W_s (vdivs (np_sum gyr_y_rot_cor) (sampling_rate self)) in
  let W_s := set_col2 W_s (vdivs (np_sum gyr_z_rot_cor) (sampling_rate self)) in
  (* Eq. 15 *)
  let expected_angles := smulm (expected_angle self) np_identity in
  expected_angles_inv <- inv expected_angles ;;
  let multiplied := matmul W_s expected_angles_inv in
  (* Eq. 12 *)
  let k_g_sq := np_diag (matmul multiplied (transpose multiplied)) in
  let K_g := np_diag_matrix (np_sqrt k_g_sq) in
  let cal_mat := setattr cal_mat "K_g" (PArr (Nd2 K_g)) in
  K_g_inv <- inv K_g ;;
  let R_g := matmul K_g_inv multiplied in
  let cal_mat := setattr cal_mat "R_g" (PArr (Nd2 R_g)) in
  Ok cal_mat.
End Ferraris.

(** ** The class hierarchy *)

(** Induction over a class and the classes below it. *)
Section pyclass_induction.
Variable P : pyclass → Prop.
Hypothesis step : ∀ n t fs ps subs, Forall P subs → P (PyClass n t fs ps subs).

Fixpoint pyclass_ind' (c : pyclass) : P c :=
  match c with
  | PyClass n t fs ps subs =>
      step n t fs ps subs
        ((fix go (l : list pyclass) : Forall P l :=
            match l with
            | [] => @List.Forall_nil _ P
            | x :: l' => @List.Forall_cons _ P x l' (pyclass_ind' x) (go l')
            end) subs)
  end.
End pyclass_induction.

(** [descends c p]: [c] is a child of [p], or descends from a child of
    [p]. *)
Inductive descends : pyclass → pyclass → Prop :=
| descends_child c p : c ∈ cls_subclasses p → descends c p
| descends_deeper c q p : descends c q → q ∈ cls_subclasses p → descends c p.

(** A hierarchy two levels deep: a turntable calibration derived from the
    Ferraris one. *)
Definition TurntableCalibrationInfo : pyclass :=
  {| cls_name := "TurntableCalibrationInfo";
     cls_CAL_TYPE := Some "Turntable";
     cls_fields := cls_fields FerrarisCalibrationInfo;
     cls_cal_paras := cls_cal_paras FerrarisCalibrationInfo;
     cls_subclasses := [] |}.

Definition FerrarisWithTurntable : pyclass :=
  {| cls_name := "FerrarisCalibrationInfo";
     cls_CAL_TYPE := Some "Ferraris";
     cls_fields := cls_fields FerrarisCalibrationInfo;
     cls_cal_paras := cls_cal_paras FerrarisCalibrationInfo;
     cls_subclasses := [TurntableCalibrationInfo] |}.

(** ** Records and their values *)

Section RecordEquality.
Context {A : Type} `{Scalar A}.

Definition vec_elements (v : vec3 A) : list A := [vx v; vy v; vz v].
Definition mat_elements (m : mat3 A) : list A :=
  vec_elements (row0 m) ++ vec_elements (row1 m) ++ vec_elements (row2 m).

(** Two sequences of numbers are equal element by element under [==]. *)
Definition elementwise_equal (xs ys : list A) : Prop :=
  Forall2 (λ x y, feqb x y = true) xs ys.

(** When two field values count as equal: equal strings, arrays of one
    shape with pairwise equal elements, or two unset values ([None], or
    the array [np.array(None)] an unset parameter is read back as). *)
Definition same_value (a1 a2 : pyval A) : Prop :=
  match a1, a2 with
  | PStr s, PStr t => s = t
  | PArr (Nd1 u), PArr (Nd1 v) => elementwise_equal (vec_elements u) (vec_elements v)
  | PArr (Nd2 a), PArr (Nd2 b) => elementwise_equal (mat_elements a) (mat_elements b)
  | (PNone | PArr Nd0None), (PNone | PArr Nd0None) => True
  | _, _ => False
  end.

Definition comparison_error (self : obj A) : exn :=
  ValueError ("Comparison is only defined between two "
                +:+ cls_name (obj_class self) +:+ " object!").

End RecordEquality.

(** The values of a Ferraris record: five optional strings and the seven
    parameter arrays. *)
Record ferraris_values (A : Type) : Type := {
  fv_acc_unit : option string;
  fv_gyr_unit : option string;
  fv_from_acc_unit : option string;
  fv_from_gyr_unit : option string;
  fv_comment : option string;
  fv_b_a : vec3 A;
  fv_K_a : mat3 A;
  fv_R_a : mat3 A;
  fv_b_g : vec3 A;
  fv_K_g : mat3 A;
  fv_R_g : mat3 A;
  fv_K_ga : mat3 A;
}.
Arguments fv_acc_unit {A} f.
Arguments fv_gyr_unit {A} f.
Arguments fv_from_acc_unit {A} f.
Arguments fv_from_gyr_unit {A} f.
Arguments fv_comment {A} f.
Arguments fv_b_a {A} f.
Arguments fv_K_a {A} f.
Arguments fv_R_a {A} f.
Arguments fv_b_g {A} f.
Arguments fv_K_g {A} f.
Arguments fv_R_g {A} f.
Arguments fv_K_ga {A} f.

Definition optional_str {A : Type} (s : option string) : pyval A :=
  match s with
  | Some s => PStr s
  | None => PNone
  end.

(** The keyword arguments that set every field, and the record the class
    makes of them. *)
Definition ferraris_kwargs {A : Type} (v : ferraris_values A) : gmap string (pyval A) :=
  list_to_map
    [("acc_unit", optional_str (fv_acc_unit v));
     ("gyr_unit", optional_str (fv_gyr_unit v));
     ("from_acc_unit", optional_str (fv_from_acc_unit v));
     ("from_gyr_unit", optional_str (fv_from_gyr_unit v));
     ("comment", optional_str (fv_comment v));
     ("b_a", PArr (Nd1 (fv_b_a v)));
     ("K_a", PArr (Nd2 (fv_K_a v)));
     ("R_a", PArr (Nd2 (fv_R_a v)));
     ("b_g", PArr (Nd1 (fv_b_g v)));
     ("K_g", PArr (Nd2 (fv_K_g v)));
     ("R_g", PArr (Nd2 (fv_R_g v)));
     ("K_ga", PArr (Nd2 (fv_K_ga v)))].

Definition ferraris_record {A : Type} (v : ferraris_values A) : obj A :=
  Obj FerrarisCalibrationInfo (ferraris_kwargs v).

(** The record before the estimation sets its parameters. *)
Definition blank_record {A : Type} : obj A :=
  Obj FerrarisCalibrationInfo
      (list_to_map ((λ f, (field_name f, PNone)) <$> cls_fields FerrarisCalibrationInfo)).

(** A record of the base class, every field unset. *)
Definition base_record : obj float :=
  Obj (CalibrationInfo [FerrarisCalibrationInfo])
      (list_to_map ((λ f, (field_name f, PNone)) <$> base_fields)).

(** The identity calibration. *)
Definition identity_values : ferraris_values float :=
  {| fv_acc_unit := Some "m/s^2"; fv_gyr_unit := Some "deg/s";
     fv_from_acc_unit := None; fv_from_gyr_unit := None;
     fv_comment := None;
     fv_b_a := V3 0 0 0; fv_K_a := np_identity; fv_R_a := np_identity;
     fv_b_g := V3 0 0 0; fv_K_g := np_identity; fv_R_g := np_identity;
     fv_K_ga := np_zeros |}%float.

(** A record whose accelerometer scale is NaN, as the estimation returns
    for an empty static segment. *)
Definition nan_values : ferraris_values float :=
  {| fv_acc_unit := None; fv_gyr_unit := None;
     fv_from_acc_unit := None; fv_from_gyr_unit := None;
     fv_comment := None;
     fv_b_a := V3 0 0 0; fv_K_a := np_diag_matrix (V3 nan nan nan);
     fv_R_a := np_identity;
     fv_b_g := V3 0 0 0; fv_K_g := np_identity; fv_R_g := np_identity;
     fv_K_ga := np_zeros |}%float.

(** The numbers of a record, and the records free of NaN: every number is
    equal to itself. *)
Definition record_numbers {A : Type} (v : ferraris_values A) : list A :=
  vec_elements (fv_b_a v) ++ mat_elements (fv_K_a v) ++ mat_elements (fv_R_a v) ++
  vec_elements (fv_b_g v) ++ mat_elements (fv_K_g v) ++ mat_elements (fv_R_g v) ++
  mat_elements (fv_K_ga v).

Definition no_nan {A : Type} `{Scalar A} (v : ferraris_values A) : Prop :=
  Forall (λ x, feqb x x = true) (record_numbers v).

(** The JSON document of a Ferraris record. *)
Definition ferraris_document {A : Type} (v : ferraris_values A) : gmap string (json A) :=
  NumpyEncoder <$> <["cal_type" := PStr "Ferraris"]> (ferraris_kwargs v).

(** What [to_hdf5] keeps of an optional string: the empty string is falsy
    and is not written. *)
Definition written_str (s : option string) : option string :=
  match s with
  | Some EmptyString => None
  | _ => s
  end.

Definition written_values {A : Type} (v : ferraris_values A) : ferraris_values A :=
  {| fv_acc_unit := written_str (fv_acc_unit v);
     fv_gyr_unit := written_str (fv_gyr_unit v);
     fv_from_acc_unit := written_str (fv_from_acc_unit v);
     fv_from_gyr_unit := written_str (fv_from_gyr_unit v);
     fv_comment := written_str (fv_comment v);
     fv_b_a := fv_b_a v; fv_K_a := fv_K_a v; fv_R_a := fv_R_a v;
     fv_b_g := fv_b_g v; fv_K_g := fv_K_g v; fv_R_g := fv_R_g v;
     fv_K_ga := fv_K_ga v |}.

(** The content of the HDF5 file of a Ferraris record: a dataset per
    array, a scalar per string that is set and not empty, and the tag. *)
Definition ferraris_hdf5 {A : Type} (v : ferraris_values A) : gmap string (json A) :=
  let scalar (name : string) (s : option string) : list (string * json A) :=
    match written_str s with
    | Some s => [(name, JStr s)]
    | None => []
    end in
  list_to_map
    (scalar "acc_unit" (fv_acc_unit v) ++ scalar "gyr_unit" (fv_gyr_unit v) ++
     scalar "from_acc_unit" (fv_from_acc_unit v) ++
     scalar "from_gyr_unit" (fv_from_gyr_unit v) ++
     scalar "comment" (fv_comment v) ++
     [("b_a", tolist (Nd1 (fv_b_a v))); ("K_a", tolist (Nd2 (fv_K_a v)));
      ("R_a", tolist (Nd2 (fv_R_a v))); ("b_g", tolist (Nd1 (fv_b_g v)));
      ("K_g", tolist (Nd2 (fv_K_g v))); ("R_g", tolist (Nd2 (fv_R_g v)));
      ("K_ga", tolist (Nd2 (fv_K_ga v))); ("cal_type", JStr "Ferraris")]).

(** No optional string of the record is the empty string. *)
Definition keeps_strings {A : Type} (v : ferraris_values A) : bool :=
  forallb (λ u, bool_decide (written_str u = u))
    [fv_acc_unit v; fv_gyr_unit v; fv_from_acc_unit v; fv_from_gyr_unit v; fv_comment v].

(** ** The formulas of the Ferraris procedure

    The parameters as the procedure defines them, from the estimator's
    segments and constants. *)

(** The attributes of an estimator, in the order of [_fields]. *)
Definition segments {A : Type} (self : FerrarisCalibration A)
  : list (option (list (vec3 A))) :=
  [acc_x_p self; acc_x_a self; acc_y_p self; acc_y_a self; acc_z_p self; acc_z_a self;
   acc_x_rot self; acc_y_rot self; acc_z_rot self;
   gyr_x_p self; gyr_x_a self; gyr_y_p self; gyr_y_a self; gyr_z_p self; gyr_z_a self;
   gyr_x_rot self; gyr_y_rot self; gyr_z_rot self].

Section Formulas.
Context {A : Type} `{Scalar A}.
Variable self : FerrarisCalibration A.
Local Open Scope scalar_scope.

Definition samples (a : option (list (vec3 A))) : list (vec3 A) := default [] a.

Definition segment_mean (a : option (list (vec3 A))) : vec3 A :=
  np_mean_rows (samples a).

(** The matrix of three columns. *)
Definition columns (c0 c1 c2 : vec3 A) : mat3 A :=
  M3 (V3 (vx c0) (vx c1) (vx c2))
     (V3 (vy c0) (vy c1) (vy c2))
     (V3 (vz c0) (vz c1) (vz c2)).

(** The inverse of a matrix, by its adjugate and its determinant. *)
Definition inverse (m : mat3 A) : mat3 A := mdivs (adjugate m) (det m).

(* accelerometer *)
Definition U_p : mat3 A :=
  columns (segment_mean (acc_x_p self)) (segment_mean (acc_y_p self))
          (segment_mean (acc_z_p self)).
Definition U_n : mat3 A :=
  columns (segment_mean (acc_x_a self)) (segment_mean (acc_y_a self))
          (segment_mean (acc_z_a self)).
Definition formula_b_a : vec3 A := np_diag (mdivs (madd U_p U_n) (of_Z 2)).
Definition D : mat3 A := msub U_p U_n.
Definition formula_K_a : mat3 A :=
  np_diag_matrix
    (np_sqrt (np_diag (mdivs (matmul D (transpose D))
                             (of_Z 4 * (grav self * grav self))))).
Definition formula_R_a : mat3 A :=
  matmul (inverse formula_K_a) (mdivs D (of_Z 2 * grav self)).

(* gyroscope bias and sensitivity to acceleration *)
Definition formula_b_g : vec3 A :=
  np_mean_rows (samples (gyr_x_p self) ++ samples (gyr_x_a self) ++
                samples (gyr_y_p self) ++ samples (gyr_y_a self) ++
                samples (gyr_z_p self) ++ samples (gyr_z_a self)).
Definition U_g_p : mat3 A :=
  columns (segment_mean (gyr_x_p self)) (segment_mean (gyr_y_p self))
          (segment_mean (gyr_z_p self)).
Definition U_g_a : mat3 A :=
  columns (segment_mean (gyr_x_a self)) (segment_mean (gyr_y_a self))
          (segment_mean (gyr_z_a self)).
Definition formula_K_ga : mat3 A := mdivs (msub U_g_p U_g_a) (of_Z 2 * grav self).

(* gyroscope scale and rotation, in the order of the procedure *)
Definition acc_calibrated (acc : option (list (vec3 A))) : list (vec3 A) :=
  (λ acc_raw, matvec (inverse formula_R_a)
                (matvec (inverse formula_K_a) (vsub acc_raw formula_b_a)))
    <$> samples acc.
Definition gyro_offset_free (gyro acc : option (list (vec3 A))) : list (vec3 A) :=
  zip_with (λ gyro_raw acc_cal,
              vsub (vsub gyro_raw formula_b_g) (matvec formula_K_ga acc_cal))
           (samples gyro) (acc_calibrated acc).
Definition integrated (gyro acc : option (list (vec3 A))) : vec3 A :=
  vdivs (np_sum (gyro_offset_free gyro acc)) (sampling_rate self).
Definition W : mat3 A :=
  columns (integrated (gyr_x_rot self) (acc_x_rot self))
          (integrated (gyr_y_rot self) (acc_y_rot self))
          (integrated (gyr_z_rot self) (acc_z_rot self)).
Definition expected_angle_matrix : mat3 A := smulm (expected_angle self) np_identity.
Definition M : mat3 A := matmul W (inverse expected_angle_matrix).
Definition formula_K_g : mat3 A :=
  np_diag_matrix (np_sqrt (np_diag (matmul M (transpose M)))).
Definition formula_R_g : mat3 A := matmul (inverse formula_K_g) M.

Definition formula_values : ferraris_values A :=
  {| fv_acc_unit := None; fv_gyr_unit := None;
     fv_from_acc_unit := None; fv_from_gyr_unit := None; fv_comment := None;
     fv_b_a := formula_b_a; fv_K_a := formula_K_a; fv_R_a := formula_R_a;
     fv_b_g := formula_b_g; fv_K_g := formula_K_g; fv_R_g := formula_R_g;
     fv_K_ga := formula_K_ga |}.

(** What the estimation comes to: the four matrices that are inverted
    must not be singular, and the gravity must not be zero. *)
Definition outcome : result (ferraris_values A) :=
  if of_Z 4 * (grav self * grav self) == of_Z 0 then Err ZeroDivisionError
  else if det formula_K_a == of_Z 0 then Err LinAlgError
  else if det formula_R_a == of_Z 0 then Err LinAlgError
  else if det expected_angle_matrix == of_Z 0 then Err LinAlgError
  else if det formula_K_g == of_Z 0 then Err LinAlgError
  else Ok formula_values.

(** Every segment is there, and the two arrays of a rotation have the
    same number of samples. *)
Definition well_formed : Prop :=
  Forall is_Some (segments self) ∧
  length (samples (gyr_x_rot self)) = length (samples (acc_x_rot self)) ∧
  length (samples (gyr_y_rot self)) = length (samples (acc_y_rot self)) ∧
  length (samples (gyr_z_rot self)) = length (samples (acc_z_rot self)).
End Formulas.

(** The gravity is not zero and none of the four matrices the estimation
    inverts is singular. *)
Definition regular (self : FerrarisCalibration R) : Prop :=
  grav self ≠ 0%R ∧ det (formula_K_a self) ≠ 0%R ∧ det (formula_R_a self) ≠ 0%R ∧
  expected_angle self ≠ 0%R ∧ det (formula_K_g self) ≠ 0%R.

(** [X] is the inverse of [m]. *)
Definition inverse_of {A : Type} `{Scalar A} (m X : mat3 A) : Prop :=
  matmul X m = np_identity ∧ matmul m X = np_identity.

(** The scale factors of the two sensors: the diagonals of [K_a] and
    [K_g]. *)
Definition acc_scale (self : FerrarisCalibration R) : vec3 R := np_diag (formula_K_a self).
Definition gyro_scale (self : FerrarisCalibration R) : vec3 R := np_diag (formula_K_g self).

Definition has_zero (v : vec3 R) : Prop := vx v = 0%R ∨ vy v = 0%R ∨ vz v = 0%R.

(** ** Worked inputs *)

(** The end-to-end example of the calibration on floats: static segments
    of two samples reading plus or minus the gravity on one axis, a gyroscope
    at rest, and rotations of 360 degrees in two samples at 100 Hz. *)
Definition example_kwargs : gmap string (list (vec3 float)) :=
  let g := DEFAULT_GRAV in
  list_to_map
    [("acc_x_p", replicate 2 (V3 g 0 0)); ("acc_x_a", replicate 2 (V3 (- g) 0 0));
     ("acc_y_p", replicate 2 (V3 0 g 0)); ("acc_y_a", replicate 2 (V3 0 (- g) 0));
     ("acc_z_p", replicate 2 (V3 0 0 g)); ("acc_z_a", replicate 2 (V3 0 0 (- g)));
     ("gyr_x_p", replicate 2 (V3 0 0 0)); ("gyr_x_a", replicate 2 (V3 0 0 0));
     ("gyr_y_p", replicate 2 (V3 0 0 0)); ("gyr_y_a", replicate 2 (V3 0 0 0));
     ("gyr_z_p", replicate 2 (V3 0 0 0)); ("gyr_z_a", replicate 2 (V3 0 0 0));
     ("acc_x_rot", replicate 2 (V3 0 0 g)); ("acc_y_rot", replicate 2 (V3 0 0 g));
     ("acc_z_rot", replicate 2 (V3 0 0 g));
     ("gyr_x_rot", replicate 2 (V3 18000 0 0)); ("gyr_y_rot", replicate 2 (V3 0 18000 0));
     ("gyr_z_rot", replicate 2 (V3 0 0 18000))]%float.

(** The estimator of the example. *)
Definition example_float : FerrarisCalibration float :=
  __init__ 100%float None None example_kwargs.

(** The segments of one sample an ideal sensor gives where the gravity
    is [g], with rotations of 360 degrees within one sample at 100 Hz. *)
Definition ideal_kwargs (g : float) : gmap string (list (vec3 float)) :=
  list_to_map
    [("acc_x_p", [V3 g 0 0]); ("acc_x_a", [V3 (- g) 0 0]);
     ("acc_y_p", [V3 0 g 0]); ("acc_y_a", [V3 0 (- g) 0]);
     ("acc_z_p", [V3 0 0 g]); ("acc_z_a", [V3 0 0 (- g)]);
     ("gyr_x_p", [V3 0 0 0]); ("gyr_x_a", [V3 0 0 0]);
     ("gyr_y_p", [V3 0 0 0]); ("gyr_y_a", [V3 0 0 0]);
     ("gyr_z_p", [V3 0 0 0]); ("gyr_z_a", [V3 0 0 0]);
     ("acc_x_rot", [V3 0 0 g]); ("acc_y_rot", [V3 0 0 g]); ("acc_z_rot", [V3 0 0 g]);
     ("gyr_x_rot", [V3 36000 0 0]); ("gyr_y_rot", [V3 0 36000 0]);
     ("gyr_z_rot", [V3 0 0 36000])]%float.

(** The same example over the reals, with segments of one sample. *)
Definition example_real : FerrarisCalibration R :=
  let g := (981 / 100)%R in
  {| acc_x_p := Some [V3 g 0 0]; acc_x_a := Some [V3 (- g) 0 0];
     acc_y_p := Some [V3 0 g 0]; acc_y_a := Some [V3 0 (- g) 0];
     acc_z_p := Some [V3 0 0 g]; acc_z_a := Some [V3 0 0 (- g)];
     gyr_x_p := Some [V3 0 0 0]; gyr_x_a := Some [V3 0 0 0];
     gyr_y_p := Some [V3 0 0 0]; gyr_y_a := Some [V3 0 0 0];
     gyr_z_p := Some [V3 0 0 0]; gyr_z_a := Some [V3 0 0 0];
     acc_x_rot := Some [V3 0 0 g]; acc_y_rot := Some [V3 0 0 g];
     acc_z_rot := Some [V3 0 0 g];
     gyr_x_rot := Some [V3 36000 0 0]; gyr_y_rot := Some [V3 0 36000 0];
     gyr_z_rot := Some [V3 0 0 36000];
     sampling_rate := 100; grav := g; expected_angle := 360 |}%R.

(** The example with the expected angle set to zero after construction. *)
Definition example_zero_angle : FerrarisCalibration R :=
  {| acc_x_p := acc_x_p example_real; acc_x_a := acc_x_a example_real;
     acc_y_p := acc_y_p example_real; acc_y_a := acc_y_a example_real;
     acc_z_p := acc_z_p example_real; acc_z_a := acc_z_a example_real;
     gyr_x_p := gyr_x_p example_real; gyr_x_a := gyr_x_a example_real;
     gyr_y_p := gyr_y_p example_real; gyr_y_a := gyr_y_a example_real;
     gyr_z_p := gyr_z_p example_real; gyr_z_a := gyr_z_a example_real;
     acc_x_rot := acc_x_rot example_real; acc_y_rot := acc_y_rot example_real;
     acc_z_rot := acc_z_rot example_real;
     gyr_x_rot := gyr_x_rot example_real; gyr_y_rot := gyr_y_rot example_real;
     gyr_z_rot := gyr_z_rot example_real;
     sampling_rate := 100%R; grav := (981 / 100)%R; expected_angle := 0%R |}.

(** ** Further classes *)

(** A subclass that is itself abstract: it does not define [CAL_TYPE]. *)
Definition AbstractCalibrationInfo : pyclass :=
  {| cls_name := "AbstractCalibrationInfo";
     cls_CAL_TYPE := None;
     cls_fields := base_fields;
     cls_cal_paras := None;
     cls_subclasses := [] |}.

(** A subclass of the Ferraris record that does not override [CAL_TYPE]:
    attribute lookup gives it the tag of its parent. *)
Definition FerrarisVariant : pyclass :=
  {| cls_name := "FerrarisVariant";
     cls_CAL_TYPE := Some "Ferraris";
     cls_fields := cls_fields FerrarisCalibrationInfo;
     cls_cal_paras := cls_cal_paras FerrarisCalibrationInfo;
     cls_subclasses := [] |}.

Definition FerrarisWithVariant : pyclass :=
  {| cls_name := "FerrarisCalibrationInfo";
     cls_CAL_TYPE := Some "Ferraris";
     cls_fields := cls_fields FerrarisCalibrationInfo;
     cls_cal_paras := cls_cal_paras FerrarisCalibrationInfo;
     cls_subclasses := [FerrarisVariant] |}.

(** ** Records of any class *)

(** The names of the dataclass fields of a class. *)
Definition field_names (cls : pyclass) : list string := field_name <$> cls_fields cls.

(** An instance as the generated constructor leaves it: an attribute for
    every field of its class, and no other attribute. *)
Definition is_record {A : Type} (o : obj A) : Prop :=
  ∀ k, is_Some (obj_attrs o !! k) ↔ k ∈ field_names (obj_class o).

(** The array the loop of [_from_list_dict] makes of the entry of a
    document. *)
Definition array_of {A : Type} (list_dict : gmap string (json A)) (k : string)
  : option (pyval A) :=
  j ← list_dict !! k; match np_array j with Ok a => Some (PArr a) | Err _ => None end.

(** What [to_hdf5] writes for a field: a dataset for a parameter, a scalar
    for a string that is not empty, nothing otherwise. *)
Definition hdf5_entry {A : Type} (ps : list string) (k : string) (v : pyval A)
  : option (json A) :=
  if decide (k ∈ ps) then
    match v with PArr a => Some (tolist a) | _ => None end
  else
    match v with
    | PStr s => if String.eqb s EmptyString then None else Some (JStr s)
    | _ => None
    end.

(** The values [to_hdf5] can write: an array of numbers for a parameter,
    a string or nothing for another field. *)
Definition hdf5_writable {A : Type} (ps : list string) (k : string) (v : pyval A) : Prop :=
  if decide (k ∈ ps) then ∃ a, v = PArr a ∧ a ≠ Nd0None
  else v = PNone ∨ ∃ s, v = PStr s.

(** What [from_hdf5] reads for a field of the class. *)
Definition hdf5_reads {A : Type} (ps : list string) (hdf : gmap string (json A))
    (k : string) (v : pyval A) : Prop :=
  if decide (k ∈ ps) then
    ∃ a, np_array (default JNull (hdf !! k)) = Ok a ∧ v = PArr a
  else
    match hdf !! k with
    | Some d => dataset_value d = Ok v
    | None => v = PNone
    end.

(** What is left of an attribute after [to_hdf5] and [from_hdf5]: an empty
    string is not written and is read as [None]. *)
Definition hdf5_read_back {A : Type} (v : pyval A) : pyval A :=
  match v with
  | PStr EmptyString => PNone
  | _ => v
  end.

(** The identity calibration without units, as the estimation returns it. *)
Definition bare_identity_values : ferraris_values float :=
  {| fv_acc_unit := None; fv_gyr_unit := None;
     fv_from_acc_unit := None; fv_from_gyr_unit := None;
     fv_comment := None;
     fv_b_a := V3 0 0 0; fv_K_a := np_identity; fv_R_a := np_identity;
     fv_b_g := V3 0 0 0; fv_K_g := np_identity; fv_R_g := np_identity;
     fv_K_ga := np_zeros |}%float.

(** The same over the reals. *)
Definition real_identity_values : ferraris_values R :=
  {| fv_acc_unit := None; fv_gyr_unit := None; fv_from_acc_unit := None;
     fv_from_gyr_unit := None; fv_comment := None;
     fv_b_a := V3 0 0 0; fv_K_a := np_identity; fv_R_a := np_identity;
     fv_b_g := V3 0 0 0; fv_K_g := np_identity; fv_R_g := np_identity;
     fv_K_ga := np_zeros |}%R.

(** ** The sensor behind the segments *)

(** The squared lengths of the rows of a matrix: the diagonal of
    [m m^T]. *)
Definition row_norms {A : Type} `{Scalar A} (m : mat3 A) : vec3 A :=
  np_diag (matmul m (transpose m)).

(** The reading of a sensor with bias [b], scale factors [k] and rotation
    [R] for the true value [x]: [K R x + b], which the forward transform
    [R^-1 K^-1 (raw - b)] of the record inverts. *)
Definition sensor_reading {A : Type} `{Scalar A}
    (b k : vec3 A) (R : mat3 A) (x : vec3 A) : vec3 A :=
  vadd (matvec (matmul (np_diag_matrix k) R) x) b.

(** The static segments of the accelerometer show a sensor with bias [b],
    scale factors [k] and rotation [R] at rest: the mean of a segment is
    the sensor's reading of the gravity along, or against, one axis. *)
Definition static_accelerations (self : FerrarisCalibration R)
    (b k : vec3 R) (R0 : mat3 R) : Prop :=
  let g := grav self in
  segment_mean (acc_x_p self) = sensor_reading b k R0 (V3 g 0 0)%R ∧
  segment_mean (acc_x_a self) = sensor_reading b k R0 (V3 (- g) 0 0)%R ∧
  segment_mean (acc_y_p self) = sensor_reading b k R0 (V3 0 g 0)%R ∧
  segment_mean (acc_y_a self) = sensor_reading b k R0 (V3 0 (- g) 0)%R ∧
  segment_mean (acc_z_p self) = sensor_reading b k R0 (V3 0 0 g)%R ∧
  segment_mean (acc_z_a self) = sensor_reading b k R0 (V3 0 0 (- g))%R.

(** The static segments of the gyroscope show a sensor at rest with bias
    [b] and sensitivity [K] to acceleration: the mean of a segment is the
    bias and what the gravity along, or against, one axis adds to it. *)
Definition static_rotations (self : FerrarisCalibration R)
    (b : vec3 R) (K : mat3 R) : Prop :=
  let g := grav self in
  segment_mean (gyr_x_p self) = vadd b (matvec K (V3 g 0 0))%R ∧
  segment_mean (gyr_x_a self) = vadd b (matvec K (V3 (- g) 0 0))%R ∧
  segment_mean (gyr_y_p self) = vadd b (matvec K (V3 0 g 0))%R ∧
  segment_mean (gyr_y_a self) = vadd b (matvec K (V3 0 (- g) 0))%R ∧
  segment_mean (gyr_z_p self) = vadd b (matvec K (V3 0 0 g))%R ∧
  segment_mean (gyr_z_a self) = vadd b (matvec K (V3 0 0 (- g)))%R.

(** The six static segments of the gyroscope, in the order in which the
    estimation stacks them. *)
Definition static_gyroscope {A : Type} (self : FerrarisCalibration A)
  : list (option (list (vec3 A))) :=
  [gyr_x_p self; gyr_x_a self; gyr_y_p self; gyr_y_a self; gyr_z_p self; gyr_z_a self].

(** A sensor of the model the Ferraris procedure assumes: the
    accelerometer reads [K_a R_a a + b_a] for the true acceleration [a], the
    gyroscope [K_g R_g w + b_g + K_ga a] for the true angular rate [w]. The
    scale matrices are given by their diagonals. *)
Record sensor : Type := {
  sensor_b_a : vec3 R;
  sensor_k_a : vec3 R;
  sensor_R_a : mat3 R;
  sensor_b_g : vec3 R;
  sensor_k_g : vec3 R;
  sensor_R_g : mat3 R;
  sensor_K_ga : mat3 R;
}.

Definition acc_reading (s : sensor) (a : vec3 R) : vec3 R :=
  sensor_reading (sensor_b_a s) (sensor_k_a s) (sensor_R_a s) a.
Definition gyr_reading (s : sensor) (w a : vec3 R) : vec3 R :=
  vadd (sensor_reading (sensor_b_g s) (sensor_k_g s) (sensor_R_g s) w)
       (matvec (sensor_K_ga s) a).

(** The record that describes a sensor. *)
Definition sensor_values (s : sensor) : ferraris_values R :=
  {| fv_acc_unit := None; fv_gyr_unit := None;
     fv_from_acc_unit := None; fv_from_gyr_unit := None; fv_comment := None;
     fv_b_a := sensor_b_a s; fv_K_a := np_diag_matrix (sensor_k_a s);
     fv_R_a := sensor_R_a s;
     fv_b_g := sensor_b_g s; fv_K_g := np_diag_matrix (sensor_k_g s);
     fv_R_g := sensor_R_g s;
     fv_K_ga := sensor_K_ga s |}.

(** Positive scale factors, rotations with rows of length one, and an
    accelerometer rotation that can be inverted. *)
Definition well_conditioned (s : sensor) : Prop :=
  (0 < vx (sensor_k_a s) ∧ 0 < vy (sensor_k_a s) ∧ 0 < vz (sensor_k_a s))%R ∧
  (0 < vx (sensor_k_g s) ∧ 0 < vy (sensor_k_g s) ∧ 0 < vz (sensor_k_g s))%R ∧
  row_norms (sensor_R_a s) = (V3 1 1 1)%R ∧
  row_norms (sensor_R_g s) = (V3 1 1 1)%R ∧
  det (sensor_R_a s) ≠ 0%R.

(** The two segments of a rotation about [axis] as the sensor shows
    it: sample by sample a true acceleration and an angular rate about the
    axis, the rates adding up, over the sampling rate, to the angle. *)
Definition rotation_about (s : sensor) (axis : vec3 R)
    (acc gyr : option (list (vec3 R))) (sampling_rate angle : R) : Prop :=
  ∃ motion : list (vec3 R * R),
    acc = Some ((λ m, acc_reading s m.1) <$> motion) ∧
    gyr = Some ((λ m, gyr_reading s (smulv m.2 axis) m.1) <$> motion) ∧
    (foldr Rplus 0 (snd <$> motion) / sampling_rate)%R = angle.

(** The segments of the estimator are those of the Ferraris procedure
    carried out with the sensor, free of noise: six static positions of as
    many samples each, and a rotation by the expected angle about each
    axis. *)
Definition recorded_with (s : sensor) (self : FerrarisCalibration R) : Prop :=
  Forall is_Some [acc_x_p self; acc_x_a self; acc_y_p self;
                  acc_y_a self; acc_z_p self; acc_z_a self] ∧
  Forall is_Some (static_gyroscope self) ∧
  static_accelerations self (sensor_b_a s) (sensor_k_a s) (sensor_R_a s) ∧
  static_rotations self (sensor_b_g s) (sensor_K_ga s) ∧
  (∃ n, n ≠ 0%nat ∧ Forall (λ seg, length (samples seg) = n) (static_gyroscope self)) ∧
  rotation_about s (V3 1 0 0)%R (acc_x_rot self) (gyr_x_rot self)
                 (sampling_rate self) (expected_angle self) ∧
  rotation_about s (V3 0 1 0)%R (acc_y_rot self) (gyr_y_rot self)
                 (sampling_rate self) (expected_angle self) ∧
  rotation_about s (V3 0 0 1)%R (acc_z_rot self) (gyr_z_rot self)
                 (sampling_rate self) (expected_angle self).

(** The Ferraris procedure carried out with a sensor, one sample to a
    segment: at rest along and against each axis, and turned about each
    axis, lying flat, by [angle] within one sample. *)
Definition one_sample_procedure (s : sensor) (g rate angle : R) : FerrarisCalibration R :=
  let rest (a : vec3 R) := Some [acc_reading s a] in
  let still (a : vec3 R) := Some [gyr_reading s (V3 0 0 0)%R a] in
  let flat := (V3 0 0 g)%R in
  let turn (axis : vec3 R) := Some [gyr_reading s (smulv (angle * rate)%R axis) flat] in
  {| acc_x_p := rest (V3 g 0 0)%R; acc_x_a := rest (V3 (- g) 0 0)%R;
     acc_y_p := rest (V3 0 g 0)%R; acc_y_a := rest (V3 0 (- g) 0)%R;
     acc_z_p := rest (V3 0 0 g)%R; acc_z_a := rest (V3 0 0 (- g))%R;
     gyr_x_p := still (V3 g 0 0)%R; gyr_x_a := still (V3 (- g) 0 0)%R;
     gyr_y_p := still (V3 0 g 0)%R; gyr_y_a := still (V3 0 (- g) 0)%R;
     gyr_z_p := still (V3 0 0 g)%R; gyr_z_a := still (V3 0 0 (- g))%R;
     acc_x_rot := rest flat; acc_y_rot := rest flat; acc_z_rot := rest flat;
     gyr_x_rot := turn (V3 1 0 0)%R; gyr_y_rot := turn (V3 0 1 0)%R;
     gyr_z_rot := turn (V3 0 0 1)%R;
     sampling_rate := rate; grav := g; expected_angle := angle |}.

(** A sensor with a bias, unequal scale factors, an accelerometer turned in
    the x-y plane and a gyroscope that feels the acceleration. *)
Definition skewed_sensor : sensor :=
  {| sensor_b_a := V3 (1/10) 0 (-1/10);
     sensor_k_a := V3 2 1 (1/2);
     sensor_R_a := M3 (V3 (3/5) (4/5) 0) (V3 (-4/5) (3/5) 0) (V3 0 0 1);
     sensor_b_g := V3 1 2 3;
     sensor_k_g := V3 1 3 1;
     sensor_R_g := M3 (V3 1 0 0) (V3 0 (5/13) (12/13)) (V3 0 0 1);
     sensor_K_ga := M3 (V3 0 (1/100) 0) (V3 0 0 0) (V3 (1/50) 0 0) |}%R.

(** * Properties *)

(** ** The class hierarchy and the lookup by tag *)

Lemma get_subclasses_unfold (p : pyclass) (c : pyclass) :
  c ∈ _get_subclasses p ↔
  ∃ s, s ∈ cls_subclasses p ∧ (c ∈ _get_subclasses s ∨ c = s).
Proof.
  destruct p as [n t fs ps subs]; simpl.
  rewrite list_elem_of_In, in_flat_map. split.
  - intros (s & Hs & Hc). exists s.
    apply list_elem_of_In in Hs. apply list_elem_of_In in Hc.
    split; [done|].
    apply elem_of_app in Hc as [Hc | Hc]; [by left|].
    right. by apply list_elem_of_singleton in Hc.
  - intros (s & Hs & Hc). exists s. rewrite <- !list_elem_of_In.
    split; [done|].
    apply elem_of_app. destruct Hc as [Hc | ->]; [by left|].
    right. by apply list_elem_of_singleton.
Qed.

Lemma get_subclasses_descends (p c : pyclass) :
  c ∈ _get_subclasses p ↔ descends c p.
Proof.
  split.
  - revert c. induction p as [n t fs ps subs IH] using pyclass_ind'.
    intros c Hc. apply get_subclasses_unfold in Hc as (s & Hs & Hc).
    simpl in Hs. destruct Hc as [Hc | ->].
    + rewrite Forall_forall in IH.
      apply descends_deeper with s; [|done].
      by apply IH.
    + by apply descends_child.
  - induction 1 as [c p Hc | c q p _ IH Hq];
      apply get_subclasses_unfold; eauto.
Qed.

(** What [next] comes to on a list of classes: the first class with the
    tag when every class before it defines [CAL_TYPE]; [AttributeError]
    when a class that does not define it comes before any match;
    [StopIteration] when the list is exhausted. *)
Lemma next_match_outcome {A : Type} (xs : list pyclass) (tag : string) :
  match next_match xs (@JStr A tag) with
  | Ok c => ∃ pre post, xs = pre ++ c :: post ∧ cls_CAL_TYPE c = Some tag ∧
                        Forall (λ x, ∃ t, cls_CAL_TYPE x = Some t ∧ t ≠ tag) pre
  | Err e =>
      (e = StopIteration ∧ Forall (λ x, ∃ t, cls_CAL_TYPE x = Some t ∧ t ≠ tag) xs) ∨
      (e = AttributeError ∧
       ∃ pre x post, xs = pre ++ x :: post ∧ cls_CAL_TYPE x = None ∧
                     Forall (λ y, ∃ t, cls_CAL_TYPE y = Some t ∧ t ≠ tag) pre)
  end.
Proof.
  induction xs as [|x xs IH]; simpl; [by left|].
  destruct (cls_CAL_TYPE x) as [t|] eqn:Ht.
  - destruct (String.eqb_spec t tag) as [-> | Hne].
    + exists [], xs. by repeat split.
    + assert (∃ t', cls_CAL_TYPE x = Some t' ∧ t' ≠ tag) as Hx by eauto.
      destruct (next_match xs (JStr tag)) as [c | e].
      * destruct IH as (pre & post & -> & Hc & Hpre).
        exists (x :: pre), post. repeat split; [done|]. by constructor.
      * destruct IH as [[-> Hall] | (-> & pre & y & post & -> & Hy & Hpre)].
        -- left. split; [done|]. by constructor.
        -- right. split; [done|]. exists (x :: pre), y, post.
           repeat split; [done|]. by constructor.
  - right. split; [done|]. exists [], x, xs. by repeat split.
Qed.

(** C7 (as amended): [find_subclass_from_cal_type] searches every class
    that descends from [CalibrationInfo], children and deeper descendants
    alike, in the order of [_get_subclasses]. It returns the first class
    whose [CAL_TYPE] is the tag when every class before it defines
    [CAL_TYPE]; a class that does not define [CAL_TYPE], met before a
    match, makes it raise [AttributeError], whatever follows; when every
    descendant defines [CAL_TYPE] and none carries the tag it raises
    [StopIteration]. It never returns a class without the tag. *)
Theorem find_subclass_first_match {A : Type} (registry : list pyclass) (tag : string) :
  let root := CalibrationInfo registry in
  (∀ c, c ∈ _get_subclasses root ↔ descends c root) ∧
  match find_subclass_from_cal_type registry (@JStr A tag) with
  | Ok c =>
      ∃ pre post, _get_subclasses root = pre ++ c :: post ∧
                  cls_CAL_TYPE c = Some tag ∧
                  Forall (λ x, ∃ t, cls_CAL_TYPE x = Some t ∧ t ≠ tag) pre
  | Err e =>
      (e = StopIteration ∧
       ∀ c, descends c root → ∃ t, cls_CAL_TYPE c = Some t ∧ t ≠ tag) ∨
      (e = AttributeError ∧
       ∃ pre x post, _get_subclasses root = pre ++ x :: post ∧
                     cls_CAL_TYPE x = None ∧
                     Forall (λ y, ∃ t, cls_CAL_TYPE y = Some t ∧ t ≠ tag) pre)
  end.
Proof.
  intros root. split; [intros c; apply get_subclasses_descends|].
  unfold find_subclass_from_cal_type. fold root.
  pose proof (next_match_outcome (A := A) (_get_subclasses root) tag) as Hout.
  destruct (next_match _ _) as [c | e]; [done|].
  destruct Hout as [[-> Hnone] | Hattr]; [left | by right].
  split; [done|]. intros c Hc. rewrite Forall_forall in Hnone.
  by apply Hnone, get_subclasses_descends.
Qed.

Example find_turntable :
  find_subclass_from_cal_type [FerrarisWithTurntable] (@JStr float "Turntable")
    = Ok TurntableCalibrationInfo.
Proof. reflexivity. Qed.

Example find_ferraris :
  find_subclass_from_cal_type [FerrarisWithTurntable] (@JStr float "Ferraris")
    = Ok FerrarisWithTurntable.
Proof. reflexivity. Qed.

Example find_unknown :
  find_subclass_from_cal_type [FerrarisWithTurntable] (@JStr float "Allan")
    = Err StopIteration.
Proof. reflexivity. Qed.

(** A tag that a registered class carries is not found behind a class
    that does not define [CAL_TYPE]: the lookup raises [AttributeError];
    and a tag that no class carries ends the search in a bare
    [StopIteration]. *)
Lemma find_subclass_behind_untagged_class :
  let registry := [AbstractCalibrationInfo; FerrarisCalibrationInfo] in
  descends FerrarisCalibrationInfo (CalibrationInfo registry) ∧
  cls_CAL_TYPE FerrarisCalibrationInfo = Some "Ferraris" ∧
  find_subclass_from_cal_type registry (@JStr float "Ferraris") = Err AttributeError ∧
  find_subclass_from_cal_type [FerrarisCalibrationInfo] (@JStr float "Allan")
    = Err StopIteration.
Proof.
  split; [|done]. apply descends_child. simpl. apply elem_of_cons. right. left.
Qed.

(** ** The constructor of the estimator *)

Lemma float_or_nonzero {A : Type} `{Scalar A} (x : option A) (d : A) :
  feqb d (of_Z 0) = false → feqb (float_or x d) (of_Z 0) = false.
Proof.
  intros Hd. destruct x as [v|]; simpl; [|done].
  by destruct (feqb v (of_Z 0)) eqn:Hv.
Qed.

Example default_grav_value : (DEFAULT_GRAV : float) = 0x1.39eb851eb851fp+3%float.
Proof. reflexivity. Qed.

Example expected_angle_value : (EXPECTED_ANGLE : float) = 360%float.
Proof. reflexivity. Qed.

(** C10: the constructor replaces a falsy gravity ([None], [0.0] or [-0.0])
    by 9.81 and a falsy expected angle by 360, so that neither attribute of
    a constructed estimator is zero. *)
Theorem init_replaces_falsy_constants
    (sr : float) (g ea : option float) (kwargs : gmap string (list (vec3 float))) :
  grav (__init__ sr None ea kwargs) = DEFAULT_GRAV ∧
  grav (__init__ sr (Some 0%float) ea kwargs) = DEFAULT_GRAV ∧
  grav (__init__ sr (Some (-0)%float) ea kwargs) = DEFAULT_GRAV ∧
  expected_angle (__init__ sr g None kwargs) = EXPECTED_ANGLE ∧
  expected_angle (__init__ sr g (Some 0%float) kwargs) = EXPECTED_ANGLE ∧
  expected_angle (__init__ sr g (Some (-0)%float) kwargs) = EXPECTED_ANGLE ∧
  feqb (grav (__init__ sr g ea kwargs)) 0%float = false ∧
  feqb (expected_angle (__init__ sr g ea kwargs)) 0%float = false.
Proof.
  repeat split; try reflexivity.
  - change (feqb (float_or g DEFAULT_GRAV) (of_Z 0) = false).
    apply float_or_nonzero. reflexivity.
  - change (feqb (float_or ea EXPECTED_ANGLE) (of_Z 0) = false).
    apply float_or_nonzero. reflexivity.
Qed.

(** ** The loader *)

Example suffix_json : path_suffix "data/foo.json" = ".json".
Proof. reflexivity. Qed.
Example suffix_hidden : path_suffix "/home/x/.bashrc" = EmptyString.
Proof. reflexivity. Qed.
Example suffix_dir : path_suffix "a.d/cal.h5/" = ".h5".
Proof. reflexivity. Qed.

Lemma rfind_substring (c : ascii) (s : string) (i n : nat) :
  rfind c s = Some i → ∃ t, substring i (S n) s = String c t.
Proof.
  revert i. induction s as [|a s IH]; intros i; simpl; [done|].
  destruct (rfind c s) as [j|].
  - intros [= <-]. destruct (IH j eq_refl) as [t Ht]. exists t. exact Ht.
  - destruct (Ascii.eqb_spec a c) as [-> | _]; [|done].
    intros [= <-]. eauto.
Qed.

(** A suffix is empty or starts with its dot. *)
Lemma name_suffix_dot (name : string) :
  name_suffix name = EmptyString ∨ ∃ t, name_suffix name = String "."%char t.
Proof.
  unfold name_suffix. destruct (rfind "."%char name) as [i|] eqn:Hi; [|by left].
  destruct (_ && _) eqn:Hrange; [|by left]. right.
  apply andb_prop in Hrange as [_ Hlt%Nat.ltb_lt].
  destruct (String.length name - i) as [|n] eqn:Hlen; [lia|].
  by apply rfind_substring.
Qed.

Lemma path_suffix_unrecognised (path : string) :
  String.eqb (path_suffix path) "json" = false ∧
  bool_decide (path_suffix path ∈ ["hdf"; "h5"]) = false.
Proof.
  unfold path_suffix.
  destruct (name_suffix_dot (path_name path)) as [-> | [t ->]].
  - split; [done|]. apply bool_decide_eq_false.
    rewrite !elem_of_cons, elem_of_nil. by intros [?|[?|[]]].
  - split; [done|]. apply bool_decide_eq_false.
    rewrite !elem_of_cons, elem_of_nil. by intros [?|[?|[]]].
Qed.

(** C6: without an explicit format the loader compares the suffix, which
    carries its dot, with ["json"], ["hdf"] and ["h5"]: no path is
    recognised, ["foo.json"] included, and the call always raises. *)
Theorem load_without_format_always_fails {A : Type} `{Scalar A}
    (registry : list pyclass) (fs : gmap string (file A)) (path : string) :
  load_calibration_info registry fs path None = Err undetermined_format ∧
  load_calibration_info registry fs "foo.json" None = Err undetermined_format ∧
  load_calibration_info registry fs "foo.hdf" None = Err undetermined_format ∧
  load_calibration_info registry fs "foo.h5" None = Err undetermined_format.
Proof.
  assert (∀ p, load_calibration_info registry fs p None = Err undetermined_format) as Hall.
  { intros p. unfold load_calibration_info.
    destruct (path_suffix_unrecognised p) as [-> ->]. reflexivity. }
  by rewrite !Hall.
Qed.

(** An explicit format selects the loader, and any other word is refused. *)
Lemma load_explicit_format {A : Type} `{Scalar A}
    (registry : list pyclass) (fs : gmap string (file A)) (path format : string) :
  load_calibration_info registry fs path (Some format) =
    if String.eqb format "json" then from_json_file registry fs path
    else if String.eqb format "hdf" then from_hdf5 registry fs path
    else Err unknown_format.
Proof.
  unfold load_calibration_info, format_options. simpl.
  destruct (String.eqb_spec format "json") as [-> | Hj]; [done|].
  destruct (String.eqb_spec format "hdf") as [-> | Hh]; [done|].
  by rewrite !lookup_insert_ne, lookup_empty by done.
Qed.

Example load_bogus_format (fs : gmap string (file float)) :
  load_calibration_info [FerrarisCalibrationInfo] fs "foo.json" (Some "bogus")
    = Err unknown_format.
Proof. reflexivity. Qed.

(** ** Equality of records *)

Section Equality.
Context {A : Type} `{Scalar A}.

Lemma veqb_elementwise (u v : vec3 A) :
  veqb u v = true ↔ elementwise_equal (vec_elements u) (vec_elements v).
Proof.
  unfold veqb, elementwise_equal, vec_elements. rewrite !andb_true_iff. split.
  - intros [[??]?]. by repeat constructor.
  - intros Hall. inversion Hall as [|???? ? Hall1]; subst.
    inversion Hall1 as [|???? ? Hall2]; subst.
    inversion Hall2; subst. done.
Qed.

Lemma meqb_elementwise (a b : mat3 A) :
  meqb a b = true ↔ elementwise_equal (mat_elements a) (mat_elements b).
Proof.
  unfold meqb, elementwise_equal, mat_elements. rewrite !andb_true_iff.
  rewrite !veqb_elementwise. unfold elementwise_equal. split.
  - intros [[??]?]. by repeat apply Forall2_app.
  - intros Hall.
    apply Forall2_app_inv in Hall as [? Hall]; [|done].
    apply Forall2_app_inv in Hall as [??]; done.
Qed.

(** The test the loop of [__eq__] applies to one field. *)
Lemma field_test_same_value (a1 a2 : pyval A) :
  match a1 with
  | PArr arr => Ok (array_equal arr a2)
  | _ => py_eq a1 a2
  end = Ok true ↔ same_value a1 a2.
Proof.
  destruct a1 as [|s|[|u|a]], a2 as [|t|[|v|b]]; simpl;
    try (split; [intros [=] | intros []]; fail);
    try (split; done).
  - split; [intros [= ?%String.eqb_eq]; done | intros ->; by rewrite String.eqb_refl].
  - rewrite <- veqb_elementwise. split; [by intros [= ->] | by intros ->].
  - rewrite <- meqb_elementwise. split; [by intros [= ->] | by intros ->].
Qed.

Lemma eq_values_true (self other : obj A) (fs : list field) :
  eq_values self other fs = Ok true ↔
  Forall (λ f, ∃ a1 a2, obj_attrs self !! field_name f = Some a1 ∧
                        obj_attrs other !! field_name f = Some a2 ∧
                        same_value a1 a2) fs.
Proof.
  induction fs as [|f fs IH]; simpl; [by split|].
  rewrite Forall_cons, <- IH. unfold getattr.
  destruct (obj_attrs self !! field_name f) as [a1|]; simpl;
    [|split; [done | by intros [(?&?&?&?) _]]].
  destruct (obj_attrs other !! field_name f) as [a2|]; simpl;
    [|split; [done | by intros [(?&?&?&?&?) _]]].
  pose proof (field_test_same_value a1 a2) as Htest.
  destruct (match a1 with PArr arr => Ok (array_equal arr a2) | _ => py_eq a1 a2 end)
    as [[] | e]; simpl.
  - split; [intros ?; split; [|done]; exists a1, a2; by rewrite <- Htest|by intros [_ ?]].
  - split; [done|]. intros [(?&?&[= <-]&[= <-]&Hsame) _].
    by apply Htest in Hsame.
  - split; [done|]. intros [(?&?&[= <-]&[= <-]&Hsame) _].
    by apply Htest in Hsame.
Qed.

Lemma eq_values_errors (self other : obj A) (fs : list field) (e : exn) :
  eq_values self other fs = Err e → e = AttributeError ∨ e = ambiguous_truth.
Proof.
  induction fs as [|f fs IH]; simpl; [done|]. unfold getattr.
  destruct (obj_attrs self !! field_name f) as [a1|]; simpl; [|intros [= <-]; by left].
  destruct (obj_attrs other !! field_name f) as [a2|]; simpl; [|intros [= <-]; by left].
  destruct a1 as [|s|arr]; simpl.
  - destruct a2 as [|t|[|v|b]]; simpl; try done; try (intros [= <-]; by right).
  - destruct a2 as [|t|[|v|b]]; simpl; try done; try (intros [= <-]; by right).
    by destruct (String.eqb s t).
  - by destruct (array_equal arr a2).
Qed.
End Equality.

Lemma eq_same_class {A : Type} `{Scalar A} (self other : obj A) :
  obj_class other = obj_class self →
  is_Some (cls_CAL_TYPE (obj_class self)) →
  __eq__ self other = eq_values self other (fields self).
Proof.
  intros Hcls [t Ht]. unfold __eq__, isinstance, fields, CAL_TYPE.
  rewrite Hcls, Ht. simpl.
  rewrite bool_decide_eq_true_2 by apply list_elem_of_here. simpl.
  rewrite bool_decide_eq_true_2 by done. simpl.
  by rewrite String.eqb_refl.
Qed.

(** Between two records of one class [==] is the method of the left
    operand. *)
Lemma operator_eq_same_class {A : Type} `{Scalar A} (self other : obj A) :
  obj_class other = obj_class self → operator_eq self other = __eq__ self other.
Proof. intros Hcls. unfold operator_eq. by rewrite Hcls, String.eqb_refl. Qed.

(** C8 (as amended): [==] between two records of different classes raises
    the [ValueError] of the method, from the left operand when the right
    one is no instance of its class, and from the right operand, whose
    method is called first, when that is an instance of a proper subclass
    of the class of the left one (of which the left operand, as in every
    Python hierarchy, is no instance). Between two records of one class that
    defines [CAL_TYPE] it returns [True] exactly when every field holds
    the same value in both: the same string, arrays equal element by
    element, or nothing, where [None] and [np.array(None)] count as the
    same; the only error it can then raise, on records that have all their
    attributes, is numpy's [ValueError] on the truth value of an array. *)
Theorem eq_semantics {A : Type} `{Scalar A} (self other : obj A) :
  (isinstance other (obj_class self) = false →
   operator_eq self other = Err (comparison_error self)) ∧
  (cls_name (obj_class other) ≠ cls_name (obj_class self) →
   isinstance other (obj_class self) = true →
   isinstance self (obj_class other) = false →
   operator_eq self other = Err (comparison_error other)) ∧
  (obj_class other = obj_class self →
   is_Some (cls_CAL_TYPE (obj_class self)) →
   (operator_eq self other = Ok true ↔
      Forall (λ f, ∃ a1 a2, obj_attrs self !! field_name f = Some a1 ∧
                            obj_attrs other !! field_name f = Some a2 ∧
                            same_value a1 a2) (fields self)) ∧
   (∀ e, operator_eq self other = Err e → e = AttributeError ∨ e = ambiguous_truth)).
Proof.
  split; [|split].
  - intros Hinst. unfold operator_eq, __eq__.
    by rewrite Hinst, andb_false_r.
  - intros Hne%String.eqb_neq Hother Hself. unfold operator_eq, __eq__.
    by rewrite Hne, Hother, Hself.
  - intros Hcls Htag.
    rewrite operator_eq_same_class, eq_same_class by done. split.
    + apply eq_values_true.
    + intros e. apply eq_values_errors.
Qed.

Lemma construct_ferraris_record {A : Type} (v : ferraris_values A) :
  construct FerrarisCalibrationInfo (ferraris_kwargs v) = Ok (ferraris_record v).
Proof. destruct v. vm_compute. reflexivity. Qed.

Lemma eq_semantics_witness :
  operator_eq base_record (ferraris_record identity_values)
    = Err (comparison_error (ferraris_record identity_values)) ∧
  (operator_eq (ferraris_record identity_values) (ferraris_record identity_values) = Ok true ↔
   Forall (λ f, ∃ a1 a2,
             obj_attrs (ferraris_record identity_values) !! field_name f = Some a1 ∧
             obj_attrs (ferraris_record identity_values) !! field_name f = Some a2 ∧
             same_value a1 a2)
          (fields (ferraris_record identity_values))).
Proof.
  split.
  - apply (proj1 (proj2 (eq_semantics base_record (ferraris_record identity_values)))).
    + done.
    + reflexivity.
    + reflexivity.
  - apply (proj2 (proj2 (eq_semantics (ferraris_record identity_values)
                                      (ferraris_record identity_values)))).
    + reflexivity.
    + simpl. by eexists.
Defined.

(** The error of a comparison across classes is a [ValueError], no
    [TypeError], whichever operand is the subclass instance; and two
    records of one class compare equal where a parameter is [None] in one
    and the array [np.array(None)], as it is read back from a JSON
    document, in the other. *)
Lemma eq_error_is_value_error :
  let r := ferraris_record identity_values in
  operator_eq base_record r
    = Err (ValueError "Comparison is only defined between two FerrarisCalibrationInfo object!") ∧
  operator_eq r base_record
    = Err (ValueError "Comparison is only defined between two FerrarisCalibrationInfo object!") ∧
  ∃ json_str read,
    to_json (@blank_record float) = Ok json_str ∧
    from_json [FerrarisCalibrationInfo] json_str = Ok read ∧
    obj_class read = obj_class (@blank_record float) ∧
    getattr (@blank_record float) "b_a" = Ok PNone ∧
    getattr read "b_a" = Ok (PArr Nd0None) ∧
    operator_eq blank_record read = Ok true ∧
    operator_eq read blank_record = Ok true.
Proof.
  split; [reflexivity|]. split; [reflexivity|].
  eexists _, _. split; [reflexivity|]. split; [reflexivity|].
  repeat split; reflexivity.
Qed.

(** ** Serialisation round trips *)

Lemma to_json_ferraris {A : Type} (v : ferraris_values A) :
  to_json (ferraris_record v) = Ok (ferraris_document v).
Proof. destruct v. reflexivity. Qed.

Lemma from_list_dict_ferraris {A : Type} (v : ferraris_values A) :
  _from_list_dict FerrarisCalibrationInfo (delete "cal_type" (ferraris_document v))
    = Ok (ferraris_record v).
Proof.
  destruct v as [u1 u2 u3 u4 c [] [[] [] []] [[] [] []] [] [[] [] []] [[] [] []] [[] [] []]].
  destruct u1, u2, u3, u4, c; reflexivity.
Qed.

Lemma from_json_ferraris {A : Type} (registry : list pyclass) (v : ferraris_values A) :
  find_subclass_from_cal_type registry (@JStr A "Ferraris") = Ok FerrarisCalibrationInfo →
  from_json registry (ferraris_document v) = Ok (ferraris_record v).
Proof.
  intros Hreg. unfold from_json.
  replace (ferraris_document v !! "cal_type") with (Some (@JStr A "Ferraris"))
    by (destruct v; reflexivity).
  rewrite Hreg. simpl. apply from_list_dict_ferraris.
Qed.

Lemma same_value_refl {A : Type} `{Scalar A} (xs : list A) :
  Forall (λ x, feqb x x = true) xs → elementwise_equal xs xs.
Proof. induction 1; by constructor. Qed.

(** A record without NaN is equal to itself. *)
Lemma eq_ferraris_refl {A : Type} `{Scalar A} (v : ferraris_values A) :
  no_nan v → __eq__ (ferraris_record v) (ferraris_record v) = Ok true.
Proof.
  intros Hnan. rewrite eq_same_class by (done || by eexists).
  apply eq_values_true. unfold no_nan, record_numbers in Hnan.
  rewrite !Forall_app in Hnan. destruct Hnan as (?&?&?&?&?&?&?).
  destruct v as [u1 u2 u3 u4 c b_a K_a R_a b_g K_g R_g K_ga]. simpl in *.
  repeat apply Forall_cons_2; [..|apply Forall_nil_2];
    (eexists _, _; split; [reflexivity|]; split; [reflexivity|]); simpl;
    try (by apply same_value_refl);
    match goal with |- same_value (optional_str ?u) _ => by destruct u end.
Qed.

(** C4 (as amended): a Ferraris record with its seven arrays set and any
    optional strings is read back from its JSON document field for field
    as it was written; and the record read back compares equal to the
    original with [==] when no array holds a NaN. The tag ["Ferraris"]
    resolves to the class, which is what registering the class means. *)
Theorem json_round_trip {A : Type} `{Scalar A}
    (registry : list pyclass) (v : ferraris_values A) :
  find_subclass_from_cal_type registry (@JStr A "Ferraris") = Ok FerrarisCalibrationInfo →
  ∃ json_str r,
    to_json (ferraris_record v) = Ok json_str ∧
    from_json registry json_str = Ok r ∧
    r = ferraris_record v ∧
    (no_nan v → __eq__ r (ferraris_record v) = Ok true).
Proof.
  intros Hreg. exists (ferraris_document v), (ferraris_record v).
  split; [apply to_json_ferraris|].
  split; [by apply from_json_ferraris|].
  split; [done|]. apply eq_ferraris_refl.
Qed.

Lemma json_round_trip_witness :
  ∃ json_str r,
    to_json (ferraris_record identity_values) = Ok json_str ∧
    from_json [FerrarisCalibrationInfo] json_str = Ok r ∧
    r = ferraris_record identity_values ∧
    (no_nan identity_values → __eq__ r (ferraris_record identity_values) = Ok true).
Proof.
  apply (json_round_trip [FerrarisCalibrationInfo] identity_values).
  reflexivity.
Defined.

Example identity_values_no_nan : no_nan identity_values.
Proof. unfold no_nan. simpl. repeat constructor. Qed.

(** Every array of the record is set, the document gives the record back,
    and [==] answers [False]. *)
Lemma json_round_trip_nan_unequal :
  (json_str <- to_json (ferraris_record nan_values) ;;
   r <- from_json [FerrarisCalibrationInfo] json_str ;;
   __eq__ r (ferraris_record nan_values)) = Ok false.
Proof. vm_compute. reflexivity. Qed.

Ltac case_optional_str u :=
  destruct u as [[|? ?]|].

Lemma to_hdf5_ferraris {A : Type} (v : ferraris_values A) :
  to_hdf5_content (ferraris_record v) = Ok (ferraris_hdf5 v).
Proof.
  destruct v as [u1 u2 u3 u4 c b_a K_a R_a b_g K_g R_g K_ga].
  case_optional_str u1; case_optional_str u2; case_optional_str u3;
    case_optional_str u4; case_optional_str c; reflexivity.
Qed.

Lemma from_hdf5_fields_ferraris {A : Type} (v : ferraris_values A) :
  (values <- from_hdf5_fields FerrarisCalibrationInfo (ferraris_hdf5 v)
               (cls_fields FerrarisCalibrationInfo) ∅ ;;
   construct FerrarisCalibrationInfo values)
  = Ok (ferraris_record (written_values v)).
Proof.
  destruct v as [u1 u2 u3 u4 c [] [[] [] []] [[] [] []] [] [[] [] []] [[] [] []] [[] [] []]].
  case_optional_str u1; case_optional_str u2; case_optional_str u3;
    case_optional_str u4; case_optional_str c; reflexivity.
Qed.

Lemma from_hdf5_ferraris {A : Type} (registry : list pyclass) (v : ferraris_values A) :
  find_subclass_from_cal_type registry (@JStr A "Ferraris") = Ok FerrarisCalibrationInfo →
  from_hdf5_content registry (ferraris_hdf5 v) = Ok (ferraris_record (written_values v)).
Proof.
  intros Hreg. unfold from_hdf5_content.
  replace (ferraris_hdf5 v !! "cal_type") with (Some (@JStr A "Ferraris")).
  - rewrite Hreg. simpl. apply from_hdf5_fields_ferraris.
  - destruct v as [u1 u2 u3 u4 c b_a K_a R_a b_g K_g R_g K_ga].
    case_optional_str u1; case_optional_str u2; case_optional_str u3;
      case_optional_str u4; case_optional_str c; reflexivity.
Qed.

(** The answer of the loop of [__eq__] when every field test has one. *)
Lemma eq_values_answers {A : Type} `{Scalar A} (self other : obj A)
    (fs : list field) (bs : list bool) :
  Forall2 (λ f b, ∃ a1 a2, obj_attrs self !! field_name f = Some a1 ∧
                           obj_attrs other !! field_name f = Some a2 ∧
                           match a1 with
                           | PArr arr => Ok (array_equal arr a2)
                           | _ => py_eq a1 a2
                           end = Ok b) fs bs →
  eq_values self other fs = Ok (forallb (λ b, b) bs).
Proof.
  induction 1 as [|f b fs bs (a1 & a2 & H1 & H2 & Htest) _ IH]; simpl; [done|].
  unfold getattr. rewrite H1, H2. simpl. rewrite Htest. simpl.
  by destruct b.
Qed.

Lemma field_test_written_str {A : Type} `{Scalar A} (u : option string) :
  match optional_str (A := A) (written_str u) with
  | PArr arr => Ok (array_equal arr (optional_str u))
  | _ => py_eq (A := A) (optional_str (written_str u)) (optional_str u)
  end = Ok (bool_decide (written_str u = u)).
Proof.
  destruct u as [[|a s]|]; simpl; try done.
  rewrite Ascii.eqb_refl, String.eqb_refl. by rewrite bool_decide_eq_true_2.
Qed.

Lemma eq_written_values {A : Type} `{Scalar A} (v : ferraris_values A) :
  no_nan v →
  __eq__ (ferraris_record (written_values v)) (ferraris_record v) = Ok (keeps_strings v).
Proof.
  intros Hnan. rewrite eq_same_class by (done || by eexists).
  unfold no_nan, record_numbers in Hnan.
  rewrite !Forall_app in Hnan. destruct Hnan as (?&?&?&?&?&?&?).
  destruct v as [u1 u2 u3 u4 c b_a K_a R_a b_g K_g R_g K_ga]. simpl in * |-.
  rewrite (eq_values_answers _ _ _
    [bool_decide (written_str u1 = u1); bool_decide (written_str u2 = u2);
     bool_decide (written_str u3 = u3); bool_decide (written_str u4 = u4);
     bool_decide (written_str c = c); true; true; true; true; true; true; true]).
  { unfold keeps_strings. simpl. by rewrite !andb_true_r. }
  repeat (apply List.Forall2_cons;
            [eexists _, _; split; [reflexivity|]; split; [reflexivity|]|]);
    [..|apply List.Forall2_nil]; cbv [snd]; simpl;
    first [apply field_test_written_str
          |f_equal; by apply veqb_elementwise, same_value_refl
          |f_equal; by apply meqb_elementwise, same_value_refl].
Qed.

(** C5 (as amended): a Ferraris record with its seven arrays set, written
    to an HDF5 file and read from it, comes back with every array as it
    was and every optional string as it was, except that an empty string,
    which is not written, comes back as [None]; the record read back
    compares equal to the original with [==] when no array holds a NaN and
    no optional string is empty. *)
Theorem hdf5_round_trip {A : Type} `{Scalar A}
    (registry : list pyclass) (v : ferraris_values A)
    (fs : gmap string (file A)) (path : string) :
  find_subclass_from_cal_type registry (@JStr A "Ferraris") = Ok FerrarisCalibrationInfo →
  ∃ fs' r,
    to_hdf5 (ferraris_record v) path fs = Ok fs' ∧
    from_hdf5 registry fs' path = Ok r ∧
    r = ferraris_record (written_values v) ∧
    (no_nan v → __eq__ r (ferraris_record v) = Ok (keeps_strings v)).
Proof.
  intros Hreg.
  exists (<[path := Hdf5File (ferraris_hdf5 v)]> fs), (ferraris_record (written_values v)).
  split; [unfold to_hdf5; by rewrite to_hdf5_ferraris|].
  split; [|split; [done | apply eq_written_values]].
  unfold from_hdf5. rewrite lookup_insert_eq. by apply from_hdf5_ferraris.
Qed.

Lemma hdf5_round_trip_witness :
  ∃ fs' r,
    to_hdf5 (ferraris_record identity_values) "cal.h5" ∅ = Ok fs' ∧
    from_hdf5 [FerrarisCalibrationInfo] fs' "cal.h5" = Ok r ∧
    r = ferraris_record (written_values identity_values) ∧
    (no_nan identity_values →
     __eq__ r (ferraris_record identity_values) = Ok (keeps_strings identity_values)).
Proof.
  apply (hdf5_round_trip [FerrarisCalibrationInfo] identity_values ∅ "cal.h5").
  reflexivity.
Defined.

(** An empty comment is lost, and the comparison says so. *)
Example hdf5_empty_comment :
  let v := {| fv_acc_unit := None; fv_gyr_unit := None; fv_from_acc_unit := None;
              fv_from_gyr_unit := None; fv_comment := Some EmptyString;
              fv_b_a := fv_b_a identity_values; fv_K_a := fv_K_a identity_values;
              fv_R_a := fv_R_a identity_values; fv_b_g := fv_b_g identity_values;
              fv_K_g := fv_K_g identity_values; fv_R_g := fv_R_g identity_values;
              fv_K_ga := fv_K_ga identity_values |} in
  (hdf <- to_hdf5_content (ferraris_record v) ;;
   r <- from_hdf5_content [FerrarisCalibrationInfo] hdf ;;
   __eq__ r (ferraris_record v)) = Ok false.
Proof. vm_compute. reflexivity. Qed.

(** The arrays of the record are set and no string is empty, the file gives
    the record back, and [==] answers [False]. *)
Lemma hdf5_round_trip_nan_unequal :
  (fs <- to_hdf5 (ferraris_record nan_values) "cal.h5" ∅ ;;
   r <- from_hdf5 [FerrarisCalibrationInfo] fs "cal.h5" ;;
   __eq__ r (ferraris_record nan_values)) = Ok false.
Proof. vm_compute. reflexivity. Qed.

(** ** The estimation: missing and empty segments *)

Ltac bind_inv H :=
  match type of H with
  | bind ?m _ = Ok _ =>
      let x := fresh "x" in
      let E := fresh "E" in
      destruct m as [x|] eqn:E; cbn [bind] in H; [|discriminate H]
  end.

Lemma calibrate_acc_present {A : Type} `{Scalar A} `{Linalg A} (o : obj A)
    (acc : option (list (vec3 A))) (out : list (vec3 A)) :
  calibrate_acc o acc = Ok out → is_Some acc.
Proof.
  unfold calibrate_acc. intros Hok. repeat bind_inv Hok.
  destruct acc; [by eexists | discriminate].
Qed.

Lemma calibrate_gyro_offsets_present {A : Type} `{Scalar A} (o : obj A)
    (gyro : option (list (vec3 A))) (acc out : list (vec3 A)) :
  _calibrate_gyro_offsets o gyro acc = Ok out → is_Some gyro.
Proof.
  unfold _calibrate_gyro_offsets. intros Hok. repeat bind_inv Hok.
  destruct gyro; [by eexists | discriminate].
Qed.

Lemma np_mean_present {A : Type} `{Scalar A}
    (a : option (list (vec3 A))) (m : vec3 A) :
  np_mean a = Ok m → is_Some a.
Proof. destruct a; [by eexists | discriminate]. Qed.

Lemma np_vstack_present {A : Type} (arrays : list (option (list (vec3 A))))
    (rows : list (vec3 A)) :
  np_vstack arrays = Ok rows → Forall is_Some arrays.
Proof.
  unfold np_vstack. destruct (forallb _ arrays) eqn:Hall.
  - intros _. apply Forall_forall. intros a Ha.
    rewrite forallb_forall in Hall. apply list_elem_of_In, Hall in Ha.
    by apply bool_decide_eq_true in Ha.
  - by destruct (forallb (λ a, bool_decide (a = None)) arrays).
Qed.

Lemma init_segments {A : Type} `{Scalar A} (sr : A) (g ea : option A)
    (kwargs : gmap string (list (vec3 A))) :
  segments (__init__ sr g ea kwargs) = (λ name, kwargs !! name) <$> _fields.
Proof. reflexivity. Qed.

(** A record is returned only when every segment is there. *)
Lemma compute_returns_present {A : Type} `{Scalar A} `{Linalg A}
    (self : FerrarisCalibration A) (r : obj A) :
  compute_calibration_matrix self = Ok r → Forall is_Some (segments self).
Proof.
  unfold compute_calibration_matrix. intros Hok.
  bind_inv Hok.
  do 6 (bind_inv Hok;
        match goal with E : np_mean _ = Ok _ |- _ => apply np_mean_present in E end).
  do 2 bind_inv Hok.
  bind_inv Hok.
  match goal with E : np_vstack _ = Ok _ |- _ => apply np_vstack_present in E end.
  do 6 bind_inv Hok.
  do 3 (bind_inv Hok;
        match goal with E : calibrate_acc _ _ = Ok _ |- _ =>
          apply calibrate_acc_present in E end).
  do 3 (bind_inv Hok;
        match goal with E : _calibrate_gyro_offsets _ _ _ = Ok _ |- _ =>
          apply calibrate_gyro_offsets_present in E end).
  match goal with E : Forall is_Some _ |- _ =>
    rewrite !Forall_cons in E; destruct E as (?&?&?&?&?&?&_) end.
  unfold segments. by repeat apply Forall_cons_2.
Qed.

(** C3 (as amended): when one of the eighteen segment arrays, two for each
    of the nine labels, is not given to the constructor, the estimation
    raises and returns no record. *)
Theorem compute_missing_segment_raises {A : Type} `{Scalar A} `{Linalg A}
    (sr : A) (g ea : option A) (kwargs : gmap string (list (vec3 A))) (name : string) :
  name ∈ _fields →
  kwargs !! name = None →
  raises (compute_calibration_matrix (__init__ sr g ea kwargs)).
Proof.
  intros Hname Hmissing.
  destruct (compute_calibration_matrix _) as [r|e] eqn:Hcompute; [|by exists e].
  apply compute_returns_present in Hcompute.
  rewrite init_segments, Forall_fmap, Forall_forall in Hcompute.
  specialize (Hcompute name Hname). simpl in Hcompute.
  rewrite Hmissing in Hcompute. by destruct Hcompute.
Qed.

(** ** The estimation over the real numbers *)

Section RealArithmetic.
Local Open Scope R_scope.

Lemma real_eqb_true (x y : R) : feqb x y = true ↔ x = y.
Proof. simpl. by destruct (Req_dec_T x y). Qed.

Lemma real_eqb_false (x y : R) : feqb x y = false ↔ x ≠ y.
Proof. simpl. by destruct (Req_dec_T x y). Qed.

Lemma vec3_eq {A : Type} (a b c a' b' c' : A) :
  a = a' → b = b' → c = c' → V3 a b c = V3 a' b' c'.
Proof. by intros -> -> ->. Qed.

Lemma mat3_eq {A : Type} (r0 r1 r2 r0' r1' r2' : vec3 A) :
  r0 = r0' → r1 = r1' → r2 = r2' → M3 r0 r1 r2 = M3 r0' r1' r2'.
Proof. by intros -> -> ->. Qed.

Lemma real_zero_test (x : R) : feqb x (of_Z 0) = false ↔ x ≠ 0.
Proof. apply real_eqb_false. Qed.

Ltac real_entries :=
  cbv [smulv smulm vmap mmap np_diag mdivs vdivs madd msub mzip vzip vadd vsub
       matmul matvec dot transpose col0 col1 col2 row0 row1 row2 vx vy vz
       fadd fsub fmul fdiv of_Z real_scalar];
  try apply mat3_eq; apply vec3_eq; unfold Rdiv; ring.

(** Where the code and the formulas associate differently. *)
Lemma scale_then_diag (c : R) (X : mat3 R) :
  smulv (fdiv (of_Z 1) c) (np_diag X) = np_diag (mdivs X c).
Proof. destruct X as [[] [] []]. real_entries. Qed.

Lemma mdivs_matmul (K X : mat3 R) (c : R) :
  mdivs (matmul K X) c = matmul K (mdivs X c).
Proof. destruct K as [[] [] []], X as [[] [] []]. real_entries. Qed.

Lemma matvec_matmul (a b : mat3 R) (v : vec3 R) :
  matvec (matmul a b) v = matvec a (matvec b v).
Proof. destruct a as [[] [] []], b as [[] [] []], v. real_entries. Qed.

(** The determinant of a diagonal matrix is the product of its diagonal. *)
Lemma det_diagonal (v : vec3 R) :
  det (np_diag_matrix v) = vx v * vy v * vz v.
Proof.
  destruct v. cbv [det np_diag_matrix vx vy vz fadd fsub fmul of_Z real_scalar]. ring.
Qed.

Lemma det_diagonal_zero (v : vec3 R) :
  det (np_diag_matrix v) = 0 ↔ vx v = 0 ∨ vy v = 0 ∨ vz v = 0.
Proof.
  rewrite det_diagonal. split.
  - intros [[?|?]%Rmult_integral|?]%Rmult_integral; auto.
  - intros [-> | [-> | ->]]; ring.
Qed.

(** Over the reals [inverse] is the inverse. *)
Lemma inverse_left (m : mat3 R) :
  det m ≠ 0 → matmul (inverse m) m = np_identity.
Proof.
  destruct m as [[a b c] [d e f] [g h i]]. intros Hdet.
  cbv [det fadd fsub fmul of_Z real_scalar] in Hdet.
  cbv [inverse adjugate det np_identity np_diag_matrix smulv smulm vmap mmap np_diag
       mdivs vdivs matmul dot transpose col0 col1 col2 row0 row1 row2 vx vy vz
       fadd fsub fmul fdiv of_Z real_scalar].
  apply mat3_eq; apply vec3_eq; field; exact Hdet.
Qed.
End RealArithmetic.

Lemma construct_blank {A : Type} :
  construct FerrarisCalibrationInfo ∅ = Ok (@blank_record A).
Proof. reflexivity. Qed.

(** The two transforms on a record whose parameters are set. *)
Lemma calibrate_acc_set {A : Type} `{Scalar A} `{Linalg A} (o : obj A)
    (R_a K_a : mat3 A) (b_a : vec3 A) (acc : list (vec3 A)) :
  obj_attrs o !! "R_a" = Some (PArr (Nd2 R_a)) →
  obj_attrs o !! "K_a" = Some (PArr (Nd2 K_a)) →
  obj_attrs o !! "b_a" = Some (PArr (Nd1 b_a)) →
  calibrate_acc o (Some acc) =
    (R_a_inv <- inv R_a ;;
     K_a_inv <- inv K_a ;;
     Ok ((λ s, matvec (matmul R_a_inv K_a_inv) (vsub s b_a)) <$> acc)).
Proof.
  intros HR HK Hb. unfold calibrate_acc, getattr. by rewrite HR, HK, Hb.
Qed.

Lemma calibrate_gyro_offsets_set {A : Type} `{Scalar A} (o : obj A)
    (b_g : vec3 A) (K_ga : mat3 A) (gyro acc : list (vec3 A)) :
  obj_attrs o !! "b_g" = Some (PArr (Nd1 b_g)) →
  obj_attrs o !! "K_ga" = Some (PArr (Nd2 K_ga)) →
  length gyro = length acc →
  _calibrate_gyro_offsets o (Some gyro) acc =
    Ok (zip_with (λ g a, vsub (vsub g b_g) (matvec K_ga a)) gyro acc).
Proof.
  intros Hb HK Hlen. unfold _calibrate_gyro_offsets, getattr. rewrite Hb, HK. simpl.
  by rewrite bool_decide_eq_true_2.
Qed.

Lemma np_vstack_six {A : Type} (a b c d e f : list (vec3 A)) :
  np_vstack [Some a; Some b; Some c; Some d; Some e; Some f]
    = Ok (a ++ b ++ c ++ d ++ e ++ f).
Proof. unfold np_vstack. simpl. by rewrite app_nil_r. Qed.

Lemma acc_calibrated_product (self : FerrarisCalibration R) (acc : list (vec3 R)) :
  (λ s, matvec (matmul (inverse (formula_R_a self)) (inverse (formula_K_a self)))
               (vsub s (formula_b_a self))) <$> acc
  = acc_calibrated self (Some acc).
Proof. apply list_fmap_ext. intros. apply matvec_matmul. Qed.

(** Over the reals [inv] raises on a zero determinant and returns the
    inverse otherwise. *)
Lemma inv_real (m : mat3 R) :
  inv m = if feqb (det m) (of_Z 0) then Err LinAlgError
          else Ok (mdivs (adjugate m) (det m)).
Proof. reflexivity. Qed.

(** Over the reals, the estimation of an estimator with all its segments
    comes to [outcome]: the record of the formulas, or the first error on
    the way. *)
Lemma compute_outcome (self : FerrarisCalibration R) :
  well_formed self →
  compute_calibration_matrix self =
    match outcome self with
    | Ok v => Ok (ferraris_record v)
    | Err e => Err e
    end.
Proof.
  intros (Hpresent & Hx & Hy & Hz).
  destruct self as [axp axa ayp aya azp aza gxp gxa gyp gya gzp gza
                    axr ayr azr gxr gyr gzr sr g ea].
  unfold segments in Hpresent. simpl in Hpresent, Hx, Hy, Hz.
  rewrite !Forall_cons in Hpresent.
  destruct Hpresent as ([axp' ->] & [axa' ->] & [ayp' ->] & [aya' ->] & [azp' ->] & [aza' ->] &
    [axr' ->] & [ayr' ->] & [azr' ->] &
    [gxp' ->] & [gxa' ->] & [gyp' ->] & [gya' ->] & [gzp' ->] & [gza' ->] &
    [gxr' ->] & [gyr' ->] & [gzr' ->] & _).
  simpl in Hx, Hy, Hz.
  unfold compute_calibration_matrix.
  rewrite construct_blank.
  cbn [bind np_mean acc_x_p acc_x_a acc_y_p acc_y_a acc_z_p acc_z_a
       gyr_x_p gyr_x_a gyr_y_p gyr_y_a gyr_z_p gyr_z_a
       acc_x_rot acc_y_rot acc_z_rot gyr_x_rot gyr_y_rot gyr_z_rot
       sampling_rate grav expected_angle].
  set (self := {| acc_x_p := Some axp'; sampling_rate := sr |}).
  unfold outcome. cbn [grav self].
  unfold py_div.
  destruct (feqb _ (of_Z 0)) eqn:Hgrav; [reflexivity|]. cbn [bind].
  rewrite scale_then_diag.
  change (np_diag_matrix (np_sqrt (np_diag (mdivs _ _)))) with (formula_K_a self).
  rewrite (inv_real (formula_K_a self)).
  destruct (feqb (det (formula_K_a self)) (of_Z 0)) eqn:HKa; [reflexivity|]. cbn [bind].
  rewrite mdivs_matmul.
  change (matmul (mdivs (adjugate (formula_K_a self)) _) (mdivs _ _))
    with (formula_R_a self).
  change (np_diag (mdivs (madd _ _) (of_Z 2))) with (formula_b_a self).
  rewrite np_vstack_six. cbn [bind].
  change (np_mean_rows (gxp' ++ _)) with (formula_b_g self).
  change (mdivs (msub _ _) (fmul (of_Z 2) g)) with (formula_K_ga self).
  set (cal_mat := setattr _ "K_ga" _).
  rewrite !(calibrate_acc_set cal_mat (formula_R_a self) (formula_K_a self) (formula_b_a self))
    by reflexivity.
  rewrite (inv_real (formula_K_a self)), (inv_real (formula_R_a self)), HKa.
  destruct (feqb (det (formula_R_a self)) (of_Z 0)) eqn:HRa; [reflexivity|]. cbn [bind].
  change (mdivs (adjugate (formula_R_a self)) _) with (inverse (formula_R_a self)).
  change (mdivs (adjugate (formula_K_a self)) _) with (inverse (formula_K_a self)).
  rewrite !acc_calibrated_product.
  rewrite !(calibrate_gyro_offsets_set cal_mat (formula_b_g self) (formula_K_ga self))
    by (reflexivity || (unfold acc_calibrated; by rewrite length_fmap)).
  cbn [bind].
  change (zip_with _ gxr' _) with (gyro_offset_free self (Some gxr') (Some axr')).
  change (zip_with _ gyr' _) with (gyro_offset_free self (Some gyr') (Some ayr')).
  change (zip_with _ gzr' _) with (gyro_offset_free self (Some gzr') (Some azr')).
  change (set_col2 _ _) with (W self).
  change (smulm ea np_identity) with (expected_angle_matrix self).
  rewrite (inv_real (expected_angle_matrix self)).
  destruct (feqb (det (expected_angle_matrix self)) (of_Z 0)) eqn:Hea; [reflexivity|].
  cbn [bind].
  change (matmul (W self) _) with (M self).
  change (np_diag_matrix (np_sqrt (np_diag (matmul (M self) _)))) with (formula_K_g self).
  rewrite (inv_real (formula_K_g self)).
  destruct (feqb (det (formula_K_g self)) (of_Z 0)) eqn:HKg; [reflexivity|].
  cbn [bind].
  change (matmul (mdivs (adjugate (formula_K_g self)) _) (M self)) with (formula_R_g self).
  reflexivity.
Qed.

Section RealEstimation.
Local Open Scope R_scope.
Variable self : FerrarisCalibration R.

Lemma gravity_test : feqb (fmul (of_Z 4) (fmul (grav self) (grav self))) (of_Z 0) = false
                     ↔ grav self ≠ 0.
Proof.
  rewrite real_zero_test. simpl. split; [intros Hne Hz; apply Hne; rewrite Hz; ring|].
  intros Hne [?|[?|?]%Rmult_integral]%Rmult_integral; [lra|done|done].
Qed.

Lemma expected_angle_test :
  feqb (det (expected_angle_matrix self)) (of_Z 0) = false ↔ expected_angle self ≠ 0.
Proof.
  rewrite real_zero_test.
  replace (det (expected_angle_matrix self))
    with (expected_angle self * expected_angle self * expected_angle self)
    by (cbv [expected_angle_matrix det smulm mmap vmap np_identity np_diag_matrix
             row0 row1 row2 vx vy vz fadd fsub fmul of_Z real_scalar]; ring).
  simpl. split; [intros Hne Hz; apply Hne; rewrite Hz; ring|].
  intros Hne [[?|?]%Rmult_integral|?]%Rmult_integral; done.
Qed.

Lemma outcome_regular : regular self → outcome self = Ok (formula_values self).
Proof.
  intros (Hg & HKa & HRa & Hea & HKg). unfold outcome.
  rewrite (proj2 gravity_test Hg), (proj2 (real_zero_test _) HKa),
    (proj2 (real_zero_test _) HRa), (proj2 expected_angle_test Hea),
    (proj2 (real_zero_test _) HKg). done.
Qed.

Lemma outcome_singular :
  grav self ≠ 0 → ¬ regular self → outcome self = Err LinAlgError.
Proof.
  intros Hg Hsing. unfold outcome. rewrite (proj2 gravity_test Hg).
  destruct (feqb (det (formula_K_a self)) _) eqn:HKa; [done|].
  destruct (feqb (det (formula_R_a self)) _) eqn:HRa; [done|].
  destruct (feqb (det (expected_angle_matrix self)) _) eqn:Hea; [done|].
  destruct (feqb (det (formula_K_g self)) _) eqn:HKg; [done|].
  destruct Hsing. unfold regular.
  apply expected_angle_test in Hea. apply real_zero_test in HKa, HRa, HKg. done.
Qed.

Lemma outcome_returns (v : ferraris_values R) :
  outcome self = Ok v → v = formula_values self ∧ regular self.
Proof.
  unfold outcome, regular.
  destruct (feqb (fmul _ _) _) eqn:Hg; [done|].
  destruct (feqb (det (formula_K_a self)) _) eqn:HKa; [done|].
  destruct (feqb (det (formula_R_a self)) _) eqn:HRa; [done|].
  destruct (feqb (det (expected_angle_matrix self)) _) eqn:Hea; [done|].
  destruct (feqb (det (formula_K_g self)) _) eqn:HKg; [done|].
  intros [= <-]. split; [done|].
  apply gravity_test in Hg. apply expected_angle_test in Hea.
  apply real_zero_test in HKa, HRa, HKg. done.
Qed.

Lemma compute_regular :
  well_formed self → regular self →
  compute_calibration_matrix self = Ok (ferraris_record (formula_values self)).
Proof. intros Hwf Hreg. by rewrite compute_outcome, outcome_regular. Qed.

Lemma compute_singular :
  well_formed self → grav self ≠ 0 → ¬ regular self →
  compute_calibration_matrix self = Err LinAlgError.
Proof. intros Hwf Hg Hsing. by rewrite compute_outcome, outcome_singular. Qed.

Lemma compute_returns (r : obj R) :
  well_formed self → compute_calibration_matrix self = Ok r →
  r = ferraris_record (formula_values self) ∧ regular self.
Proof.
  intros Hwf. rewrite compute_outcome by done.
  destruct (outcome self) as [v|] eqn:Hout; [|done].
  intros [= <-]. by apply outcome_returns in Hout as [-> ?].
Qed.
End RealEstimation.

Lemma inverse_right (m : mat3 R) :
  det m ≠ 0%R → matmul m (inverse m) = np_identity.
Proof.
  destruct m as [[a b c] [d e f] [g h i]]. intros Hdet.
  cbv [det fadd fsub fmul of_Z real_scalar] in Hdet.
  cbv [inverse adjugate det np_identity np_diag_matrix smulv smulm vmap mmap np_diag
       mdivs vdivs matmul dot transpose col0 col1 col2 row0 row1 row2 vx vy vz
       fadd fsub fmul fdiv of_Z real_scalar].
  apply mat3_eq; apply vec3_eq; field; exact Hdet.
Qed.

Lemma inverse_is_inverse (m : mat3 R) : det m ≠ 0%R → inverse_of m (inverse m).
Proof. intros. split; [by apply inverse_left | by apply inverse_right]. Qed.

(** ** Worked inputs *)

Example example_estimation :
  compute_calibration_matrix (__init__ 100%float None None example_kwargs)
    = Ok (ferraris_record
            {| fv_acc_unit := None; fv_gyr_unit := None; fv_from_acc_unit := None;
               fv_from_gyr_unit := None; fv_comment := None;
               fv_b_a := V3 0 0 0; fv_K_a := np_identity; fv_R_a := np_identity;
               fv_b_g := V3 0 0 0; fv_K_g := np_identity; fv_R_g := np_identity;
               fv_K_ga := np_zeros |}%float).
Proof. vm_compute. reflexivity. Qed.

Lemma compute_missing_segment_raises_witness :
  raises (compute_calibration_matrix
            (__init__ 100%float None None (delete "gyr_z_rot" example_kwargs))).
Proof.
  apply (compute_missing_segment_raises 100%float None None
           (delete "gyr_z_rot" example_kwargs) "gyr_z_rot").
  - unfold _fields. simpl. rewrite !elem_of_cons. tauto.
  - reflexivity.
Defined.

(** Empty segments. With no sample in the positive static segment of the
    x axis the estimation returns a record whose accelerometer scale is
    NaN; with no sample in the rotation about x, and a rotation about y
    that is also seen on the x axis, it returns a record of finite
    numbers. *)
Lemma empty_segment_returns_record :
  let static_empty :=
    __init__ 100%float None None (<["acc_x_p" := []]> example_kwargs) in
  let rotation_empty :=
    __init__ 100%float None None
      (<["gyr_x_rot" := []]>
         (<["acc_x_rot" := []]>
            (<["gyr_y_rot" := replicate 2 (V3 18000 18000 0)%float]> example_kwargs))) in
  (acc_x_p static_empty = Some [] ∧
   ∃ r, compute_calibration_matrix static_empty = Ok r ∧
        getattr r "K_a" = Ok (PArr (Nd2 (np_diag_matrix (V3 nan nan nan))))) ∧
  (acc_x_rot rotation_empty = Some [] ∧ gyr_x_rot rotation_empty = Some [] ∧
   ∃ r, compute_calibration_matrix rotation_empty = Ok r ∧
        getattr r "K_g" = Ok (PArr (Nd2 np_identity)) ∧
        getattr r "R_g" = Ok (PArr (Nd2 (M3 (V3 0 1 0) (V3 0 1 0) (V3 0 0 1))%float))).
Proof.
  split.
  - split; [reflexivity|]. eexists. split; [vm_compute; reflexivity|].
    vm_compute. reflexivity.
  - split; [reflexivity|]. split; [reflexivity|].
    eexists. split; [vm_compute; reflexivity|].
    split; vm_compute; reflexivity.
Qed.

(** A zero expected angle given to the constructor: the estimation runs
    with 360 and returns the record of the example. *)
Lemma zero_expected_angle_is_defaulted :
  let self := __init__ 100%float None (Some 0%float) example_kwargs in
  expected_angle self = 360%float ∧
  compute_calibration_matrix self
    = compute_calibration_matrix (__init__ 100%float None None example_kwargs) ∧
  is_Ok (compute_calibration_matrix self) = true.
Proof. repeat split; vm_compute; reflexivity. Qed.

Lemma example_real_well_formed : well_formed example_real.
Proof.
  unfold well_formed. split; [|done].
  unfold segments. simpl. repeat apply Forall_cons_2; try by eexists.
  apply Forall_nil_2.
Defined.

Lemma example_float_well_formed : well_formed example_float.
Proof.
  split; [|done].
  apply Forall_forall. intros seg Hseg.
  apply list_elem_of_In in Hseg. vm_compute in Hseg.
  repeat (destruct Hseg as [<- | Hseg]; [by eexists|]). done.
Defined.

Lemma example_zero_angle_well_formed : well_formed example_zero_angle.
Proof.
  unfold well_formed. split; [|done].
  unfold segments. simpl. repeat apply Forall_cons_2; try by eexists.
  apply Forall_nil_2.
Defined.

(** ** The parameters the estimation returns *)

Lemma regular_inverses (self : FerrarisCalibration R) :
  regular self →
  inverse_of (formula_K_a self) (inverse (formula_K_a self)) ∧
  inverse_of (formula_R_a self) (inverse (formula_R_a self)) ∧
  inverse_of (smulm (expected_angle self) np_identity)
             (inverse (expected_angle_matrix self)) ∧
  inverse_of (formula_K_g self) (inverse (formula_K_g self)).
Proof.
  intros (_ & HKa & HRa & Hea & HKg).
  split; [exact (inverse_is_inverse _ HKa)|].
  split; [exact (inverse_is_inverse _ HRa)|].
  split; [|exact (inverse_is_inverse _ HKg)].
  apply (inverse_is_inverse (expected_angle_matrix self)).
  by apply real_zero_test, expected_angle_test.
Qed.

(** C1 (as amended): over the reals, for an estimator with all its segments, with [U_p]
    and [U_n] the matrices whose columns are the means of the positive and
    negative static segments: the estimation returns a record exactly when
    it is regular (gravity not zero, no singular matrix to invert), and in
    the record [b_a] is the diagonal of [(U_p + U_n) / 2], [K_a] is the
    diagonal matrix of the square roots of the diagonal of
    [(U_p - U_n)(U_p - U_n)^T / (4 g^2)], and [R_a] is
    [K_a^-1 (U_p - U_n) / (2 g)]. *)
Theorem accelerometer_formulas (self : FerrarisCalibration R) :
  well_formed self →
  (regular self ↔ ∃ r, compute_calibration_matrix self = Ok r) ∧
  ∀ r, compute_calibration_matrix self = Ok r →
    let g := grav self in
    ∃ K_a K_a_inv,
      getattr r "b_a" = Ok (PArr (Nd1 (np_diag (mdivs (madd (U_p self) (U_n self)) 2%R)))) ∧
      K_a = np_diag_matrix
              (np_sqrt (np_diag (mdivs (matmul (msub (U_p self) (U_n self))
                                               (transpose (msub (U_p self) (U_n self))))
                                       (4 * (g * g))%R))) ∧
      getattr r "K_a" = Ok (PArr (Nd2 K_a)) ∧
      inverse_of K_a K_a_inv ∧
      getattr r "R_a"
        = Ok (PArr (Nd2 (matmul K_a_inv (mdivs (msub (U_p self) (U_n self)) (2 * g)%R)))).
Proof.
  intros Hwf. split.
  - split.
    + intros Hreg. eexists. by apply compute_regular.
    + intros [r Hr]. by apply compute_returns in Hr as [_ ?].
  - intros r Hr g. apply compute_returns in Hr as [-> Hreg]; [|done].
    exists (formula_K_a self), (inverse (formula_K_a self)).
    destruct (regular_inverses self Hreg) as (HKa & _).
    repeat split; try reflexivity; apply HKa.
Qed.

Lemma accelerometer_formulas_witness :
  (regular example_real ↔ ∃ r, compute_calibration_matrix example_real = Ok r) ∧
  ∀ r, compute_calibration_matrix example_real = Ok r →
    let g := grav example_real in
    ∃ K_a K_a_inv,
      getattr r "b_a"
        = Ok (PArr (Nd1 (np_diag (mdivs (madd (U_p example_real) (U_n example_real)) 2%R)))) ∧
      K_a = np_diag_matrix
              (np_sqrt (np_diag (mdivs (matmul (msub (U_p example_real) (U_n example_real))
                                               (transpose (msub (U_p example_real)
                                                                (U_n example_real))))
                                       (4 * (g * g))%R))) ∧
      getattr r "K_a" = Ok (PArr (Nd2 K_a)) ∧
      inverse_of K_a K_a_inv ∧
      getattr r "R_a"
        = Ok (PArr (Nd2 (matmul K_a_inv
                           (mdivs (msub (U_p example_real) (U_n example_real)) (2 * g)%R)))).
Proof. apply (accelerometer_formulas example_real example_real_well_formed). Defined.

(** In binary64 the record is not the formula: where the gravity is 3.5,
    an ideal sensor has the scale 1 by the formula, the square root of
    [49 / 49], and 0.99999999999999989 in the record, because the code
    multiplies by the rounded [1 / (4 g^2)]. *)
Lemma accelerometer_scale_is_rounded :
  let self := __init__ 100%float (Some 3.5%float) None (ideal_kwargs 3.5) in
  let k := 0x1.fffffffffffffp-1%float in
  U_p self = np_diag_matrix (V3 3.5 3.5 3.5)%float ∧
  U_n self = np_diag_matrix (V3 (-3.5) (-3.5) (-3.5))%float ∧
  formula_K_a self = np_identity ∧
  ∃ r, compute_calibration_matrix self = Ok r ∧
       getattr r "K_a" = Ok (PArr (Nd2 (np_diag_matrix (V3 k k k)))) ∧
       getattr r "K_a" ≠ Ok (PArr (Nd2 (formula_K_a self))).
Proof.
  intros self k.
  split; [vm_compute; reflexivity|]. split; [vm_compute; reflexivity|].
  split; [vm_compute; reflexivity|].
  eexists. split; [vm_compute; reflexivity|].
  split; [vm_compute; reflexivity|].
  intros Heq. vm_compute in Heq.
  apply (f_equal (λ v, match v with
                       | Ok (PArr (Nd2 m)) => PrimFloat.eqb (vx (row0 m)) 1
                       | _ => true
                       end)) in Heq.
  vm_compute in Heq. discriminate Heq.
Qed.


(** In binary64 the order shows in the numbers: removing an offset from
    every sample and adding up is not adding up and removing the offset
    once for every sample. *)
Example correction_before_integration :
  let gyro := [V3 0x1.999999999999ap-4 0 0; V3 0x1.999999999999ap-3 0 0;
               V3 0x1.3333333333333p-2 0 0]%float in
  let b_g := (V3 0x1.999999999999ap-5 0 0)%float in
  veqb (np_sum ((λ gyro_raw, vsub gyro_raw b_g) <$> gyro))
       (vsub (np_sum gyro) (smulv 3%float b_g)) = false.
Proof. vm_compute. reflexivity. Qed.

(** ** The example over the reals *)

Section ExampleOverReals.
Local Open Scope R_scope.

Ltac real_matrix :=
  cbv [inverse adjugate det formula_b_a formula_K_a formula_R_a formula_K_ga formula_K_g
       formula_R_g D M expected_angle_matrix
       np_diag_matrix np_sqrt np_identity np_zeros
       smulv smulm vmap mmap np_diag mdivs vdivs madd msub mzip vzip vadd vsub
       matmul matvec dot transpose col0 col1 col2 row0 row1 row2 vx vy vz
       fadd fsub fmul fdiv fsqrt of_Z real_scalar];
  try apply mat3_eq; apply vec3_eq;
  try match goal with
      | |- sqrt ?e = _ => replace e with 1 by (field; lra); apply sqrt_1
      end;
  try (field; lra); try lra.

Lemma example_U_p : U_p example_real = np_diag_matrix (V3 (981/100) (981/100) (981/100)).
Proof. unfold U_p, columns, segment_mean, np_mean_rows. cbn. real_matrix. Qed.

Lemma example_U_n :
  U_n example_real = np_diag_matrix (V3 (-(981/100)) (-(981/100)) (-(981/100))).
Proof. unfold U_n, columns, segment_mean, np_mean_rows. cbn. real_matrix. Qed.

Lemma example_b_a : formula_b_a example_real = V3 0 0 0.
Proof. unfold formula_b_a. rewrite example_U_p, example_U_n. real_matrix. Qed.

Lemma example_K_a : formula_K_a example_real = np_identity.
Proof. unfold formula_K_a, D. rewrite example_U_p, example_U_n. cbn [grav example_real]. real_matrix. Qed.

Lemma example_R_a : formula_R_a example_real = np_identity.
Proof.
  unfold formula_R_a, D. rewrite example_K_a, example_U_p, example_U_n.
  cbn [grav example_real]. real_matrix.
Qed.
Lemma example_b_g : formula_b_g example_real = V3 0 0 0.
Proof. unfold formula_b_g, np_mean_rows. cbn. real_matrix. Qed.

Lemma example_K_ga : formula_K_ga example_real = np_zeros.
Proof.
  unfold formula_K_ga, U_g_p, U_g_a, columns, segment_mean, np_mean_rows. cbn. real_matrix.
Qed.

Lemma example_W : W example_real = np_diag_matrix (V3 360 360 360).
Proof.
  unfold W, columns, integrated, gyro_offset_free, acc_calibrated.
  rewrite example_b_g, example_K_ga, example_R_a, example_K_a, example_b_a.
  cbn. real_matrix.
Qed.

Lemma example_M : M example_real = np_identity.
Proof.
  unfold M, expected_angle_matrix. rewrite example_W. cbn [expected_angle example_real].
  real_matrix.
Qed.

Lemma example_K_g : formula_K_g example_real = np_identity.
Proof. unfold formula_K_g. rewrite example_M. real_matrix. Qed.

Lemma example_R_g : formula_R_g example_real = np_identity.
Proof. unfold formula_R_g. rewrite example_K_g, example_M. real_matrix. Qed.

Lemma det_identity : det (np_identity (A := R)) = 1.
Proof. cbv [det np_identity np_diag_matrix vx vy vz fadd fsub fmul of_Z real_scalar]. ring. Qed.

Lemma example_real_regular : regular example_real.
Proof.
  unfold regular.
  rewrite example_K_a, example_R_a, example_K_g, det_identity.
  cbn [grav expected_angle example_real]. repeat split; lra.
Qed.

(** The estimation of the example returns the identity calibration. *)
Lemma example_real_estimation :
  compute_calibration_matrix example_real
    = Ok (ferraris_record
            {| fv_acc_unit := None; fv_gyr_unit := None; fv_from_acc_unit := None;
               fv_from_gyr_unit := None; fv_comment := None;
               fv_b_a := V3 0 0 0; fv_K_a := np_identity; fv_R_a := np_identity;
               fv_b_g := V3 0 0 0; fv_K_g := np_identity; fv_R_g := np_identity;
               fv_K_ga := np_zeros |}).
Proof.
  rewrite (compute_regular _ example_real_well_formed example_real_regular).
  unfold formula_values.
  by rewrite example_b_a, example_K_a, example_R_a, example_b_g, example_K_g,
    example_R_g, example_K_ga.
Qed.
End ExampleOverReals.


Lemma zero_scale_singular (v : vec3 R) :
  has_zero (np_diag (np_diag_matrix v)) → det (np_diag_matrix v) = 0%R.
Proof. intros Hz. apply det_diagonal_zero. by destruct v. Qed.

(** C9 (as amended): over the reals, for an estimator with all its
    segments and a gravity that is not zero, a zero scale factor of the
    accelerometer or of the gyroscope, and a zero expected angle that
    reaches the estimation, make it raise [LinAlgError]; but a zero
    expected angle given to the constructor is replaced by 360, so that
    the expected angle of a constructed estimator is never zero. *)
Theorem degeneracy_raises_unless_defaulted (self : FerrarisCalibration R) :
  well_formed self →
  grav self ≠ 0%R →
  (has_zero (acc_scale self) ∨ has_zero (gyro_scale self) ∨ expected_angle self = 0%R →
   compute_calibration_matrix self = Err LinAlgError) ∧
  (∀ sr g kwargs, expected_angle (__init__ sr g (Some 0%R) kwargs) = 360%R) ∧
  (∀ sr g ea kwargs, expected_angle (__init__ sr g ea kwargs) ≠ 0%R).
Proof.
  intros Hwf Hg. split; [|split].
  - intros Hzero. apply compute_singular; [done..|].
    intros (_ & HKa & _ & Hea & HKg).
    destruct Hzero as [Hz | [Hz | Hz]]; [| |done].
    + by apply HKa, zero_scale_singular.
    + by apply HKg, zero_scale_singular.
  - intros sr g kwargs. simpl. by destruct (Req_dec_T 0 (IZR 0)).
  - intros sr g ea kwargs.
    apply real_zero_test, (float_or_nonzero ea EXPECTED_ANGLE), real_zero_test.
    unfold EXPECTED_ANGLE. simpl. lra.
Qed.

Lemma degeneracy_raises_unless_defaulted_witness :
  (has_zero (acc_scale example_zero_angle) ∨ has_zero (gyro_scale example_zero_angle) ∨
   expected_angle example_zero_angle = 0%R →
   compute_calibration_matrix example_zero_angle = Err LinAlgError) ∧
  (∀ sr g kwargs, expected_angle (__init__ sr g (Some 0%R) kwargs) = 360%R) ∧
  (∀ sr g ea kwargs, expected_angle (__init__ sr g ea kwargs) ≠ 0%R).
Proof.
  apply (degeneracy_raises_unless_defaulted example_zero_angle
           example_zero_angle_well_formed).
  simpl. lra.
Defined.

Example zero_expected_angle_raises :
  compute_calibration_matrix example_zero_angle = Err LinAlgError.
Proof.
  apply compute_singular; [exact example_zero_angle_well_formed | simpl; lra |].
  by intros (_ & _ & _ & Hea & _).
Qed.

(** * Further properties *)

(** ** The order of the enumeration, and abstract classes *)

(** Where a class stands in the enumeration, all its descendants stand
    before it. *)
Lemma get_subclasses_descendants_first (root : pyclass) :
  ∀ pre c post, _get_subclasses root = pre ++ c :: post →
                ∀ d, d ∈ _get_subclasses c → d ∈ pre.
Proof.
  induction root as [n t fs ps subs IH] using pyclass_ind'. simpl.
  induction IH as [|s subs IHs _ IHsubs]; intros pre c post Heq d Hd; simpl in Heq.
  - by destruct pre.
  - rewrite <- app_assoc in Heq. simpl in Heq.
    apply app_eq_inv in Heq as [(k & Hs & Hrest) | (k & -> & Hrest)].
    + (* [c] stands among the descendants of [s] *)
      destruct k as [|c' k].
      * simpl in Hrest. rewrite app_nil_r in Hs. subst pre.
        injection Hrest as <- _. done.
      * injection Hrest as <- Hk. by apply (IHs pre c k).
    + destruct k as [|s' k]; simpl in Hrest.
      * (* [c] is [s] itself *)
        injection Hrest as <- _. by rewrite app_nil_r.
      * (* [c] stands after [s] *)
        injection Hrest as <- Hrest. apply elem_of_app. right.
        apply elem_of_cons. right. by apply (IHsubs k c post).
Qed.

Lemma next_match_returns {A : Type} (xs : list pyclass) (tag : string) (c : pyclass) :
  next_match xs (@JStr A tag) = Ok c →
  ∃ pre post, xs = pre ++ c :: post ∧ cls_CAL_TYPE c = Some tag ∧
              Forall (λ x, cls_CAL_TYPE x ≠ Some tag) pre.
Proof.
  induction xs as [|x xs IH]; simpl; [done|].
  destruct (cls_CAL_TYPE x) as [t|] eqn:Ht; [|done].
  destruct (String.eqb_spec t tag) as [-> | Hne].
  - intros [= <-]. exists [], xs. by repeat split.
  - intros (pre & post & -> & Hc & Hpre)%IH.
    exists (x :: pre), post. repeat split; [done|].
    constructor; [congruence | done].
Qed.

(** X1: the lookup by tag is deepest first: the class it returns has no
    descendant with the same tag, so that of a class and a subclass that
    carry one tag it is never the parent that is returned. *)
Theorem find_subclass_deepest_first {A : Type}
    (registry : list pyclass) (tag : string) (c : pyclass) :
  find_subclass_from_cal_type registry (@JStr A tag) = Ok c →
  descends c (CalibrationInfo registry) ∧
  cls_CAL_TYPE c = Some tag ∧
  ∀ d, descends d c → cls_CAL_TYPE d ≠ Some tag.
Proof.
  unfold find_subclass_from_cal_type.
  intros (pre & post & Heq & Hc & Hpre)%next_match_returns.
  split; [|split; [done|]].
  - apply get_subclasses_descends. rewrite Heq. apply elem_of_app. right. left.
  - intros d Hd%get_subclasses_descends.
    rewrite Forall_forall in Hpre. apply Hpre.
    by apply (get_subclasses_descendants_first _ _ _ _ Heq).
Qed.

Lemma find_subclass_deepest_first_witness :
  descends FerrarisVariant (CalibrationInfo [FerrarisWithVariant]) ∧
  cls_CAL_TYPE FerrarisVariant = Some "Ferraris" ∧
  ∀ d, descends d FerrarisVariant → cls_CAL_TYPE d ≠ Some "Ferraris".
Proof.
  apply (find_subclass_deepest_first (A := float) [FerrarisWithVariant] "Ferraris").
  reflexivity.
Defined.

(** A subclass that keeps the tag of its parent takes the parent's place. *)
Example find_untagged_child :
  find_subclass_from_cal_type [FerrarisWithVariant] (@JStr float "Ferraris")
    = Ok FerrarisVariant.
Proof. reflexivity. Qed.

Lemma next_match_attribute_error {A : Type} (xs : list pyclass) (tag : string) :
  next_match xs (@JStr A tag) = Err AttributeError ↔
  ∃ pre x post, xs = pre ++ x :: post ∧ cls_CAL_TYPE x = None ∧
                Forall (λ y, cls_CAL_TYPE y ≠ Some tag) pre.
Proof.
  induction xs as [|x xs IH]; simpl.
  - split; [done|]. intros (pre & y & post & Heq & _). by destruct pre.
  - destruct (cls_CAL_TYPE x) as [t|] eqn:Ht.
    + destruct (String.eqb_spec t tag) as [-> | Hne].
      * split; [done|]. intros ([|y pre] & z & post & Heq & Hz & Hpre).
        -- injection Heq as -> _. congruence.
        -- injection Heq as -> _. by inversion Hpre.
      * rewrite IH. split.
        -- intros (pre & z & post & -> & Hz & Hpre).
           exists (x :: pre), z, post. repeat split; [done|].
           constructor; [congruence | done].
        -- intros ([|y pre] & z & post & Heq & Hz & Hpre).
           ++ injection Heq as -> _. congruence.
           ++ injection Heq as -> ->. exists pre, z, post.
              repeat split; [done|]. by inversion Hpre.
    + split; [|done]. intros _. exists [], x, xs. by repeat split.
Qed.

(** X2: the lookup raises [AttributeError] exactly when the enumeration
    reaches a class that does not define [CAL_TYPE] before it reaches a
    class with the tag; a class with the tag further on is not found. *)
Theorem find_subclass_abstract_class {A : Type}
    (registry : list pyclass) (tag : string) :
  find_subclass_from_cal_type registry (@JStr A tag) = Err AttributeError ↔
  ∃ pre x post,
    _get_subclasses (CalibrationInfo registry) = pre ++ x :: post ∧
    cls_CAL_TYPE x = None ∧
    Forall (λ y, cls_CAL_TYPE y ≠ Some tag) pre.
Proof. apply next_match_attribute_error. Qed.

Example find_after_abstract_class :
  find_subclass_from_cal_type [AbstractCalibrationInfo; FerrarisCalibrationInfo]
    (@JStr float "Ferraris") = Err AttributeError.
Proof. reflexivity. Qed.

(** ** Records of any class and their documents *)

Section Documents.
Context {A : Type}.

Lemma asdict_from_lookup (self : obj A) (fs : list field) (d : gmap string (pyval A)) :
  (∀ f, f ∈ fs → is_Some (obj_attrs self !! field_name f)) →
  ∃ d', asdict_from self fs d = Ok d' ∧
        ∀ k, d' !! k = if decide (k ∈ field_name <$> fs) then obj_attrs self !! k else d !! k.
Proof.
  revert d. induction fs as [|f fs IH]; intros d Hall; simpl.
  - by exists d.
  - destruct (Hall f) as [v Hv]; [left|]. unfold getattr. rewrite Hv. simpl.
    destruct (IH (<[field_name f := v]> d)) as (d' & -> & Hd').
    { intros g Hg. apply Hall. by right. }
    exists d'. split; [done|]. intros k. rewrite Hd'.
    destruct (decide (k ∈ field_name <$> fs)) as [Hin | Hout].
    + by rewrite decide_True by by right.
    + destruct (decide (k = field_name f)) as [-> | Hne].
      * rewrite decide_True by left. by rewrite lookup_insert_eq.
      * rewrite decide_False by (rewrite elem_of_cons; tauto).
        by rewrite lookup_insert_ne.
Qed.

Lemma asdict_record (self : obj A) : is_record self → asdict self = Ok (obj_attrs self).
Proof.
  intros Hrec. unfold asdict, fields.
  destruct (asdict_from_lookup self (cls_fields (obj_class self)) ∅) as (d & -> & Hd).
  { intros f Hf. apply Hrec. unfold field_names. by apply list_elem_of_fmap_2. }
  f_equal. apply map_eq. intros k. rewrite Hd.
  destruct (decide _) as [Hin | Hout]; [done|].
  rewrite lookup_empty. symmetry. apply eq_None_not_Some. by intros Hs%Hrec.
Qed.

Lemma to_json_record (self : obj A) (t : string) :
  is_record self → cls_CAL_TYPE (obj_class self) = Some t →
  to_json self = Ok (NumpyEncoder <$> <["cal_type" := PStr t]> (obj_attrs self)).
Proof.
  intros Hrec Ht. unfold to_json, _to_list_dict, CAL_TYPE.
  by rewrite asdict_record, Ht.
Qed.

Lemma lookup_fields_map {V : Type} (g : string → V) (fs : list field) (k : string) :
  (list_to_map ((λ f, (field_name f, g (field_name f))) <$> fs) : gmap string V) !! k
  = if decide (k ∈ field_name <$> fs) then Some (g k) else None.
Proof.
  induction fs as [|f fs IH]; [done|].
  rewrite !fmap_cons, list_to_map_cons.
  destruct (decide (k = field_name f)) as [-> | Hne].
  - rewrite lookup_insert_eq. by rewrite decide_True by left.
  - rewrite lookup_insert_ne by done. rewrite IH.
    destruct (decide (k ∈ field_name <$> fs)) as [Hin | Hout].
    + by rewrite decide_True by by right.
    + by rewrite decide_False by (rewrite elem_of_cons; tauto).
Qed.

(** The generated constructor. *)
Lemma construct_returns (cls : pyclass) (kwargs : gmap string (pyval A)) (o : obj A) :
  construct cls kwargs = Ok o ↔
  (∀ k, is_Some (kwargs !! k) → k ∈ field_names cls) ∧
  obj_class o = cls ∧
  ∀ k, obj_attrs o !! k =
         if decide (k ∈ field_names cls) then Some (default PNone (kwargs !! k)) else None.
Proof.
  unfold construct. destruct (bool_decide _) eqn:Hkeys.
  - apply bool_decide_eq_true in Hkeys. rewrite map_Forall_lookup in Hkeys. split.
    + intros [= <-]. split; [|split; [done|]].
      * intros k [v Hv]. by apply (Hkeys k v).
      * intros k. simpl.
        apply (lookup_fields_map (λ n, default PNone (kwargs !! n))).
    + intros (_ & Hcls & Hattrs). destruct o as [c attrs]. simpl in *. subst c.
      f_equal. f_equal. apply map_eq. intros k. rewrite Hattrs.
      apply (lookup_fields_map (λ n, default PNone (kwargs !! n))).
  - apply bool_decide_eq_false in Hkeys. split; [done|].
    intros (Hk & _). destruct Hkeys. apply map_Forall_lookup. intros k v Hv.
    apply Hk. by rewrite Hv.
Qed.

Lemma construct_is_record (cls : pyclass) (kwargs : gmap string (pyval A)) (o : obj A) :
  construct cls kwargs = Ok o → is_record o.
Proof.
  intros (_ & Hcls & Hattrs)%construct_returns k. rewrite Hattrs, Hcls.
  destruct (decide _); [by split; [|eexists] | by split; [intros []|]].
Qed.

Lemma array_items_returns (paras : list string) (list_dict : gmap string (json A))
    (acc acc' : gmap string (pyval A)) :
  array_items paras list_dict acc = Ok acc' ↔
  (∀ k, k ∈ paras → ∃ j a, list_dict !! k = Some j ∧ np_array j = Ok a) ∧
  ∀ k, acc' !! k = if decide (k ∈ paras) then array_of list_dict k else acc !! k.
Proof.
  revert acc. induction paras as [|p paras IH]; intros acc; simpl.
  - split.
    + intros [= <-]. split; [by intros k ?%elem_of_nil | done].
    + intros [_ Hacc]. f_equal. apply map_eq. intros k. by rewrite Hacc.
  - destruct (list_dict !! p) as [j|] eqn:Hj.
    2:{ split; [done|]. intros [Hall _]. destruct (Hall p) as (?&?&?&?); [left|congruence]. }
    destruct (np_array j) as [a|e] eqn:Ha; simpl.
    2:{ split; [done|]. intros [Hall _]. destruct (Hall p) as (?&?&?&?); [left|congruence]. }
    rewrite IH. split.
    + intros [Hall Hacc]. split.
      * intros k [-> | Hk]%elem_of_cons; [by eauto | by apply Hall].
      * intros k. rewrite Hacc.
        destruct (decide (k ∈ paras)) as [Hin | Hout].
        -- by rewrite decide_True by by right.
        -- destruct (decide (k = p)) as [-> | Hne].
           ++ rewrite decide_True by left. rewrite lookup_insert_eq.
              unfold array_of. rewrite Hj. simpl. by rewrite Ha.
           ++ rewrite decide_False by (rewrite elem_of_cons; tauto).
              by rewrite lookup_insert_ne.
    + intros [Hall Hacc]. split.
      * intros k Hk. apply Hall. by right.
      * intros k. rewrite Hacc.
        destruct (decide (k ∈ paras)) as [Hin | Hout].
        -- by rewrite decide_True by by right.
        -- destruct (decide (k = p)) as [-> | Hne].
           ++ rewrite decide_True by left. rewrite lookup_insert_eq.
              unfold array_of. rewrite Hj. simpl. by rewrite Ha.
           ++ rewrite decide_False by (rewrite elem_of_cons; tauto).
              by rewrite lookup_insert_ne.
Qed.

Lemma omap_nil {X Y : Type} (f : X → option Y) (l : list X) :
  omap f l = [] ↔ ∀ x, x ∈ l → f x = None.
Proof.
  induction l as [|x l IH]; simpl.
  - split; [by intros _ x ?%elem_of_nil | done].
  - destruct (f x) eqn:Hx.
    + split; [done|]. intros Hall. specialize (Hall x). rewrite Hx in Hall.
      discriminate Hall. left.
    + rewrite IH. split.
      * intros Hall y [-> | Hy]%elem_of_cons; [done | by apply Hall].
      * intros Hall y Hy. apply Hall. by right.
Qed.

(** A dictionary of results is returned exactly when every entry is one. *)
Lemma dict_sequence_returns {V : Type} (m : gmap string (result V)) (m' : gmap string V) :
  dict_sequence m = Ok m' ↔ m = Ok <$> m'.
Proof.
  unfold dict_sequence.
  destruct (omap _ (map_to_list m)) as [|e es] eqn:Herrs.
  - rewrite omap_nil in Herrs. split.
    + intros [= <-]. apply map_eq. intros k. rewrite lookup_fmap, lookup_omap.
      destruct (m !! k) as [[v|e]|] eqn:Hk; simpl; try done.
      apply elem_of_map_to_list in Hk. by apply Herrs in Hk.
    + intros ->. f_equal. apply map_eq. intros k.
      rewrite lookup_omap, lookup_fmap. by destruct (m' !! k).
  - split; [done|]. intros ->.
    assert (e ∈ e :: es) as He by left. rewrite <- Herrs in He.
    apply list_elem_of_omap in He as ([k r] & Hkr & Hr).
    apply elem_of_map_to_list in Hkr. rewrite lookup_fmap in Hkr.
    simpl in Hr. by destruct (m' !! k); simplify_eq/=.
Qed.

Lemma passthrough_returns (j : json A) (v : pyval A) :
  passthrough j = Ok v ↔ (j = JNull ∧ v = PNone) ∨ ∃ s, j = JStr s ∧ v = PStr s.
Proof.
  destruct j as [|s|x|l]; simpl.
  - split; [intros [= <-]; by left | intros [[_ ->] | (? & [=] & _)]; done].
  - split; [intros [= <-]; right; by eexists | intros [[[=] _] | (? & [= <-] & ->)]; done].
  - split; [done | intros [[[=] _] | (? & [=] & _)]].
  - split; [done | intros [[[=] _] | (? & [=] & _)]].
Qed.

Lemma array_items_total (paras : list string) (list_dict : gmap string (json A))
    (acc : gmap string (pyval A)) :
  (∀ k, k ∈ paras → ∃ j a, list_dict !! k = Some j ∧ np_array j = Ok a) →
  ∃ acc', array_items paras list_dict acc = Ok acc'.
Proof.
  revert acc. induction paras as [|p paras IH]; intros acc Hall; simpl; [by eexists|].
  destruct (Hall p) as (j & a & -> & ->); [left|]. simpl.
  apply IH. intros k Hk. apply Hall. by right.
Qed.

(** The keyword arguments [_from_list_dict] passes to the constructor. *)
Lemma from_list_dict_kwargs (ps : list string) (list_dict : gmap string (json A))
    (arrays others : gmap string (pyval A)) :
  (∀ k, arrays !! k = if decide (k ∈ ps) then array_of list_dict k
                       else (∅ : gmap string (pyval A)) !! k) →
  passthrough <$> filter (λ kv, kv.1 ∉ ps) list_dict = Ok <$> others →
  ∀ k, (arrays ∪ others) !! k =
         if decide (k ∈ ps) then array_of list_dict k
         else match list_dict !! k with
              | Some JNull => Some PNone
              | Some (JStr s) => Some (PStr s)
              | _ => None
              end.
Proof.
  intros Harrays Hothers k.
  assert ((passthrough <$> filter (λ kv, kv.1 ∉ ps) list_dict) !! k = (Ok <$> others) !! k)
    as Hk by by rewrite Hothers.
  rewrite !lookup_fmap, map_lookup_filter in Hk.
  destruct (decide (k ∈ ps)) as [Hin | Hout].
  - assert (others !! k = None) as Hnone.
    { destruct (list_dict !! k) as [j|]; simpl in Hk.
      - rewrite option_guard_False in Hk by (simpl; tauto). simpl in Hk.
        by destruct (others !! k).
      - by destruct (others !! k). }
    rewrite lookup_union, Harrays, Hnone, decide_True by done.
    by destruct (array_of list_dict k).
  - rewrite lookup_union, Harrays, decide_False, lookup_empty by done.
    rewrite (left_id None _).
    destruct (list_dict !! k) as [j|]; simpl in Hk.
    + rewrite option_guard_True in Hk by done. simpl in Hk.
      destruct (others !! k) as [v|]; [|done]. injection Hk as Hk.
      apply passthrough_returns in Hk as [[-> ->] | (s & -> & ->)]; done.
    + by destruct (others !! k).
Qed.

(** In the model [_from_list_dict] returns a record exactly when the
    class declares its parameters, every parameter is an entry of the
    document of one of the shapes of [ndarray], every other entry is null
    or a string, and every entry is a field of the class. *)
Lemma from_list_dict_returns (cls : pyclass) (list_dict : gmap string (json A)) (o : obj A) :
  _from_list_dict cls list_dict = Ok o ↔
  ∃ ps, cls_cal_paras cls = Some ps ∧
    (∀ k, k ∈ ps → ∃ j a, list_dict !! k = Some j ∧ np_array j = Ok a) ∧
    (∀ k j, k ∉ ps → list_dict !! k = Some j → j = JNull ∨ ∃ s, j = JStr s) ∧
    (∀ k, is_Some (list_dict !! k) → k ∈ field_names cls) ∧
    obj_class o = cls ∧
    ∀ k, obj_attrs o !! k =
           if decide (k ∈ field_names cls) then
             if decide (k ∈ ps) then array_of list_dict k
             else Some (match list_dict !! k with Some (JStr s) => PStr s | _ => PNone end)
           else None.
Proof.
  unfold _from_list_dict, cal_paras.
  destruct (cls_cal_paras cls) as [ps|]; simpl; [|split; [done | by intros (? & [=] & _)]].
  split.
  - intros Hok.
    destruct (array_items ps list_dict ∅) as [arrays|] eqn:Harrays; [|done].
    apply array_items_returns in Harrays as [Hparas Harrays]. simpl in Hok.
    destruct (dict_sequence _) as [others|] eqn:Hothers; [|done].
    apply dict_sequence_returns in Hothers. simpl in Hok.
    pose proof (from_list_dict_kwargs ps list_dict arrays others Harrays Hothers) as Hkw.
    apply construct_returns in Hok as (Hkeys & Hcls & Hattrs).
    exists ps. split; [done|]. split; [done|].
    assert (∀ k j, k ∉ ps → list_dict !! k = Some j → j = JNull ∨ ∃ s, j = JStr s) as Hplain.
    { intros k j Hk Hj.
      assert ((passthrough <$> filter (λ kv, kv.1 ∉ ps) list_dict) !! k = (Ok <$> others) !! k)
        as Hlook by by rewrite Hothers.
      rewrite !lookup_fmap, map_lookup_filter, Hj in Hlook. simpl in Hlook.
      rewrite option_guard_True in Hlook by done. simpl in Hlook.
      destruct (others !! k) as [v|]; [|done]. injection Hlook as Hlook.
      apply passthrough_returns in Hlook as [[-> _] | (s & -> & _)]; eauto. }
    split; [done|]. split; [|split; [done|]].
    + intros k [j Hj]. apply Hkeys. rewrite Hkw.
      destruct (decide (k ∈ ps)) as [Hin | Hout].
      * destruct (Hparas k Hin) as (j' & a & Hj' & Ha). unfold array_of.
        rewrite Hj'. simpl. by rewrite Ha.
      * rewrite Hj. by destruct (Hplain k j Hout Hj) as [-> | [s ->]].
    + intros k. rewrite Hattrs, Hkw.
      destruct (decide (k ∈ field_names cls)); [|done].
      destruct (decide (k ∈ ps)) as [Hin | Hout].
      * destruct (Hparas k Hin) as (j' & a & Hj' & Ha). unfold array_of.
        rewrite Hj'. simpl. by rewrite Ha.
      * destruct (list_dict !! k) as [j|] eqn:Hj; [|done].
        by destruct (Hplain k j Hout Hj) as [-> | [s ->]].
  - intros (ps' & [= <-] & Hparas & Hplain & Hkeys & Hcls & Hattrs).
    destruct (array_items_total ps list_dict ∅ Hparas) as [arrays Harrays].
    rewrite Harrays. simpl. apply array_items_returns in Harrays as [_ Harrays].
    set (others := omap (λ j, match passthrough j with Ok v => Some v | Err _ => None end)
                     (filter (λ kv : string * json A, kv.1 ∉ ps) list_dict)).
    assert (passthrough <$> filter (λ kv, kv.1 ∉ ps) list_dict = Ok <$> others) as Hothers.
    { apply map_eq. intros k. unfold others.
      rewrite !lookup_fmap, lookup_omap, map_lookup_filter.
      destruct (list_dict !! k) as [j|] eqn:Hj; simpl; [|done].
      destruct (decide (k ∉ ps)) as [Hout | Hin].
      - rewrite option_guard_True by done. simpl.
        by destruct (Hplain k j Hout Hj) as [-> | [s ->]].
      - by rewrite option_guard_False by done. }
    apply dict_sequence_returns in Hothers as Hseq. rewrite Hseq. simpl.
    pose proof (from_list_dict_kwargs ps list_dict arrays others Harrays Hothers) as Hkw.
    apply construct_returns. split; [|split; [done|]].
    + intros k. rewrite Hkw. intros Hsome. apply Hkeys.
      destruct (decide (k ∈ ps)) as [Hin | Hout].
      * destruct (Hparas k Hin) as (j & a & -> & _). by eexists.
      * destruct (list_dict !! k); [by eexists | by destruct Hsome].
    + intros k. rewrite Hattrs, Hkw.
      destruct (decide (k ∈ field_names cls)); [|done].
      destruct (decide (k ∈ ps)) as [Hin | Hout].
      * destruct (Hparas k Hin) as (j' & a & Hj' & Ha). unfold array_of.
        rewrite Hj'. simpl. by rewrite Ha.
      * destruct (list_dict !! k) as [j|] eqn:Hj; [|done].
        by destruct (Hplain k j Hout Hj) as [-> | [s ->]].
Qed.

Lemma np_array_tolist (a : ndarray A) : np_array (tolist a) = Ok a.
Proof. by destruct a as [|[]|[[] [] []]]. Qed.

(** In the model [from_json] returns a record exactly when the document
    has a tag that resolves to a class with declared parameters and, the
    tag left aside, every entry of the document is a field of that class,
    every parameter of the class is an entry of one of the shapes of
    [ndarray], and every other entry is null or a string. *)
Lemma from_json_spec (registry : list pyclass) (json_str : gmap string (json A))
    (o : obj A) :
  from_json registry json_str = Ok o ↔
  let raw_json := delete "cal_type" json_str in
  let cls := obj_class o in
  ∃ tag ps,
    json_str !! "cal_type" = Some tag ∧
    find_subclass_from_cal_type registry tag = Ok cls ∧
    cls_cal_paras cls = Some ps ∧
    (∀ k, is_Some (raw_json !! k) → k ∈ field_names cls) ∧
    (∀ k, k ∈ ps → ∃ j a, raw_json !! k = Some j ∧ np_array j = Ok a ∧
                          obj_attrs o !! k = Some (PArr a)) ∧
    (∀ k j, k ∉ ps → raw_json !! k = Some j → j = JNull ∨ ∃ s, j = JStr s) ∧
    (∀ k, k ∈ field_names cls → k ∉ ps →
          obj_attrs o !! k
            = Some (match raw_json !! k with Some (JStr s) => PStr s | _ => PNone end)) ∧
    is_record o.
Proof.
  unfold from_json. simpl. split.
  - destruct (json_str !! "cal_type") as [tag|]; [|done].
    destruct (find_subclass_from_cal_type registry tag) as [subclass|] eqn:Hfind; [|done].
    simpl. intros (ps & Hps & Hparas & Hplain & Hkeys & <- & Hattrs)%from_list_dict_returns.
    exists tag, ps. repeat split; try done.
    + intros k Hk. destruct (Hparas k Hk) as (j & a & Hj & Ha). exists j, a.
      repeat split; [done..|]. rewrite Hattrs, decide_True, decide_True; try done.
      * unfold array_of. rewrite Hj. simpl. by rewrite Ha.
      * apply Hkeys. by rewrite Hj.
    + intros k Hk Hout. by rewrite Hattrs, decide_True, decide_False.
    + intros [v Hv]. rewrite Hattrs in Hv. by destruct (decide _).
    + intros Hk. rewrite Hattrs, decide_True by done. destruct (decide _); [|by eexists].
      destruct (Hparas k) as (j & a & Hj & Ha); [done|]. unfold array_of.
      rewrite Hj. simpl. rewrite Ha. by eexists.
  - intros (tag & ps & -> & -> & Hps & Hkeys & Hparas & Hplain & Hothers & Hrec). simpl.
    apply from_list_dict_returns. exists ps. repeat split; try done.
    + intros k Hk. destruct (Hparas k Hk) as (j & a & Hj & Ha & _). eauto.
    + intros k. destruct (decide (k ∈ field_names (obj_class o))) as [Hin | Hout].
      * destruct (decide (k ∈ ps)) as [Hk | Hk]; [|by apply Hothers].
        destruct (Hparas k Hk) as (j & a & Hj & Ha & ->). unfold array_of.
        rewrite Hj. simpl. by rewrite Ha.
      * apply eq_None_not_Some. by intros ?%Hrec.
Qed.

(** X3: [from_json] is strict about the keys of a document: it returns a
    record only for a document with a tag that resolves to a class, all of
    whose other keys are fields of that class, and that has an entry for
    every parameter of the class; an unknown key, a missing parameter or a
    missing tag never gives a record. The record it returns is of the
    class of the tag and has an attribute for every field. *)
Theorem from_json_strict (registry : list pyclass) (json_str : gmap string (json A))
    (o : obj A) :
  from_json registry json_str = Ok o →
  (∃ tag, json_str !! "cal_type" = Some tag ∧
          find_subclass_from_cal_type registry tag = Ok (obj_class o)) ∧
  is_record o ∧
  (∀ k, is_Some (json_str !! k) → k = "cal_type" ∨ k ∈ field_names (obj_class o)) ∧
  ∃ ps, cls_cal_paras (obj_class o) = Some ps ∧
    ∀ k, k ∈ ps →
         k ≠ "cal_type" ∧ is_Some (json_str !! k) ∧ k ∈ field_names (obj_class o).
Proof.
  intros (tag & ps & Htag & Hfind & Hps & Hkeys & Hparas & _ & _ & Hrec)%from_json_spec.
  split; [by exists tag|]. split; [done|]. split.
  - intros k Hk. destruct (decide (k = "cal_type")) as [-> | Hne]; [by left|].
    right. apply Hkeys. by rewrite lookup_delete_ne.
  - exists ps. split; [done|].
    intros k Hk. destruct (Hparas k Hk) as (j & a & Hj & _).
    destruct (decide (k = "cal_type")) as [-> | Hne].
    + by rewrite lookup_delete_eq in Hj.
    + split; [done|]. split.
      * rewrite lookup_delete_ne in Hj by done. by rewrite Hj.
      * apply Hkeys. by rewrite Hj.
Qed.

(** What [to_json] writes and [from_json] reads back. *)
Lemma from_json_to_json (registry : list pyclass) (o r : obj A) (t : string) (ps : list string) :
  is_record o →
  cls_CAL_TYPE (obj_class o) = Some t →
  find_subclass_from_cal_type registry (@JStr A t) = Ok (obj_class o) →
  cls_cal_paras (obj_class o) = Some ps →
  "cal_type" ∉ field_names (obj_class o) →
  (∀ k, k ∈ ps → obj_attrs o !! k = Some PNone ∨ ∃ a, obj_attrs o !! k = Some (PArr a)) →
  (∀ k v, k ∉ ps → obj_attrs o !! k = Some v → v = PNone ∨ ∃ s, v = PStr s) →
  obj_class r = obj_class o →
  (∀ k, obj_attrs r !! k =
          if decide (k ∈ ps)
          then match obj_attrs o !! k with Some PNone => Some (PArr Nd0None) | x => x end
          else obj_attrs o !! k) →
  ∃ json_str, to_json o = Ok json_str ∧ from_json registry json_str = Ok r.
Proof.
  intros Hrec Ht Hfind Hps Htag Hparas Hplain Hcls Hattrs.
  exists (NumpyEncoder <$> <["cal_type" := PStr t]> (obj_attrs o)).
  split; [by apply to_json_record|].
  assert (obj_attrs o !! "cal_type" = None) as Hnone.
  { apply eq_None_not_Some. by intros ?%Hrec. }
  apply from_json_spec. simpl. rewrite Hcls.
  rewrite <- fmap_delete, delete_insert_id by done.
  exists (JStr t), ps. rewrite lookup_fmap, lookup_insert_eq. simpl.
  repeat split; try done.
  - intros k. rewrite lookup_fmap. intros [j Hj]. apply Hrec.
    destruct (obj_attrs o !! k); [by eexists | done].
  - intros k Hk. rewrite lookup_fmap, Hattrs, decide_True by done.
    destruct (Hparas k Hk) as [-> | [a ->]]; simpl.
    + by exists JNull, Nd0None.
    + exists (tolist a), a. by rewrite np_array_tolist.
  - intros k j Hk. rewrite lookup_fmap. intros Hj.
    destruct (obj_attrs o !! k) as [v|] eqn:Hv; [|done]. injection Hj as <-.
    destruct (Hplain k v Hk Hv) as [-> | [s ->]]; simpl; eauto.
  - intros k Hin Hout. rewrite lookup_fmap, Hattrs, decide_False by done.
    apply Hrec in Hin as [v Hv]. rewrite Hv. simpl.
    by destruct (Hplain k v Hout Hv) as [-> | [s ->]].
  - rewrite Hcls. intros [v Hv]. apply Hrec. rewrite Hattrs in Hv.
    destruct (decide _); destruct (obj_attrs o !! k) as [[]|]; by eauto.
  - rewrite Hcls. intros [v Hv]%Hrec. rewrite Hattrs, Hv.
    destruct (decide _); destruct v; by eauto.
Qed.

(** X4: a record of any registered class whose parameters are all arrays,
    and whose other fields are strings or unset, is read back from its JSON
    document as it was. *)
Theorem json_round_trip_any_class (registry : list pyclass) (o : obj A)
    (t : string) (ps : list string) :
  is_record o →
  cls_CAL_TYPE (obj_class o) = Some t →
  find_subclass_from_cal_type registry (@JStr A t) = Ok (obj_class o) →
  cls_cal_paras (obj_class o) = Some ps →
  "cal_type" ∉ field_names (obj_class o) →
  (∀ k, k ∈ ps → ∃ a, obj_attrs o !! k = Some (PArr a)) →
  (∀ k v, k ∉ ps → obj_attrs o !! k = Some v → v = PNone ∨ ∃ s, v = PStr s) →
  ∃ json_str, to_json o = Ok json_str ∧ from_json registry json_str = Ok o.
Proof.
  intros Hrec Ht Hfind Hps Htag Hparas Hplain.
  apply (from_json_to_json registry o o t ps); try done.
  - intros k Hk. right. by apply Hparas.
  - intros k. destruct (decide _) as [Hk|]; [|done].
    by destruct (Hparas k Hk) as [a ->].
Qed.

(** X5: a parameter that is unset is written to the JSON document as null
    and read back as the array [np.array(None)], not as [None]; every other
    attribute is read back as it was. *)
Theorem json_unset_parameter_read_as_array (registry : list pyclass) (o : obj A)
    (t : string) (ps : list string) :
  is_record o →
  cls_CAL_TYPE (obj_class o) = Some t →
  find_subclass_from_cal_type registry (@JStr A t) = Ok (obj_class o) →
  cls_cal_paras (obj_class o) = Some ps →
  "cal_type" ∉ field_names (obj_class o) →
  (∀ k, k ∈ ps → obj_attrs o !! k = Some PNone ∨ ∃ a, obj_attrs o !! k = Some (PArr a)) →
  (∀ k v, k ∉ ps → obj_attrs o !! k = Some v → v = PNone ∨ ∃ s, v = PStr s) →
  ∃ json_str r,
    to_json o = Ok json_str ∧ from_json registry json_str = Ok r ∧
    obj_class r = obj_class o ∧
    ∀ k, (k ∈ ps → obj_attrs o !! k = Some PNone →
          json_str !! k = Some JNull ∧ obj_attrs r !! k = Some (PArr Nd0None)) ∧
         (k ∉ ps ∨ obj_attrs o !! k ≠ Some PNone → obj_attrs r !! k = obj_attrs o !! k).
Proof.
  intros Hrec Ht Hfind Hps Htag Hparas Hplain.
  set (r := Obj (obj_class o)
              (map_imap (λ k v, Some (if decide (k ∈ ps)
                                      then match v with PNone => PArr Nd0None | _ => v end
                                      else v)) (obj_attrs o))).
  assert (∀ k, obj_attrs r !! k =
            if decide (k ∈ ps)
            then match obj_attrs o !! k with Some PNone => Some (PArr Nd0None) | x => x end
            else obj_attrs o !! k) as Hattrs.
  { intros k. unfold r. simpl. rewrite map_lookup_imap.
    destruct (obj_attrs o !! k) as [v|]; simpl; [|by destruct (decide _)].
    destruct (decide _); by destruct v. }
  destruct (from_json_to_json registry o r t ps) as (json_str & Hto & Hfrom); try done.
  exists json_str, r. split; [done|]. split; [done|]. split; [done|].
  intros k. split.
  - intros Hk Hunset. split; [|by rewrite Hattrs, decide_True, Hunset].
    rewrite (to_json_record o t) in Hto by done. injection Hto as <-.
    rewrite lookup_fmap, lookup_insert_ne, Hunset; [done|].
    intros <-. apply Htag, Hrec. by rewrite Hunset.
  - rewrite Hattrs. intros [Hout | Hset]; [by rewrite decide_False|].
    destruct (decide _); [|done]. by destruct (obj_attrs o !! k) as [[]|].
Qed.

Lemma to_hdf5_fields_raises (self : obj A) (ps : list string) (k : string) (v : pyval A)
    (fs : list field) (hdf : gmap string (json A)) :
  cls_cal_paras (obj_class self) = Some ps →
  k ∈ ps →
  k ∈ field_name <$> fs →
  obj_attrs self !! k = Some v →
  (∀ a, v = PArr a → a = Nd0None) →
  raises (to_hdf5_fields self fs hdf).
Proof.
  intros Hps Hk Hin Hv Hunset. revert hdf.
  induction fs as [|f fs IH]; intros hdf; [by apply elem_of_nil in Hin|].
  simpl. unfold getattr, cal_paras. rewrite Hps.
  destruct (obj_attrs self !! field_name f) as [value|] eqn:Hvalue; simpl; [|by eexists].
  rewrite fmap_cons in Hin. apply elem_of_cons in Hin as [-> | Hin].
  - rewrite bool_decide_eq_true_2 by done.
    assert (value = v) as -> by congruence.
    destruct v as [|s|[|u|m]]; simpl; try by eexists.
    + by specialize (Hunset _ eq_refl).
    + by specialize (Hunset _ eq_refl).
  - destruct (if bool_decide (field_name f ∈ ps) then _ else _) as [hdf'|e]; simpl;
      [by apply IH | by eexists].
Qed.

(** X6: [to_hdf5] raises when a parameter of the record is not an array of
    numbers: unset, a string, or the array [np.array(None)] that an unset
    parameter is read back as from JSON. *)
Theorem to_hdf5_unset_parameter_raises (o : obj A) (ps : list string)
    (k : string) (v : pyval A) (path : string) (fs : gmap string (file A)) :
  cls_cal_paras (obj_class o) = Some ps →
  k ∈ ps →
  k ∈ field_names (obj_class o) →
  obj_attrs o !! k = Some v →
  (∀ a, v = PArr a → a = Nd0None) →
  raises (to_hdf5 o path fs).
Proof.
  intros Hps Hk Hfield Hv Hunset. unfold to_hdf5, to_hdf5_content.
  destruct (to_hdf5_fields_raises o ps k v (fields o) ∅) as [e ->]; try done.
  by exists e.
Qed.

Lemma to_hdf5_fields_returns (self : obj A) (ps : list string) (fs : list field)
    (hdf : gmap string (json A)) :
  cls_cal_paras (obj_class self) = Some ps →
  NoDup (field_name <$> fs) →
  (∀ k, k ∈ field_name <$> fs → hdf !! k = None) →
  (∀ k, k ∈ field_name <$> fs →
        ∃ v, obj_attrs self !! k = Some v ∧ hdf5_writable ps k v) →
  ∃ hdf', to_hdf5_fields self fs hdf = Ok hdf' ∧
          ∀ k, hdf' !! k = if decide (k ∈ field_name <$> fs)
                           then obj_attrs self !! k ≫= hdf5_entry ps k
                           else hdf !! k.
Proof.
  intros Hps. revert hdf.
  induction fs as [|f fs IH]; intros hdf Hdup Hfree Hvalues.
  - by exists hdf.
  - rewrite fmap_cons in *. apply NoDup_cons in Hdup as [Hf Hdup].
    destruct (Hvalues (field_name f)) as (v & Hv & Hw); [left|].
    simpl. unfold getattr, cal_paras. rewrite Hv, Hps. simpl.
    assert (∃ hdf1,
      (if bool_decide (field_name f ∈ ps)
       then match v with
            | PArr Nd0None => Err TypeError
            | PArr a => hdf_set hdf (field_name f) (tolist a)
            | _ => Err AttributeError
            end
       else t <- truthy v ;;
            if t then hdf_set hdf (field_name f) (NumpyEncoder v) else Ok hdf) = Ok hdf1 ∧
      ∀ k, hdf1 !! k = if decide (k = field_name f) then hdf5_entry ps k v else hdf !! k)
      as (hdf1 & -> & Hhdf1).
    { unfold hdf5_writable, hdf5_entry, hdf_set in *.
      rewrite (Hfree (field_name f)) by left.
      destruct (decide (field_name f ∈ ps)) as [Hin | Hout].
      - rewrite bool_decide_eq_true_2 by done. destruct Hw as (a & -> & Ha).
        exists (<[field_name f := tolist a]> hdf). split; [by destruct a|].
        intros k. destruct (decide (k = field_name f)) as [-> | Hne].
        + by rewrite lookup_insert_eq, decide_True.
        + by rewrite lookup_insert_ne.
      - rewrite bool_decide_eq_false_2 by done.
        destruct Hw as [-> | [s ->]]; simpl.
        + exists hdf. split; [done|]. intros k.
          destruct (decide (k = field_name f)) as [-> | Hne]; [|done].
          rewrite decide_False by done. apply Hfree. left.
        + destruct (String.eqb s EmptyString) eqn:Hs; simpl.
          * exists hdf. split; [done|]. intros k.
            destruct (decide (k = field_name f)) as [-> | Hne]; [|done].
            rewrite decide_False by done. apply Hfree. left.
          * exists (<[field_name f := JStr s]> hdf). split; [done|]. intros k.
            destruct (decide (k = field_name f)) as [-> | Hne].
            -- by rewrite lookup_insert_eq, decide_False.
            -- by rewrite lookup_insert_ne. }
    simpl. destruct (IH hdf1) as (hdf' & -> & Hhdf'); [done|..].
    + intros k Hk. rewrite Hhdf1, decide_False by (by intros ->).
      apply Hfree. by right.
    + intros k Hk. apply Hvalues. by right.
    + exists hdf'. split; [done|]. intros k. rewrite Hhdf'.
      destruct (decide (k ∈ field_name <$> fs)) as [Hin | Hout].
      * by rewrite decide_True by by right.
      * rewrite Hhdf1. destruct (decide (k = field_name f)) as [-> | Hne].
        -- rewrite decide_True by left. by rewrite Hv.
        -- by rewrite decide_False by (rewrite elem_of_cons; tauto).
Qed.

Lemma from_hdf5_fields_returns (subcls : pyclass) (ps : list string)
    (hdf : gmap string (json A)) (read : string → pyval A)
    (fs : list field) (values : gmap string (pyval A)) :
  cls_cal_paras subcls = Some ps →
  (∀ k, k ∈ field_name <$> fs → hdf5_reads ps hdf k (read k)) →
  ∃ values', from_hdf5_fields subcls hdf fs values = Ok values' ∧
             ∀ k, values' !! k = if decide (k ∈ field_name <$> fs)
                                 then Some (read k) else values !! k.
Proof.
  intros Hps. revert values.
  induction fs as [|f fs IH]; intros values Hreads.
  - by exists values.
  - rewrite fmap_cons in *. simpl. unfold cal_paras. rewrite Hps. simpl.
    assert ((if bool_decide (field_name f ∈ ps)
             then a <- np_array (default JNull (hdf !! field_name f)) ;; Ok (PArr a)
             else match hdf !! field_name f with
                  | Some d => dataset_value d
                  | None => Ok PNone
                  end) = Ok (read (field_name f))) as ->.
    { specialize (Hreads (field_name f)). unfold hdf5_reads in Hreads.
      destruct (decide (field_name f ∈ ps)) as [Hin | Hout].
      - rewrite bool_decide_eq_true_2 by done.
        destruct Hreads as (a & -> & ->); [left | done].
      - rewrite bool_decide_eq_false_2 by done.
        destruct (hdf !! field_name f); [apply Hreads; left|].
        rewrite Hreads; [done | left]. }
    simpl. destruct (IH (<[field_name f := read (field_name f)]> values))
      as (values' & -> & Hvalues').
    { intros k Hk. apply Hreads. by right. }
    exists values'. split; [done|]. intros k. rewrite Hvalues'.
    destruct (decide (k ∈ field_name <$> fs)) as [Hin | Hout].
    + by rewrite decide_True by by right.
    + destruct (decide (k = field_name f)) as [-> | Hne].
      * rewrite decide_True by left. by rewrite lookup_insert_eq.
      * rewrite decide_False by (rewrite elem_of_cons; tauto).
        by rewrite lookup_insert_ne.
Qed.

(** What [to_hdf5] writes into the file and [from_hdf5] makes of it. *)
Lemma from_hdf5_to_hdf5 (registry : list pyclass) (o : obj A)
    (t : string) (ps : list string) :
  is_record o →
  cls_CAL_TYPE (obj_class o) = Some t →
  find_subclass_from_cal_type registry (@JStr A t) = Ok (obj_class o) →
  cls_cal_paras (obj_class o) = Some ps →
  NoDup (field_names (obj_class o)) →
  "cal_type" ∉ field_names (obj_class o) →
  (∀ k, k ∈ ps → ∃ a, obj_attrs o !! k = Some (PArr a) ∧ a ≠ Nd0None) →
  (∀ k v, k ∉ ps → obj_attrs o !! k = Some v → v = PNone ∨ ∃ s, v = PStr s) →
  ∃ hdf, to_hdf5_content o = Ok hdf ∧
         from_hdf5_content registry hdf
           = Ok (Obj (obj_class o) (hdf5_read_back <$> obj_attrs o)).
Proof.
  intros Hrec Ht Hfind Hps Hdup Htag Hparas Hplain.
  assert (∀ k, k ∈ field_names (obj_class o) →
               ∃ v, obj_attrs o !! k = Some v ∧ hdf5_writable ps k v) as Hwritable.
  { intros k [v Hv]%Hrec. exists v. split; [done|]. unfold hdf5_writable.
    destruct (decide (k ∈ ps)) as [Hin | Hout]; [|by apply (Hplain k)].
    destruct (Hparas k Hin) as (a & Ha & Hne). exists a. split; congruence. }
  destruct (to_hdf5_fields_returns o ps (fields o) ∅) as (hdf & Hfields & Hhdf); try done.
  assert (hdf !! "cal_type" = None) as Hfree.
  { rewrite Hhdf. by rewrite decide_False. }
  set (hdf' := <["cal_type" := JStr t]> hdf).
  exists hdf'. split.
  { unfold to_hdf5_content, CAL_TYPE, hdf_set.
    rewrite Hfields, Ht. simpl. by rewrite Hfree. }
  unfold from_hdf5_content.
  unfold hdf'. rewrite lookup_insert_eq, Hfind. simpl. fold hdf'.
  destruct (from_hdf5_fields_returns (obj_class o) ps hdf'
              (λ k, default PNone (hdf5_read_back <$> obj_attrs o !! k))
              (cls_fields (obj_class o)) ∅ Hps) as (values & -> & Hvalues).
  { intros k Hk. destruct (Hwritable k Hk) as (v & Hv & Hw).
    assert ("cal_type" ≠ k) as Hne by by intros <-.
    unfold hdf5_reads, hdf'. rewrite lookup_insert_ne, Hhdf by done.
    rewrite (decide_True (P := k ∈ field_name <$> fields o)), Hv by done.
    simpl. unfold hdf5_writable, hdf5_entry in *.
    destruct (decide (k ∈ ps)).
    - destruct Hw as (a & -> & Ha). exists a. simpl. rewrite np_array_tolist.
      by destruct a.
    - destruct Hw as [-> | [[|c s] ->]]; done. }
  simpl. apply construct_returns. split; [|split; [done|]].
  - intros k. rewrite Hvalues. destruct (decide _); [done | by intros []].
  - intros k. simpl. rewrite Hvalues, lookup_fmap.
    destruct (decide (k ∈ field_names (obj_class o))) as [Hin | Hout].
    + rewrite decide_True by done. simpl. apply Hrec in Hin as [v ->]. done.
    + apply fmap_None, eq_None_not_Some. by intros ?%Hrec.
Qed.

(** X7: a record of any registered class whose parameters are all arrays
    of numbers, and whose other fields are strings or unset, is written by
    [to_hdf5] and read back by [from_hdf5] from the same path with every
    attribute as it was, except that an empty string is read back as
    [None]. The field names of a class are distinct. *)
Theorem hdf5_round_trip_any_class (registry : list pyclass) (o : obj A)
    (t : string) (ps : list string) (path : string) (fs : gmap string (file A)) :
  is_record o →
  cls_CAL_TYPE (obj_class o) = Some t →
  find_subclass_from_cal_type registry (@JStr A t) = Ok (obj_class o) →
  cls_cal_paras (obj_class o) = Some ps →
  NoDup (field_names (obj_class o)) →
  "cal_type" ∉ field_names (obj_class o) →
  (∀ k, k ∈ ps → ∃ a, obj_attrs o !! k = Some (PArr a) ∧ a ≠ Nd0None) →
  (∀ k v, k ∉ ps → obj_attrs o !! k = Some v → v = PNone ∨ ∃ s, v = PStr s) →
  ∃ fs' r,
    to_hdf5 o path fs = Ok fs' ∧
    from_hdf5 registry fs' path = Ok r ∧
    obj_class r = obj_class o ∧
    obj_attrs r = hdf5_read_back <$> obj_attrs o.
Proof.
  intros Hrec Ht Hfind Hps Hdup Htag Hparas Hplain.
  destruct (from_hdf5_to_hdf5 registry o t ps) as (hdf & Hto & Hfrom); try done.
  exists (<[path := Hdf5File hdf]> fs), (Obj (obj_class o) (hdf5_read_back <$> obj_attrs o)).
  unfold to_hdf5, from_hdf5. rewrite Hto, lookup_insert_eq. by repeat split.
Qed.

(** X8: with an explicit format the loader needs no suffix: a record
    written with [to_json_file] is given back by
    [load_calibration_info(path, "json")], and one written with [to_hdf5]
    by [load_calibration_info(path, "hdf")] up to its empty strings; with
    the format of the other writer the load fails. *)
Theorem load_written_file (registry : list pyclass) (o : obj A)
    (t : string) (ps : list string) (path : string) (fs : gmap string (file A)) :
  is_record o →
  cls_CAL_TYPE (obj_class o) = Some t →
  find_subclass_from_cal_type registry (@JStr A t) = Ok (obj_class o) →
  cls_cal_paras (obj_class o) = Some ps →
  NoDup (field_names (obj_class o)) →
  "cal_type" ∉ field_names (obj_class o) →
  (∀ k, k ∈ ps → ∃ a, obj_attrs o !! k = Some (PArr a) ∧ a ≠ Nd0None) →
  (∀ k v, k ∉ ps → obj_attrs o !! k = Some v → v = PNone ∨ ∃ s, v = PStr s) →
  (∃ fs', to_json_file o path fs = Ok fs' ∧
          from_json_file registry fs' path = Ok o ∧
          load_calibration_info registry fs' path (Some "json") = Ok o ∧
          raises (load_calibration_info registry fs' path (Some "hdf"))) ∧
  (∃ fs', to_hdf5 o path fs = Ok fs' ∧
          load_calibration_info registry fs' path (Some "hdf")
            = Ok (Obj (obj_class o) (hdf5_read_back <$> obj_attrs o)) ∧
          raises (load_calibration_info registry fs' path (Some "json"))).
Proof.
  intros Hrec Ht Hfind Hps Hdup Htag Hparas Hplain. split.
  - destruct (from_json_to_json registry o o t ps) as (json_str & Hto & Hfrom); try done.
    { intros k Hk. right. destruct (Hparas k Hk) as (a & Ha & _). eauto. }
    { intros k. destruct (decide _) as [Hk|]; [|done].
      by destruct (Hparas k Hk) as (a & -> & _). }
    exists (<[path := JsonFile json_str]> fs).
    unfold to_json in Hto. unfold to_json_file.
    destruct (_to_list_dict o) as [data_dict|]; [|done]. simpl in *.
    injection Hto as <-.
    change (load_calibration_info registry ?fs' path (Some "json"))
      with (from_json_file registry fs' path).
    change (load_calibration_info registry ?fs' path (Some "hdf"))
      with (from_hdf5 registry fs' path).
    unfold from_json_file, from_hdf5.
    rewrite lookup_insert_eq. repeat split; try done. by eexists.
  - destruct (from_hdf5_to_hdf5 registry o t ps) as (hdf & Hto & Hfrom); try done.
    exists (<[path := Hdf5File hdf]> fs).
    change (load_calibration_info registry ?fs' path (Some "json"))
      with (from_json_file registry fs' path).
    change (load_calibration_info registry ?fs' path (Some "hdf"))
      with (from_hdf5 registry fs' path).
    unfold to_hdf5, from_json_file, from_hdf5.
    rewrite Hto, lookup_insert_eq. repeat split; try done. by eexists.
Qed.

(** The loop of [from_hdf5] looks a file up under the names of the fields
    only. *)
Lemma from_hdf5_fields_ext (subcls : pyclass) (hdf1 hdf2 : gmap string (json A))
    (fs : list field) (values : gmap string (pyval A)) :
  (∀ k, k ∈ field_name <$> fs → hdf1 !! k = hdf2 !! k) →
  from_hdf5_fields subcls hdf1 fs values = from_hdf5_fields subcls hdf2 fs values.
Proof.
  revert values. induction fs as [|f fs IH]; intros values Hsame; [done|].
  rewrite fmap_cons in Hsame. simpl. rewrite (Hsame (field_name f)) by left.
  destruct (cal_paras subcls) as [ps|]; simpl; [|done].
  destruct (if bool_decide (field_name f ∈ ps) then _ else _) as [v|]; simpl; [|done].
  apply IH. intros k Hk. apply Hsame. by right.
Qed.

Lemma from_hdf5_fields_lookup (subcls : pyclass) (ps : list string)
    (hdf : gmap string (json A)) (fs : list field) (values values' : gmap string (pyval A)) :
  cls_cal_paras subcls = Some ps →
  from_hdf5_fields subcls hdf fs values = Ok values' →
  ∀ k, if decide (k ∈ field_name <$> fs)
       then ∃ v, values' !! k = Some v ∧ hdf5_reads ps hdf k v
       else values' !! k = values !! k.
Proof.
  intros Hps. revert values. induction fs as [|f fs IH]; intros values Hok k.
  - simpl in Hok. injection Hok as <-. by rewrite decide_False by apply not_elem_of_nil.
  - rewrite fmap_cons. simpl in Hok. unfold cal_paras in Hok. rewrite Hps in Hok.
    simpl in Hok.
    destruct (if bool_decide (field_name f ∈ ps) then _ else _) as [v|] eqn:Hv;
      [|done]. simpl in Hok.
    specialize (IH _ Hok k).
    destruct (decide (k ∈ field_name <$> fs)) as [Hin | Hout].
    + by rewrite decide_True by by right.
    + destruct (decide (k = field_name f)) as [-> | Hne].
      * rewrite decide_True by left. rewrite IH, lookup_insert_eq.
        exists v. split; [done|]. unfold hdf5_reads.
        destruct (decide (field_name f ∈ ps)) as [Hp | Hp].
        -- rewrite bool_decide_eq_true_2 in Hv by done.
           destruct (np_array _) as [a|]; [|done]. injection Hv as <-. by exists a.
        -- rewrite bool_decide_eq_false_2 in Hv by done.
           destruct (hdf !! field_name f); [done | by injection Hv as <-].
      * rewrite decide_False by (rewrite elem_of_cons; tauto).
        by rewrite IH, lookup_insert_ne.
Qed.

(** X9: [from_hdf5] is lenient where [from_json] is strict: a name of
    the file that is no field of the class is ignored, and a parameter of
    the class that the file lacks is read as the array [np.array(None)]
    without an error. *)
Theorem from_hdf5_lenient (registry : list pyclass) (fs : gmap string (file A))
    (path : string) (hdf : gmap string (json A)) (o : obj A) :
  fs !! path = Some (Hdf5File hdf) →
  from_hdf5 registry fs path = Ok o →
  (∀ k j, k ≠ "cal_type" → k ∉ field_names (obj_class o) →
          from_hdf5 registry (<[path := Hdf5File (<[k := j]> hdf)]> fs) path = Ok o) ∧
  (∀ k ps, cls_cal_paras (obj_class o) = Some ps → k ∈ ps →
           k ∈ field_names (obj_class o) → hdf !! k = None →
           obj_attrs o !! k = Some (PArr Nd0None)).
Proof.
  intros Hfile. unfold from_hdf5. rewrite Hfile. unfold from_hdf5_content.
  destruct (hdf !! "cal_type") as [cal_type|] eqn:Htag; [|done].
  destruct (find_subclass_from_cal_type registry cal_type) as [subcls|] eqn:Hfind; [|done].
  simpl.
  destruct (from_hdf5_fields subcls hdf (cls_fields subcls) ∅) as [values|] eqn:Hvalues;
    [|done]. simpl.
  intros Hconstruct. pose proof Hconstruct as (Hkeys & Hcls & Hattrs)%construct_returns.
  split.
  - intros k j Hne Hout. rewrite lookup_insert_eq, lookup_insert_ne, Htag, Hfind by done.
    simpl. rewrite (from_hdf5_fields_ext subcls _ hdf), Hvalues; [done|].
    intros k' Hk'. rewrite lookup_insert_ne; [done|]. intros <-. by rewrite Hcls in Hout.
  - intros k ps Hps Hk Hfield Hmissing. rewrite Hcls in Hps, Hfield.
    rewrite Hattrs, decide_True by done.
    pose proof (from_hdf5_fields_lookup subcls ps hdf _ _ _ Hps Hvalues k) as Hread.
    rewrite (decide_True (P := k ∈ field_name <$> cls_fields subcls)) in Hread by done.
    destruct Hread as (v & -> & Hread). unfold hdf5_reads in Hread.
    rewrite decide_True, Hmissing in Hread by done. simpl in Hread.
    by destruct Hread as (a & [= <-] & ->).
Qed.

(** X10: what [to_json] makes of a record. When the class defines [CAL_TYPE],
    it returns a document that holds the tag under ["cal_type"] and, under
    every other name, the attribute of that name as the encoder writes it
    (an array as nested lists, [None] as null), and nothing under a name
    that is no field. When the class does not define [CAL_TYPE], as the base
    class itself, the record cannot be written: [to_json] and
    [to_json_file] raise [AttributeError], and [to_hdf5] raises. *)
Theorem to_json_writes (o : obj A) (path : string) (fs : gmap string (file A)) :
  is_record o →
  match cls_CAL_TYPE (obj_class o) with
  | Some t =>
      ∃ json_str,
        to_json o = Ok json_str ∧
        json_str !! "cal_type" = Some (JStr t) ∧
        ∀ k, k ≠ "cal_type" → json_str !! k = NumpyEncoder <$> obj_attrs o !! k
  | None =>
      to_json o = Err AttributeError ∧
      to_json_file o path fs = Err AttributeError ∧
      raises (to_hdf5 o path fs)
  end.
Proof.
  intros Hrec. destruct (cls_CAL_TYPE (obj_class o)) as [t|] eqn:Htag.
  - eexists. split; [by apply to_json_record|].
    rewrite lookup_fmap, lookup_insert_eq. split; [done|].
    intros k Hk. by rewrite lookup_fmap, lookup_insert_ne.
  - assert (_to_list_dict o = Err AttributeError) as Hdict.
    { unfold _to_list_dict, CAL_TYPE. by rewrite asdict_record, Htag. }
    unfold to_json, to_json_file, to_hdf5, to_hdf5_content, CAL_TYPE.
    rewrite Hdict, Htag. repeat split; try done.
    destruct (to_hdf5_fields o (fields o) ∅); by eexists.
Qed.
End Documents.

(** ** Ferraris records as records of a registered class *)

Lemma ferraris_is_record {A : Type} (v : ferraris_values A) : is_record (ferraris_record v).
Proof. apply (construct_is_record _ _ _ (construct_ferraris_record v)). Qed.

Lemma blank_is_record {A : Type} : is_record (@blank_record A).
Proof. apply (construct_is_record _ _ _ construct_blank). Qed.

Lemma ferraris_field_names :
  field_names FerrarisCalibrationInfo =
    ["acc_unit"; "gyr_unit"; "from_acc_unit"; "from_gyr_unit"; "comment";
     "b_a"; "K_a"; "R_a"; "b_g"; "K_g"; "R_g"; "K_ga"].
Proof. reflexivity. Qed.

Lemma ferraris_field_names_distinct : NoDup (field_names FerrarisCalibrationInfo).
Proof. rewrite ferraris_field_names. apply (bool_decide_unpack _). by vm_compute. Qed.

Lemma ferraris_no_tag_field : "cal_type" ∉ field_names FerrarisCalibrationInfo.
Proof. rewrite ferraris_field_names. apply (bool_decide_unpack _). by vm_compute. Qed.

Lemma ferraris_parameters_set {A : Type} (v : ferraris_values A) (k : string) :
  k ∈ ferraris_paras →
  ∃ a, obj_attrs (ferraris_record v) !! k = Some (PArr a) ∧ a ≠ Nd0None.
Proof.
  unfold ferraris_paras. rewrite !elem_of_cons, elem_of_nil.
  intros [->|[->|[->|[->|[->|[->|[->|[]]]]]]]]; by eexists.
Qed.

Lemma ferraris_metadata {A : Type} (v : ferraris_values A) :
  obj_attrs (ferraris_record v) !! "acc_unit" = Some (optional_str (fv_acc_unit v)) ∧
  obj_attrs (ferraris_record v) !! "gyr_unit" = Some (optional_str (fv_gyr_unit v)) ∧
  obj_attrs (ferraris_record v) !! "from_acc_unit"
    = Some (optional_str (fv_from_acc_unit v)) ∧
  obj_attrs (ferraris_record v) !! "from_gyr_unit"
    = Some (optional_str (fv_from_gyr_unit v)) ∧
  obj_attrs (ferraris_record v) !! "comment" = Some (optional_str (fv_comment v)).
Proof. repeat split; reflexivity. Qed.

Lemma optional_str_plain {A : Type} (u : option string) (x : pyval A) :
  Some (optional_str u) = Some x → x = PNone ∨ ∃ s, x = PStr s.
Proof. intros [= <-]. destruct u; simpl; eauto. Qed.

Lemma ferraris_metadata_plain {A : Type} (v : ferraris_values A) (k : string) (x : pyval A) :
  k ∉ ferraris_paras → obj_attrs (ferraris_record v) !! k = Some x →
  x = PNone ∨ ∃ s, x = PStr s.
Proof.
  intros Hk Hx. assert (k ∈ field_names FerrarisCalibrationInfo) as Hfield.
  { apply (ferraris_is_record v). by rewrite Hx. }
  rewrite ferraris_field_names in Hfield.
  assert (k ∈ ["acc_unit"; "gyr_unit"; "from_acc_unit"; "from_gyr_unit"; "comment"])
    as Hbase.
  { change (k ∈ ["acc_unit"; "gyr_unit"; "from_acc_unit"; "from_gyr_unit"; "comment"]
                ++ ferraris_paras) in Hfield.
    by apply elem_of_app in Hfield as [? | ?]. }
  destruct (ferraris_metadata v) as (H1 & H2 & H3 & H4 & H5).
  clear Hfield Hk. rewrite !elem_of_cons, elem_of_nil in Hbase.
  destruct Hbase as [->|[->|[->|[->|[->|[]]]]]];
    [rewrite H1 in Hx | rewrite H2 in Hx | rewrite H3 in Hx | rewrite H4 in Hx
    | rewrite H5 in Hx]; exact (optional_str_plain _ _ Hx).
Qed.

Lemma blank_parameters_unset {A : Type} (k : string) :
  k ∈ ferraris_paras → obj_attrs (@blank_record A) !! k = Some PNone.
Proof.
  unfold ferraris_paras. rewrite !elem_of_cons, elem_of_nil.
  intros [->|[->|[->|[->|[->|[->|[->|[]]]]]]]]; reflexivity.
Qed.

Lemma blank_attributes {A : Type} (k : string) :
  k ∈ field_names FerrarisCalibrationInfo → obj_attrs (@blank_record A) !! k = Some PNone.
Proof.
  rewrite ferraris_field_names, !elem_of_cons, elem_of_nil.
  intros [->|[->|[->|[->|[->|[->|[->|[->|[->|[->|[->|[->|[]]]]]]]]]]]]]; reflexivity.
Qed.

Lemma blank_metadata_plain {A : Type} (k : string) (x : pyval A) :
  obj_attrs (@blank_record A) !! k = Some x → x = PNone ∨ ∃ s, x = PStr s.
Proof.
  intros Hx. assert (k ∈ field_names FerrarisCalibrationInfo) as Hfield.
  { apply (@blank_is_record A). by rewrite Hx. }
  rewrite (blank_attributes k Hfield) in Hx. injection Hx as <-. by left.
Qed.

(** ** Witnesses *)

Lemma json_round_trip_any_class_witness :
  ∃ json_str,
    to_json (ferraris_record identity_values) = Ok json_str ∧
    from_json [FerrarisCalibrationInfo] json_str = Ok (ferraris_record identity_values).
Proof.
  apply (json_round_trip_any_class [FerrarisCalibrationInfo]
           (ferraris_record identity_values) "Ferraris" ferraris_paras).
  - apply ferraris_is_record.
  - reflexivity.
  - reflexivity.
  - reflexivity.
  - apply ferraris_no_tag_field.
  - intros k Hk. destruct (ferraris_parameters_set identity_values k Hk) as (a & Ha & _).
    by exists a.
  - apply ferraris_metadata_plain.
Defined.

Lemma json_unset_parameter_read_as_array_witness :
  ∃ json_str r,
    to_json (@blank_record float) = Ok json_str ∧
    from_json [FerrarisCalibrationInfo] json_str = Ok r ∧
    obj_class r = FerrarisCalibrationInfo ∧
    ∀ k, (k ∈ ferraris_paras → obj_attrs (@blank_record float) !! k = Some PNone →
          json_str !! k = Some JNull ∧ obj_attrs r !! k = Some (PArr Nd0None)) ∧
         (k ∉ ferraris_paras ∨ obj_attrs (@blank_record float) !! k ≠ Some PNone →
          obj_attrs r !! k = obj_attrs (@blank_record float) !! k).
Proof.
  apply (json_unset_parameter_read_as_array [FerrarisCalibrationInfo]
           (@blank_record float) "Ferraris" ferraris_paras).
  - apply blank_is_record.
  - reflexivity.
  - reflexivity.
  - reflexivity.
  - apply ferraris_no_tag_field.
  - intros k Hk. left. by apply blank_parameters_unset.
  - intros k x _. apply blank_metadata_plain.
Defined.

Lemma to_hdf5_unset_parameter_raises_witness :
  raises (to_hdf5 (@blank_record float) "cal.h5" ∅).
Proof.
  apply (to_hdf5_unset_parameter_raises (@blank_record float) ferraris_paras "K_a" PNone).
  - reflexivity.
  - apply (bool_decide_unpack _). by vm_compute.
  - apply (bool_decide_unpack _). by vm_compute.
  - reflexivity.
  - intros a [=].
Defined.

Lemma hdf5_round_trip_any_class_witness :
  ∃ fs' r,
    to_hdf5 (ferraris_record identity_values) "cal.h5" ∅ = Ok fs' ∧
    from_hdf5 [FerrarisCalibrationInfo] fs' "cal.h5" = Ok r ∧
    obj_class r = FerrarisCalibrationInfo ∧
    obj_attrs r = hdf5_read_back <$> obj_attrs (ferraris_record identity_values).
Proof.
  apply (hdf5_round_trip_any_class [FerrarisCalibrationInfo]
           (ferraris_record identity_values) "Ferraris" ferraris_paras).
  - apply ferraris_is_record.
  - reflexivity.
  - reflexivity.
  - reflexivity.
  - apply ferraris_field_names_distinct.
  - apply ferraris_no_tag_field.
  - apply ferraris_parameters_set.
  - apply ferraris_metadata_plain.
Defined.

Lemma load_written_file_witness :
  let o := ferraris_record identity_values in
  (∃ fs', to_json_file o "cal" ∅ = Ok fs' ∧
          from_json_file [FerrarisCalibrationInfo] fs' "cal" = Ok o ∧
          load_calibration_info [FerrarisCalibrationInfo] fs' "cal" (Some "json") = Ok o ∧
          raises (load_calibration_info [FerrarisCalibrationInfo] fs' "cal" (Some "hdf"))) ∧
  (∃ fs', to_hdf5 o "cal" ∅ = Ok fs' ∧
          load_calibration_info [FerrarisCalibrationInfo] fs' "cal" (Some "hdf")
            = Ok (Obj (obj_class o) (hdf5_read_back <$> obj_attrs o)) ∧
          raises (load_calibration_info [FerrarisCalibrationInfo] fs' "cal" (Some "json"))).
Proof.
  apply (load_written_file [FerrarisCalibrationInfo]
           (ferraris_record identity_values) "Ferraris" ferraris_paras).
  - apply ferraris_is_record.
  - reflexivity.
  - reflexivity.
  - reflexivity.
  - apply ferraris_field_names_distinct.
  - apply ferraris_no_tag_field.
  - apply ferraris_parameters_set.
  - apply ferraris_metadata_plain.
Defined.

Lemma from_hdf5_lenient_witness :
  let hdf : gmap string (json float) := {["cal_type" := JStr "Ferraris"]} in
  let fs : gmap string (file float) := {["cal.h5" := Hdf5File hdf]} in
  let o := Obj FerrarisCalibrationInfo
             (list_to_map ((λ f, (field_name f,
                                  if bool_decide (field_name f ∈ ferraris_paras)
                                  then PArr Nd0None else PNone))
                             <$> cls_fields FerrarisCalibrationInfo)) in
  (∀ k j, k ≠ "cal_type" → k ∉ field_names (obj_class o) →
          from_hdf5 [FerrarisCalibrationInfo]
            (<["cal.h5" := Hdf5File (<[k := j]> hdf)]> fs) "cal.h5" = Ok o) ∧
  (∀ k ps, cls_cal_paras (obj_class o) = Some ps → k ∈ ps →
           k ∈ field_names (obj_class o) → hdf !! k = None →
           obj_attrs o !! k = Some (PArr Nd0None)).
Proof.
  apply (from_hdf5_lenient [FerrarisCalibrationInfo]
           {["cal.h5" := Hdf5File {["cal_type" := JStr "Ferraris"]}]} "cal.h5").
  - reflexivity.
  - reflexivity.
Defined.

Lemma to_json_writes_witness :
  to_json base_record = Err AttributeError ∧
  to_json_file base_record "cal" ∅ = Err AttributeError ∧
  raises (to_hdf5 base_record "cal" ∅).
Proof.
  apply (to_json_writes base_record "cal" ∅).
  apply (construct_is_record (CalibrationInfo [FerrarisCalibrationInfo]) ∅). reflexivity.
Defined.

Lemma from_json_strict_witness :
  let json_str := ferraris_document identity_values in
  let o := ferraris_record identity_values in
  (∃ tag, json_str !! "cal_type" = Some tag ∧
          find_subclass_from_cal_type [FerrarisCalibrationInfo] tag = Ok (obj_class o)) ∧
  is_record o ∧
  (∀ k, is_Some (json_str !! k) → k = "cal_type" ∨ k ∈ field_names (obj_class o)) ∧
  ∃ ps, cls_cal_paras (obj_class o) = Some ps ∧
    ∀ k, k ∈ ps →
         k ≠ "cal_type" ∧ is_Some (json_str !! k) ∧ k ∈ field_names (obj_class o).
Proof.
  apply (from_json_strict [FerrarisCalibrationInfo] (ferraris_document identity_values)
           (ferraris_record identity_values)).
  reflexivity.
Defined.

(** ** Comparison of a set and an unset parameter *)

Section Comparison.
Context {A : Type} `{Scalar A}.

Lemma eq_values_app (self other : obj A) (pre post : list field) :
  eq_values self other (pre ++ post) =
    (equal <- eq_values self other pre ;;
     if negb equal then Ok false else eq_values self other post).
Proof.
  induction pre as [|f pre IH]; simpl; [done|].
  destruct (getattr self (field_name f)) as [a1|]; simpl; [|done].
  destruct (getattr other (field_name f)) as [a2|]; simpl; [|done].
  destruct (match a1 with PArr arr => Ok (array_equal arr a2) | _ => py_eq a1 a2 end)
    as [[]|]; simpl; done.
Qed.

(** X11: [==] is not symmetric where a parameter is unset in one record and
    set in the other: when two records of one class agree on the fields
    before a field that is [None] in the receiver and an array of numbers
    in the other record, the comparison raises numpy's [ValueError] on the
    truth value of an array; with the operands exchanged it answers
    [False]. *)
Theorem eq_unset_against_array (self other : obj A) (pre post : list field)
    (f : field) (a2 : ndarray A) :
  obj_class other = obj_class self →
  is_Some (cls_CAL_TYPE (obj_class self)) →
  fields self = pre ++ f :: post →
  Forall (λ g, ∃ b1 b2, obj_attrs self !! field_name g = Some b1 ∧
                        obj_attrs other !! field_name g = Some b2 ∧
                        same_value b1 b2 ∧ same_value b2 b1) pre →
  obj_attrs self !! field_name f = Some PNone →
  obj_attrs other !! field_name f = Some (PArr a2) →
  a2 ≠ Nd0None →
  __eq__ self other = Err ambiguous_truth ∧ __eq__ other self = Ok false.
Proof.
  intros Hcls Htag Hfields Hpre H1 H2 Hnum.
  assert (fields other = fields self) as Hfields' by (unfold fields; by rewrite Hcls).
  rewrite (eq_same_class self other), (eq_same_class other self);
    [|done|by rewrite Hcls|done..].
  rewrite Hfields', Hfields, !eq_values_app.
  replace (eq_values self other pre) with (@Ok bool true).
  2:{ symmetry. apply eq_values_true. eapply Forall_impl; [exact Hpre|].
      intros g (b1 & b2 & ? & ? & ? & _). eauto. }
  replace (eq_values other self pre) with (@Ok bool true).
  2:{ symmetry. apply eq_values_true. eapply Forall_impl; [exact Hpre|].
      intros g (b1 & b2 & ? & ? & _ & ?). eauto. }
  simpl. unfold getattr. rewrite H1, H2. simpl. by destruct a2.
Qed.
End Comparison.

Lemma eq_unset_against_array_witness :
  __eq__ (@blank_record float) (ferraris_record bare_identity_values) = Err ambiguous_truth ∧
  __eq__ (ferraris_record bare_identity_values) (@blank_record float) = Ok false.
Proof.
  apply (eq_unset_against_array (@blank_record float) (ferraris_record bare_identity_values)
           base_fields (Field "FerrarisCalibrationInfo" <$> ["K_a"; "R_a"; "b_g"; "K_g"; "R_g"; "K_ga"])
           (Field "FerrarisCalibrationInfo" "b_a") (Nd1 (V3 0 0 0)%float)).
  - reflexivity.
  - by eexists.
  - reflexivity.
  - repeat constructor; by exists PNone, PNone.
  - reflexivity.
  - reflexivity.
  - intros [=].
Defined.

(** ** More on the estimation *)

Ltac real_unfold :=
  cbv [acc_reading gyr_reading sensor_reading row_norms inverse adjugate det
       np_diag_matrix np_sqrt np_identity np_zeros columns
       smulv smulm vmap mmap np_diag mdivs vdivs madd msub mzip vzip vadd vsub
       matmul matvec dot transpose col0 col1 col2 row0 row1 row2 vx vy vz
       fadd fsub fmul fdiv fsqrt of_Z real_scalar].

(** ** What the estimation raises *)

(** X12: over the reals, an estimator that has all its segments, and in
    each rotation as many gyroscope as accelerometer samples, raises
    [ZeroDivisionError] exactly when its gravity is zero, and otherwise
    [LinAlgError] exactly when one of the matrices it inverts is singular;
    such an estimator raises nothing else. *)
Theorem compute_errors (self : FerrarisCalibration R) :
  well_formed self →
  match compute_calibration_matrix self with
  | Ok _ => regular self
  | Err e => (e = ZeroDivisionError ∧ grav self = 0%R) ∨
             (e = LinAlgError ∧ grav self ≠ 0%R ∧ ¬ regular self)
  end.
Proof.
  intros Hwf. rewrite compute_outcome by done.
  destruct (outcome self) as [v|e] eqn:Hout.
  - by apply outcome_returns in Hout as [_ ?].
  - destruct (Req_dec_T (grav self) 0) as [Hg | Hg].
    + left. split; [|done]. unfold outcome in Hout.
      destruct (feqb (fmul _ _) _) eqn:Hzero; [congruence|].
      apply gravity_test in Hzero. done.
    + right. assert (¬ regular self) as Hsing.
      { intros Hreg. by rewrite outcome_regular in Hout. }
      rewrite outcome_singular in Hout by done. split; [congruence | done].
Qed.

(** ** The shape of the scales and rotations *)

Section NormalForm.
Local Open Scope R_scope.

Lemma inverse_diagonal (v : vec3 R) :
  vx v ≠ 0 → vy v ≠ 0 → vz v ≠ 0 →
  inverse (np_diag_matrix v) = np_diag_matrix (V3 (/ vx v) (/ vy v) (/ vz v)).
Proof.
  destruct v as [a b c]. simpl. intros Ha Hb Hc. real_unfold.
  apply mat3_eq; apply vec3_eq; field; done.
Qed.

Lemma row_norms_nonneg (m : mat3 R) :
  0 <= vx (row_norms m) ∧ 0 <= vy (row_norms m) ∧ 0 <= vz (row_norms m).
Proof. destruct m as [[] [] []]. real_unfold. repeat split; nra. Qed.

(** Rows divided by their lengths have length one. *)
Lemma normalised_rows (X : mat3 R) :
  let K := np_diag_matrix (np_sqrt (row_norms X)) in
  det K ≠ 0 →
  row_norms (matmul (inverse K) X) = V3 1 1 1.
Proof.
  intros K Hdet. unfold K in *. clear K.
  destruct (row_norms_nonneg X) as (Hx & Hy & Hz).
  set (v := np_sqrt (row_norms X)) in *.
  assert (vx v ≠ 0 ∧ vy v ≠ 0 ∧ vz v ≠ 0) as (Ha & Hb & Hc).
  { rewrite det_diagonal_zero in Hdet. tauto. }
  rewrite inverse_diagonal by done.
  assert (vx v * vx v = vx (row_norms X)) as Ha2 by by apply sqrt_sqrt.
  assert (vy v * vy v = vy (row_norms X)) as Hb2 by by apply sqrt_sqrt.
  assert (vz v * vz v = vz (row_norms X)) as Hc2 by by apply sqrt_sqrt.
  destruct v as [a b c], X as [[x11 x12 x13] [x21 x22 x23] [x31 x32 x33]].
  revert Ha2 Hb2 Hc2. clear Hx Hy Hz Hdet. simpl in Ha, Hb, Hc. real_unfold.
  intros Ha2 Hb2 Hc2. apply vec3_eq.
  - transitivity ((x11 * x11 + x12 * x12 + x13 * x13) / (a * a)); [field; done|].
    rewrite Ha2. field. rewrite <- Ha2. nra.
  - transitivity ((x21 * x21 + x22 * x22 + x23 * x23) / (b * b)); [field; done|].
    rewrite Hb2. field. rewrite <- Hb2. nra.
  - transitivity ((x31 * x31 + x32 * x32 + x33 * x33) / (c * c)); [field; done|].
    rewrite Hc2. field. rewrite <- Hc2. nra.
Qed.

Lemma row_norms_scaled (D : mat3 R) (g : R) :
  g ≠ 0 →
  np_diag (mdivs (matmul D (transpose D)) (4 * (g * g))) = row_norms (mdivs D (2 * g)).
Proof.
  intros Hg. destruct D as [[] [] []]. real_unfold. apply vec3_eq; field; done.
Qed.

Lemma formula_R_a_unit_rows (self : FerrarisCalibration R) :
  regular self → row_norms (formula_R_a self) = V3 1 1 1.
Proof.
  intros (Hg & HKa & _). unfold formula_R_a, formula_K_a in *.
  change (fmul (of_Z 4) (fmul (grav self) (grav self))) with (4 * (grav self * grav self)) in *.
  change (fmul (of_Z 2) (grav self)) with (2 * grav self) in *.
  rewrite row_norms_scaled in * by done. by apply normalised_rows.
Qed.

Lemma formula_R_g_unit_rows (self : FerrarisCalibration R) :
  regular self → row_norms (formula_R_g self) = V3 1 1 1.
Proof. intros (_ & _ & _ & _ & HKg). by apply normalised_rows. Qed.

(** X14: over the reals, the two rotation matrices of the record the
    estimation returns have rows of length one: the diagonals of
    [R_a R_a^T] and of [R_g R_g^T] are [(1, 1, 1)]. *)
Theorem returned_rotations_have_unit_rows (self : FerrarisCalibration R) :
  well_formed self →
  ∀ r, compute_calibration_matrix self = Ok r →
    ∃ R_a R_g,
      getattr r "R_a" = Ok (PArr (Nd2 R_a)) ∧
      getattr r "R_g" = Ok (PArr (Nd2 R_g)) ∧
      np_diag (matmul R_a (transpose R_a)) = V3 1 1 1 ∧
      np_diag (matmul R_g (transpose R_g)) = V3 1 1 1.
Proof.
  intros Hwf r Hr. apply compute_returns in Hr as [-> Hreg]; [|done].
  exists (formula_R_a self), (formula_R_g self).
  split; [done|]. split; [done|].
  split; [by apply formula_R_a_unit_rows | by apply formula_R_g_unit_rows].
Qed.

Lemma sqrt_diagonal_positive (q : vec3 R) :
  det (np_diag_matrix (np_sqrt q)) ≠ 0 →
  0 < vx (np_sqrt q) ∧ 0 < vy (np_sqrt q) ∧ 0 < vz (np_sqrt q).
Proof.
  intros Hdet. rewrite det_diagonal_zero in Hdet. destruct q as [a b c]. simpl in *.
  pose proof (sqrt_pos a). pose proof (sqrt_pos b). pose proof (sqrt_pos c).
  repeat split; lra.
Qed.

(** X15: over the reals, the two scale matrices of the record the
    estimation returns are diagonal matrices of positive numbers. *)
Theorem returned_scales_are_positive (self : FerrarisCalibration R) :
  well_formed self →
  ∀ r, compute_calibration_matrix self = Ok r →
    ∃ k_a k_g,
      getattr r "K_a" = Ok (PArr (Nd2 (np_diag_matrix k_a))) ∧
      getattr r "K_g" = Ok (PArr (Nd2 (np_diag_matrix k_g))) ∧
      (0 < vx k_a ∧ 0 < vy k_a ∧ 0 < vz k_a) ∧
      (0 < vx k_g ∧ 0 < vy k_g ∧ 0 < vz k_g).
Proof.
  intros Hwf r Hr. apply compute_returns in Hr as [-> (_ & HKa & _ & _ & HKg)]; [|done].
  eexists _, _. split; [reflexivity|]. split; [reflexivity|].
  split; by apply sqrt_diagonal_positive.
Qed.
End NormalForm.

(** ** The estimation recovers the sensor *)

Section Recovery.
Local Open Scope R_scope.

Lemma recovered_b_a (self : FerrarisCalibration R) (b k : vec3 R) (R0 : mat3 R) :
  static_accelerations self b k R0 → formula_b_a self = b.
Proof.
  intros (Hxp & Hxa & Hyp & Hya & Hzp & Hza). unfold formula_b_a, U_p, U_n.
  rewrite Hxp, Hxa, Hyp, Hya, Hzp, Hza.
  destruct b, k, R0 as [[] [] []]. real_unfold. apply vec3_eq; field.
Qed.

Lemma recovered_D (self : FerrarisCalibration R) (b k : vec3 R) (R0 : mat3 R) :
  static_accelerations self b k R0 →
  D self = smulm (2 * grav self) (matmul (np_diag_matrix k) R0).
Proof.
  intros (Hxp & Hxa & Hyp & Hya & Hzp & Hza). unfold D, U_p, U_n.
  rewrite Hxp, Hxa, Hyp, Hya, Hzp, Hza.
  destruct b, k, R0 as [[] [] []]. real_unfold. apply mat3_eq; apply vec3_eq; ring.
Qed.

Lemma recovered_K_a (self : FerrarisCalibration R) (b k : vec3 R) (R0 : mat3 R) :
  static_accelerations self b k R0 →
  grav self ≠ 0 →
  0 < vx k ∧ 0 < vy k ∧ 0 < vz k →
  np_diag (matmul R0 (transpose R0)) = V3 1 1 1 →
  formula_K_a self = np_diag_matrix k.
Proof.
  intros Hstatic Hg (Hx & Hy & Hz) Hunit.
  unfold formula_K_a. rewrite (recovered_D self b k R0) by done.
  revert Hunit. clear Hstatic.
  destruct k as [k1 k2 k3], R0 as [[r11 r12 r13] [r21 r22 r23] [r31 r32 r33]].
  simpl in Hx, Hy, Hz. real_unfold. intros [= H1 H2 H3].
  apply mat3_eq; apply vec3_eq; try reflexivity.
  - transitivity (sqrt (k1 * k1)); [f_equal | apply sqrt_square; lra].
    transitivity (k1 * k1 * (r11 * r11 + r12 * r12 + r13 * r13)); [field; done|].
    rewrite H1. ring.
  - transitivity (sqrt (k2 * k2)); [f_equal | apply sqrt_square; lra].
    transitivity (k2 * k2 * (r21 * r21 + r22 * r22 + r23 * r23)); [field; done|].
    rewrite H2. ring.
  - transitivity (sqrt (k3 * k3)); [f_equal | apply sqrt_square; lra].
    transitivity (k3 * k3 * (r31 * r31 + r32 * r32 + r33 * r33)); [field; done|].
    rewrite H3. ring.
Qed.

Lemma recovered_R_a (self : FerrarisCalibration R) (b k : vec3 R) (R0 : mat3 R) :
  static_accelerations self b k R0 →
  grav self ≠ 0 →
  0 < vx k ∧ 0 < vy k ∧ 0 < vz k →
  np_diag (matmul R0 (transpose R0)) = V3 1 1 1 →
  formula_R_a self = R0.
Proof.
  intros Hstatic Hg Hpos Hunit.
  unfold formula_R_a. rewrite (recovered_K_a self b k R0), (recovered_D self b k R0) by done.
  destruct Hpos as (Hx & Hy & Hz). clear Hstatic Hunit.
  destruct k as [k1 k2 k3], R0 as [[r11 r12 r13] [r21 r22 r23] [r31 r32 r33]].
  simpl in Hx, Hy, Hz. real_unfold.
  apply mat3_eq; apply vec3_eq; field; repeat split; lra.
Qed.

(** X16: over the reals, when the static segments of the accelerometer are
    those of a sensor [raw = K R true + b] at rest, with positive scale
    factors and a rotation with rows of length one, reading the gravity
    along and against each axis, the record the estimation returns holds
    exactly that bias, scale and rotation. *)
Theorem accelerometer_recovers_sensor (self : FerrarisCalibration R)
    (b k : vec3 R) (R0 : mat3 R) :
  well_formed self →
  static_accelerations self b k R0 →
  0 < vx k ∧ 0 < vy k ∧ 0 < vz k →
  np_diag (matmul R0 (transpose R0)) = V3 1 1 1 →
  ∀ r, compute_calibration_matrix self = Ok r →
    getattr r "b_a" = Ok (PArr (Nd1 b)) ∧
    getattr r "K_a" = Ok (PArr (Nd2 (np_diag_matrix k))) ∧
    getattr r "R_a" = Ok (PArr (Nd2 R0)).
Proof.
  intros Hwf Hstatic Hpos Hunit r Hr.
  apply compute_returns in Hr as [-> (Hg & _)]; [|done].
  change (getattr (ferraris_record (formula_values self)) "b_a")
    with (@Ok (pyval R) (PArr (Nd1 (formula_b_a self)))).
  change (getattr (ferraris_record (formula_values self)) "K_a")
    with (@Ok (pyval R) (PArr (Nd2 (formula_K_a self)))).
  change (getattr (ferraris_record (formula_values self)) "R_a")
    with (@Ok (pyval R) (PArr (Nd2 (formula_R_a self)))).
  by rewrite (recovered_b_a self b k R0), (recovered_K_a self b k R0),
    (recovered_R_a self b k R0).
Qed.

Lemma np_sum_from (a : vec3 R) (l : list (vec3 R)) :
  foldl vadd a l = vadd a (np_sum l).
Proof.
  unfold np_sum. revert a. induction l as [|x l IH]; intros a; simpl.
  - destruct a. real_unfold. apply vec3_eq; ring.
  - rewrite IH, (IH (vadd _ x)). destruct a, x, (foldl vadd _ l).
    real_unfold. apply vec3_eq; ring.
Qed.

Lemma np_sum_app (l1 l2 : list (vec3 R)) :
  np_sum (l1 ++ l2) = vadd (np_sum l1) (np_sum l2).
Proof. unfold np_sum at 1. rewrite foldl_app. apply np_sum_from. Qed.

(** The sum of a segment is its mean taken as often as it has samples. *)
Lemma np_sum_mean (seg : list (vec3 R)) :
  seg ≠ [] → np_sum seg = smulv (INR (length seg)) (np_mean_rows seg).
Proof.
  intros Hseg. unfold np_mean_rows.
  change (of_Z (Z.of_nat (length seg))) with (IZR (Z.of_nat (length seg))).
  rewrite <- INR_IZR_INZ.
  assert (INR (length seg) ≠ 0) as Hn by (apply not_0_INR; by destruct seg).
  destruct (np_sum seg). real_unfold. apply vec3_eq; field; done.
Qed.

Lemma recovered_K_ga (self : FerrarisCalibration R) (b : vec3 R) (K : mat3 R) :
  static_rotations self b K → grav self ≠ 0 → formula_K_ga self = K.
Proof.
  intros (Hxp & Hxa & Hyp & Hya & Hzp & Hza) Hg. unfold formula_K_ga, U_g_p, U_g_a.
  rewrite Hxp, Hxa, Hyp, Hya, Hzp, Hza.
  destruct b, K as [[] [] []]. real_unfold. apply mat3_eq; apply vec3_eq; field; done.
Qed.

Lemma recovered_b_g (self : FerrarisCalibration R) (b : vec3 R) (K : mat3 R) (n : nat) :
  static_rotations self b K →
  n ≠ 0%nat →
  Forall (λ seg, length (samples seg) = n) (static_gyroscope self) →
  formula_b_g self = b.
Proof.
  intros (Hxp & Hxa & Hyp & Hya & Hzp & Hza) Hn Hlen.
  unfold static_gyroscope in Hlen. rewrite !Forall_cons in Hlen.
  destruct Hlen as (Lxp & Lxa & Lyp & Lya & Lzp & Lza & _).
  unfold formula_b_g, np_mean_rows.
  rewrite !length_app, Lxp, Lxa, Lyp, Lya, Lzp, Lza, !np_sum_app.
  assert (∀ seg, length (samples seg) = n →
                 np_sum (samples seg) = smulv (INR n) (segment_mean seg)) as Hsum.
  { intros seg Hseg. unfold segment_mean. rewrite <- Hseg. apply np_sum_mean.
    intros Hnil. rewrite Hnil in Hseg. simpl in Hseg. congruence. }
  rewrite !Hsum, Hxp, Hxa, Hyp, Hya, Hzp, Hza by done.
  change (of_Z (Z.of_nat (n + (n + (n + (n + (n + n)))))))
    with (IZR (Z.of_nat (n + (n + (n + (n + (n + n))))))).
  rewrite <- INR_IZR_INZ, !plus_INR.
  assert (INR n ≠ 0) as Hn' by by apply not_0_INR.
  clear Hxp Hxa Hyp Hya Hzp Hza.
  destruct b, K as [[] [] []]. real_unfold. apply vec3_eq; field; lra.
Qed.

(** X17: over the reals, when the static segments of the gyroscope are
    those of a sensor at rest whose reading is its bias [b] plus a
    sensitivity [K] to the acceleration, the gravity along and against each
    axis, the record the estimation returns holds exactly that
    sensitivity; it holds exactly that bias when the six segments have the
    same number of samples. *)
Theorem static_gyroscope_recovers_sensor (self : FerrarisCalibration R)
    (b : vec3 R) (K : mat3 R) :
  well_formed self →
  static_rotations self b K →
  ∀ r, compute_calibration_matrix self = Ok r →
    getattr r "K_ga" = Ok (PArr (Nd2 K)) ∧
    ((∃ n, n ≠ 0%nat ∧ Forall (λ seg, length (samples seg) = n) (static_gyroscope self)) →
     getattr r "b_g" = Ok (PArr (Nd1 b))).
Proof.
  intros Hwf Hstatic r Hr.
  apply compute_returns in Hr as [-> (Hg & _)]; [|done].
  change (getattr (ferraris_record (formula_values self)) "K_ga")
    with (@Ok (pyval R) (PArr (Nd2 (formula_K_ga self)))).
  change (getattr (ferraris_record (formula_values self)) "b_g")
    with (@Ok (pyval R) (PArr (Nd1 (formula_b_g self)))).
  split; [by rewrite (recovered_K_ga self b K)|].
  intros (n & Hn & Hlen). by rewrite (recovered_b_g self b K n).
Qed.

Lemma matmul_assoc (a b c : mat3 R) : matmul (matmul a b) c = matmul a (matmul b c).
Proof.
  destruct a as [[] [] []], b as [[] [] []], c as [[] [] []].
  real_unfold. apply mat3_eq; apply vec3_eq; ring.
Qed.

Lemma matmul_identity_l (a : mat3 R) : matmul np_identity a = a.
Proof. destruct a as [[] [] []]. real_unfold. apply mat3_eq; apply vec3_eq; ring. Qed.

Lemma matvec_identity (v : vec3 R) : matvec np_identity v = v.
Proof. destruct v. real_unfold. apply vec3_eq; ring. Qed.

Lemma positive_scale_regular (k : vec3 R) :
  0 < vx k ∧ 0 < vy k ∧ 0 < vz k → det (np_diag_matrix k) ≠ 0.
Proof. intros (?&?&?). rewrite det_diagonal_zero. lra. Qed.

(** The scale of a scaled rotation. *)
Lemma scale_of_scaled_rotation (k : vec3 R) (R0 : mat3 R) :
  0 < vx k ∧ 0 < vy k ∧ 0 < vz k →
  row_norms R0 = V3 1 1 1 →
  np_diag_matrix (np_sqrt (row_norms (matmul (np_diag_matrix k) R0))) = np_diag_matrix k.
Proof.
  intros (Hx & Hy & Hz).
  destruct k as [k1 k2 k3], R0 as [[r11 r12 r13] [r21 r22 r23] [r31 r32 r33]].
  simpl in Hx, Hy, Hz. real_unfold. intros [= H1 H2 H3].
  apply mat3_eq; apply vec3_eq; try reflexivity.
  - transitivity (sqrt (k1 * k1)); [f_equal | apply sqrt_square; lra].
    transitivity (k1 * k1 * (r11 * r11 + r12 * r12 + r13 * r13)); [ring|].
    rewrite H1. ring.
  - transitivity (sqrt (k2 * k2)); [f_equal | apply sqrt_square; lra].
    transitivity (k2 * k2 * (r21 * r21 + r22 * r22 + r23 * r23)); [ring|].
    rewrite H2. ring.
  - transitivity (sqrt (k3 * k3)); [f_equal | apply sqrt_square; lra].
    transitivity (k3 * k3 * (r31 * r31 + r32 * r32 + r33 * r33)); [ring|].
    rewrite H3. ring.
Qed.

Lemma inverse_scale_cancel (k : vec3 R) (X : mat3 R) :
  0 < vx k ∧ 0 < vy k ∧ 0 < vz k →
  matmul (inverse (np_diag_matrix k)) (matmul (np_diag_matrix k) X) = X.
Proof.
  intros Hk. rewrite <- matmul_assoc, inverse_left, matmul_identity_l; [done|].
  by apply positive_scale_regular.
Qed.

(** The forward transform of the record gives the true acceleration
    back from the reading. *)
Lemma acc_reading_calibrated (s : sensor) (a : vec3 R) :
  well_conditioned s →
  matvec (inverse (sensor_R_a s))
    (matvec (inverse (np_diag_matrix (sensor_k_a s)))
       (vsub (acc_reading s a) (sensor_b_a s))) = a.
Proof.
  intros (Hka & _ & _ & _ & HRa).
  replace (vsub (acc_reading s a) (sensor_b_a s))
    with (matvec (matmul (np_diag_matrix (sensor_k_a s)) (sensor_R_a s)) a).
  2:{ unfold acc_reading, sensor_reading.
      destruct (matvec _ a), (sensor_b_a s). real_unfold. apply vec3_eq; ring. }
  rewrite <- !matvec_matmul, matmul_assoc, inverse_scale_cancel by done.
  by rewrite inverse_left, matvec_identity.
Qed.

Lemma np_sum_cons (x : vec3 R) (l : list (vec3 R)) :
  np_sum (x :: l) = vadd x (np_sum l).
Proof.
  unfold np_sum at 1. cbn [foldl]. rewrite np_sum_from.
  destruct x, (np_sum l). real_unfold. apply vec3_eq; ring.
Qed.

Lemma np_sum_scaled (c : vec3 R) (rates : list R) :
  np_sum ((λ w, smulv w c) <$> rates) = smulv (foldr Rplus 0 rates) c.
Proof.
  induction rates as [|w rates IH].
  - destruct c. cbv [np_sum fmap list_fmap foldl foldr]. real_unfold. apply vec3_eq; ring.
  - rewrite fmap_cons, np_sum_cons, IH. cbn [foldr].
    destruct c. real_unfold. apply vec3_eq; ring.
Qed.

(** The integral of a rotation after the partial calibration. *)
Lemma rotation_integrated (s : sensor) (self : FerrarisCalibration R)
    (axis : vec3 R) (acc gyr : option (list (vec3 R))) :
  well_conditioned s →
  formula_b_a self = sensor_b_a s →
  formula_K_a self = np_diag_matrix (sensor_k_a s) →
  formula_R_a self = sensor_R_a s →
  formula_b_g self = sensor_b_g s →
  formula_K_ga self = sensor_K_ga s →
  rotation_about s axis acc gyr (sampling_rate self) (expected_angle self) →
  integrated self gyr acc
    = smulv (expected_angle self)
            (matvec (matmul (np_diag_matrix (sensor_k_g s)) (sensor_R_g s)) axis).
Proof.
  intros Hs Hba HKa HRa Hbg HKga (motion & -> & -> & Hangle).
  unfold integrated, gyro_offset_free, acc_calibrated. rewrite Hba, HKa, HRa, Hbg, HKga.
  simpl. rewrite <- list_fmap_compose, zip_with_fmap_l, zip_with_fmap_r, zip_with_diag.
  rewrite (list_fmap_ext _
             (λ m, smulv m.2 (matvec (matmul (np_diag_matrix (sensor_k_g s)) (sensor_R_g s))
                                     axis)) motion).
  2:{ intros i [a w] _. simpl. rewrite acc_reading_calibrated by done.
      unfold gyr_reading, sensor_reading.
      destruct (matmul _ (sensor_R_g s)) as [[] [] []], (sensor_b_g s), axis,
        (matvec (sensor_K_ga s) a).
      real_unfold. apply vec3_eq; ring. }
  set (c := matvec _ axis).
  replace ((λ m : vec3 R * R, smulv m.2 c) <$> motion)
    with ((λ w, smulv w c) <$> (snd <$> motion)) by by rewrite <- list_fmap_compose.
  rewrite np_sum_scaled, <- Hangle.
  destruct c. real_unfold. apply vec3_eq; unfold Rdiv; ring.
Qed.

Lemma recorded_well_formed (s : sensor) (self : FerrarisCalibration R) :
  recorded_with s self → well_formed self.
Proof.
  intros (Hacc & Hgyr & _ & _ & _ & Hx & Hy & Hz).
  destruct Hx as (mx & Hax & Hgx & _), Hy as (my & Hay & Hgy & _),
    Hz as (mz & Haz & Hgz & _).
  unfold static_gyroscope in Hgyr. rewrite !Forall_cons in Hacc, Hgyr.
  destruct Hacc as (?&?&?&?&?&?&_), Hgyr as (?&?&?&?&?&?&_).
  unfold well_formed, segments. rewrite Hax, Hgx, Hay, Hgy, Haz, Hgz.
  split; [|unfold samples; simpl; by rewrite !length_fmap].
  repeat apply Forall_cons_2; try done; try by eexists.
Qed.

Lemma recovered_M (s : sensor) (self : FerrarisCalibration R) :
  well_conditioned s →
  grav self ≠ 0 → expected_angle self ≠ 0 →
  recorded_with s self →
  M self = matmul (np_diag_matrix (sensor_k_g s)) (sensor_R_g s).
Proof.
  intros Hs Hg Hangle (_ & _ & Hacc & Hgyr & (n & Hn & Hlen) & Hx & Hy & Hz).
  pose proof Hs as (Hka & Hkg & HRa & HRg & Hdet).
  pose proof (recovered_b_a self _ _ _ Hacc) as Hb_a.
  pose proof (recovered_K_a self _ _ _ Hacc Hg Hka HRa) as HK_a.
  pose proof (recovered_R_a self _ _ _ Hacc Hg Hka HRa) as HR_a.
  pose proof (recovered_b_g self _ _ n Hgyr Hn Hlen) as Hb_g.
  pose proof (recovered_K_ga self _ _ Hgyr Hg) as HK_ga.
  unfold M, W.
  rewrite (rotation_integrated s self _ _ _ Hs Hb_a HK_a HR_a Hb_g HK_ga Hx),
    (rotation_integrated s self _ _ _ Hs Hb_a HK_a HR_a Hb_g HK_ga Hy),
    (rotation_integrated s self _ _ _ Hs Hb_a HK_a HR_a Hb_g HK_ga Hz).
  unfold expected_angle_matrix.
  destruct (matmul _ (sensor_R_g s)) as [[] [] []]. revert Hangle.
  generalize (expected_angle self). intros angle Hangle.
  real_unfold. apply mat3_eq; apply vec3_eq; field; done.
Qed.

(** X18: over the reals, when the segments of the estimator are those of
    the Ferraris procedure carried out, free of noise, with a sensor of the
    model [raw_acc = K_a R_a a + b_a], [raw_gyr = K_g R_g w + b_g + K_ga a]
    (positive scale factors, rotations with rows of length one, the
    accelerometer rotation invertible), the six static positions recorded
    with the same number of samples, not zero, and the gravity and the
    expected angle of the estimator not zero, the estimation returns the
    record of exactly that sensor. *)
Theorem estimation_recovers_sensor (s : sensor) (self : FerrarisCalibration R) :
  well_conditioned s →
  grav self ≠ 0%R →
  expected_angle self ≠ 0%R →
  recorded_with s self →
  compute_calibration_matrix self = Ok (ferraris_record (sensor_values s)).
Proof.
  intros Hs Hg Hangle Hrec.
  pose proof (recorded_well_formed s self Hrec) as Hwf.
  pose proof (recovered_M s self Hs Hg Hangle Hrec) as HM.
  destruct Hrec as (_ & _ & Hacc & Hgyr & (n & Hn & Hlen) & _).
  pose proof Hs as (Hka & Hkg & HRa & HRg & Hdet).
  pose proof (recovered_b_a self _ _ _ Hacc) as Hb_a.
  pose proof (recovered_K_a self _ _ _ Hacc Hg Hka HRa) as HK_a.
  pose proof (recovered_R_a self _ _ _ Hacc Hg Hka HRa) as HR_a.
  pose proof (recovered_b_g self _ _ n Hgyr Hn Hlen) as Hb_g.
  pose proof (recovered_K_ga self _ _ Hgyr Hg) as HK_ga.
  assert (formula_K_g self = np_diag_matrix (sensor_k_g s)) as HK_g.
  { unfold formula_K_g. rewrite HM. by apply scale_of_scaled_rotation. }
  assert (formula_R_g self = sensor_R_g s) as HR_g.
  { unfold formula_R_g. rewrite HK_g, HM. by apply inverse_scale_cancel. }
  rewrite compute_regular; [|done|].
  - unfold formula_values, sensor_values.
    by rewrite Hb_a, HK_a, HR_a, Hb_g, HK_g, HR_g, HK_ga.
  - unfold regular. rewrite HK_a, HR_a, HK_g.
    repeat split; try done; by apply positive_scale_regular.
Qed.
End Recovery.

Section Worked.
Local Open Scope R_scope.

Lemma example_real_returns :
  compute_calibration_matrix example_real = Ok (ferraris_record real_identity_values).
Proof. exact example_real_estimation. Qed.

Lemma mean_of_one (x : vec3 R) : segment_mean (Some [x]) = x.
Proof.
  destruct x. unfold segment_mean, np_mean_rows, np_sum. simpl. real_unfold.
  apply vec3_eq; field.
Qed.

(** The procedure of one sample to a segment is a record of the sensor. *)
Lemma one_sample_recorded (s : sensor) (g rate angle : R) :
  rate ≠ 0 → recorded_with s (one_sample_procedure s g rate angle).
Proof.
  intros Hrate.
  unfold recorded_with, static_gyroscope, static_accelerations, static_rotations,
    one_sample_procedure.
  cbn [acc_x_p acc_x_a acc_y_p acc_y_a acc_z_p acc_z_a
       gyr_x_p gyr_x_a gyr_y_p gyr_y_a gyr_z_p gyr_z_a
       acc_x_rot acc_y_rot acc_z_rot gyr_x_rot gyr_y_rot gyr_z_rot
       sampling_rate grav expected_angle].
  split; [repeat constructor; by eexists|].
  split; [repeat constructor; by eexists|].
  split; [by rewrite !mean_of_one|].
  split.
  { rewrite !mean_of_one.
    destruct s as [b_a k_a R_a [] [] [[] [] []] [[] [] []]].
    real_unfold. repeat split; apply vec3_eq; ring. }
  split; [exists 1%nat; split; [done | by repeat constructor]|].
  repeat split; (exists [(V3 0 0 g, angle * rate)]; split; [done|]; split; [done|]);
    simpl; field; done.
Qed.

Lemma skewed_sensor_well_conditioned : well_conditioned skewed_sensor.
Proof.
  unfold well_conditioned, skewed_sensor.
  cbn [sensor_k_a sensor_k_g sensor_R_a sensor_R_g]. real_unfold.
  repeat split; try lra; apply vec3_eq; field.
Qed.

Lemma example_real_static_accelerations :
  static_accelerations example_real (V3 0 0 0) (V3 1 1 1) np_identity.
Proof.
  unfold static_accelerations, example_real.
  cbn [acc_x_p acc_x_a acc_y_p acc_y_a acc_z_p acc_z_a grav].
  rewrite !mean_of_one. real_unfold. repeat split; apply vec3_eq; field.
Qed.

Lemma example_real_static_rotations :
  static_rotations example_real (V3 0 0 0) np_zeros.
Proof.
  unfold static_rotations, example_real.
  cbn [gyr_x_p gyr_x_a gyr_y_p gyr_y_a gyr_z_p gyr_z_a grav].
  rewrite !mean_of_one. real_unfold. repeat split; apply vec3_eq; field.
Qed.

Lemma identity_unit_rows : np_diag (matmul np_identity (transpose np_identity)) = V3 1 1 1.
Proof. real_unfold. apply vec3_eq; ring. Qed.

Lemma compute_errors_witness :
  match compute_calibration_matrix example_zero_angle with
  | Ok _ => regular example_zero_angle
  | Err e => (e = ZeroDivisionError ∧ grav example_zero_angle = 0) ∨
             (e = LinAlgError ∧ grav example_zero_angle ≠ 0 ∧ ¬ regular example_zero_angle)
  end.
Proof. apply (compute_errors example_zero_angle example_zero_angle_well_formed). Defined.

Lemma returned_rotations_have_unit_rows_witness :
  let r := ferraris_record real_identity_values in
  ∃ R_a R_g,
    getattr r "R_a" = Ok (PArr (Nd2 R_a)) ∧
    getattr r "R_g" = Ok (PArr (Nd2 R_g)) ∧
    np_diag (matmul R_a (transpose R_a)) = V3 1 1 1 ∧
    np_diag (matmul R_g (transpose R_g)) = V3 1 1 1.
Proof.
  apply (returned_rotations_have_unit_rows example_real example_real_well_formed
           (ferraris_record real_identity_values) example_real_returns).
Defined.

Lemma returned_scales_are_positive_witness :
  let r := ferraris_record real_identity_values in
  ∃ k_a k_g,
    getattr r "K_a" = Ok (PArr (Nd2 (np_diag_matrix k_a))) ∧
    getattr r "K_g" = Ok (PArr (Nd2 (np_diag_matrix k_g))) ∧
    (0 < vx k_a ∧ 0 < vy k_a ∧ 0 < vz k_a) ∧
    (0 < vx k_g ∧ 0 < vy k_g ∧ 0 < vz k_g).
Proof.
  apply (returned_scales_are_positive example_real example_real_well_formed
           (ferraris_record real_identity_values) example_real_returns).
Defined.

Lemma accelerometer_recovers_sensor_witness :
  let r := ferraris_record real_identity_values in
  getattr r "b_a" = Ok (PArr (Nd1 (V3 0 0 0))) ∧
  getattr r "K_a" = Ok (PArr (Nd2 (np_diag_matrix (V3 1 1 1)))) ∧
  getattr r "R_a" = Ok (PArr (Nd2 np_identity)).
Proof.
  apply (accelerometer_recovers_sensor example_real (V3 0 0 0) (V3 1 1 1) np_identity
           example_real_well_formed example_real_static_accelerations).
  - simpl. lra.
  - exact identity_unit_rows.
  - exact example_real_returns.
Defined.

Lemma static_gyroscope_recovers_sensor_witness :
  let r := ferraris_record real_identity_values in
  getattr r "K_ga" = Ok (PArr (Nd2 np_zeros)) ∧
  ((∃ n, n ≠ 0%nat ∧
         Forall (λ seg, length (samples seg) = n) (static_gyroscope example_real)) →
   getattr r "b_g" = Ok (PArr (Nd1 (V3 0 0 0)))).
Proof.
  apply (static_gyroscope_recovers_sensor example_real (V3 0 0 0) np_zeros
           example_real_well_formed example_real_static_rotations
           (ferraris_record real_identity_values) example_real_returns).
Defined.

Lemma estimation_recovers_sensor_witness :
  compute_calibration_matrix (one_sample_procedure skewed_sensor (981 / 100) 100 360)
    = Ok (ferraris_record (sensor_values skewed_sensor)).
Proof.
  apply (estimation_recovers_sensor skewed_sensor
           (one_sample_procedure skewed_sensor (981 / 100) 100 360)
           skewed_sensor_well_conditioned).
  - simpl. lra.
  - simpl. lra.
  - apply one_sample_recorded. lra.
Defined.
End Worked.

(** ** The record of the estimation in a file *)

(** The record under construction once its seven parameters are set. *)
Lemma set_parameters {A : Type} (b_a b_g : vec3 A) (K_a R_a K_ga K_g R_g : mat3 A) :
  setattr (setattr (setattr (setattr (setattr (setattr (setattr (@blank_record A)
    "b_a" (PArr (Nd1 b_a))) "K_a" (PArr (Nd2 K_a))) "R_a" (PArr (Nd2 R_a)))
    "b_g" (PArr (Nd1 b_g))) "K_ga" (PArr (Nd2 K_ga))) "K_g" (PArr (Nd2 K_g)))
    "R_g" (PArr (Nd2 R_g))
  = ferraris_record
      {| fv_acc_unit := None; fv_gyr_unit := None; fv_from_acc_unit := None;
         fv_from_gyr_unit := None; fv_comment := None;
         fv_b_a := b_a; fv_K_a := K_a; fv_R_a := R_a; fv_b_g := b_g;
         fv_K_g := K_g; fv_R_g := R_g; fv_K_ga := K_ga |}.
Proof. reflexivity. Qed.

(** The record the estimation builds: a Ferraris record without units or
    comment. *)
Lemma compute_returns_record {A : Type} `{Scalar A} `{Linalg A}
    (self : FerrarisCalibration A) (r : obj A) :
  compute_calibration_matrix self = Ok r →
  ∃ v, r = ferraris_record v ∧
       fv_acc_unit v = None ∧ fv_gyr_unit v = None ∧ fv_from_acc_unit v = None ∧
       fv_from_gyr_unit v = None ∧ fv_comment v = None.
Proof.
  unfold compute_calibration_matrix. intros Hok.
  rewrite construct_blank in Hok. cbn [bind] in Hok.
  repeat bind_inv Hok. rewrite set_parameters in Hok. injection Hok as <-.
  eexists. split; [reflexivity|]. repeat split.
Qed.

(** X19: whatever numbers the estimation works on, a record it returns is
    a Ferraris record with its seven parameters set and no units or
    comment, and is given back unchanged by [from_json] from its JSON
    document and by [from_hdf5] from its HDF5 file. *)
Theorem returned_record_round_trips {A : Type} `{Scalar A} `{Linalg A}
    (self : FerrarisCalibration A) (r : obj A)
    (path : string) (fs : gmap string (file A)) :
  compute_calibration_matrix self = Ok r →
  obj_class r = FerrarisCalibrationInfo ∧
  (∀ k, k ∈ ferraris_paras → ∃ a, getattr r k = Ok (PArr a) ∧ a ≠ Nd0None) ∧
  (∀ k, k ∈ field_name <$> base_fields → getattr r k = Ok PNone) ∧
  (∃ json_str, to_json r = Ok json_str ∧
               from_json [FerrarisCalibrationInfo] json_str = Ok r) ∧
  (∃ fs', to_hdf5 r path fs = Ok fs' ∧
          from_hdf5 [FerrarisCalibrationInfo] fs' path = Ok r).
Proof.
  intros (v & -> & Hu1 & Hu2 & Hu3 & Hu4 & Hc)%compute_returns_record.
  destruct v as [u1 u2 u3 u4 c b_a K_a R_a b_g K_g R_g K_ga]. simpl in *. subst.
  split; [done|]. split; [|split; [|split]].
  - intros k. unfold ferraris_paras. rewrite !elem_of_cons, elem_of_nil.
    intros [->|[->|[->|[->|[->|[->|[->|[]]]]]]]]; by eexists.
  - intros k. unfold base_fields. simpl. rewrite !elem_of_cons, elem_of_nil.
    intros [->|[->|[->|[->|[->|[]]]]]]; reflexivity.
  - exists (ferraris_document
              {| fv_acc_unit := None; fv_gyr_unit := None; fv_from_acc_unit := None;
                 fv_from_gyr_unit := None; fv_comment := None;
                 fv_b_a := b_a; fv_K_a := K_a; fv_R_a := R_a; fv_b_g := b_g;
                 fv_K_g := K_g; fv_R_g := R_g; fv_K_ga := K_ga |}).
    split; [apply to_json_ferraris | by apply from_json_ferraris].
  - eexists. unfold to_hdf5. rewrite to_hdf5_ferraris. split; [reflexivity|].
    unfold from_hdf5. rewrite lookup_insert_eq.
    by rewrite (from_hdf5_ferraris [FerrarisCalibrationInfo]).
Qed.

Lemma returned_record_round_trips_witness :
  let r := ferraris_record bare_identity_values in
  obj_class r = FerrarisCalibrationInfo ∧
  (∀ k, k ∈ ferraris_paras → ∃ a, getattr r k = Ok (PArr a) ∧ a ≠ Nd0None) ∧
  (∀ k, k ∈ field_name <$> base_fields → getattr r k = Ok PNone) ∧
  (∃ json_str, to_json r = Ok json_str ∧
               from_json [FerrarisCalibrationInfo] json_str = Ok r) ∧
  (∃ fs', to_hdf5 r "cal.h5" ∅ = Ok fs' ∧
          from_hdf5 [FerrarisCalibrationInfo] fs' "cal.h5" = Ok r).
Proof.
  apply (returned_record_round_trips (__init__ 100%float None None example_kwargs)
           (ferraris_record bare_identity_values) "cal.h5" ∅).
  exact example_estimation.
Defined.
